(** * MoodPad: entry store, CSV codec and analytics

    A shallow embedding of [js/storage.js], [js/stats.js], the tag,
    insight, pattern, year-review, reminder, custom-emoji and CSV-import
    parts of [js/features.js] and the date arithmetic of [js/calendar.js],
    with the properties of the store and of the derived statistics proved
    over it.

    Conventions of the embedding.
    - A JavaScript string is a [string]: the bytes of its UTF-8 encoding.
      The delimiters the program looks for (comma, double quote, line feed)
      are ASCII, so scanning bytes and scanning code points agree.
      [toLowerCase] is modelled on the ASCII letters.
    - A [Date] is its time value: [Some t] with [t] in milliseconds since
      the epoch, [None] for an Invalid Date (NaN).  The local time zone is
      a fixed offset [LocalTZA] (local time = UTC + [LocalTZA]); changes of
      the offset in the course of a year are not modelled.
    - [Date.parse] is fixed by ECMAScript on the calendar-date form
      [YYYY-MM-DD] (UTC midnight of that day); on every other string the
      result is left to the engine and is the parameter [Date_fallback].
    - The persistent key [moodpad_moods] holds the JSON text of an array of
      entries; the embedding keeps the array itself.  Reads and writes of
      the key are taken to succeed.
    - A plain object used as a tally is an association list in creation
      order; [Object_entries] lists it in the engine's property order.
      Keys that name inherited members of [Object.prototype] are outside
      the embedding. *)

From Stdlib Require Import ZArith List String Ascii Bool Lia.
From Stdlib Require Import Permutation Sorted QArith.
Import ListNotations.
Local Open Scope string_scope.
Local Open Scope list_scope.
Local Open Scope Z_scope.

(** ** Fragments of the JavaScript runtime the program calls *)

Module JS.

Definition code (c : ascii) : Z := Z.of_nat (nat_of_ascii c).

Definition quote : ascii := "034"%char.
Definition comma : ascii := ","%char.
Definition LF : ascii := "010"%char.

(** White space and line terminators of ECMAScript, as UTF-8 sequences of
    one, two and three bytes. *)
Definition ws1 (a : ascii) : bool :=
  let n := code a in ((9 <=? n) && (n <=? 13)) || (n =? 32).

Definition ws2 (a b : ascii) : bool :=
  (code a =? 194) && (code b =? 160).

Definition ws3 (a b c : ascii) : bool :=
  let x := code a in let y := code b in let z := code c in
  ((x =? 225) && (y =? 154) && (z =? 128))
  || ((x =? 226) && (y =? 128)
      && (((128 <=? z) && (z <=? 138)) || (z =? 168) || (z =? 169) || (z =? 175)))
  || ((x =? 226) && (y =? 129) && (z =? 159))
  || ((x =? 227) && (y =? 128) && (z =? 128))
  || ((x =? 239) && (y =? 187) && (z =? 191)).

Fixpoint trimStartBytes (l : list ascii) : list ascii :=
  match l with
  | [] => []
  | a :: l1 =>
      if ws1 a then trimStartBytes l1 else
      match l1 with
      | [] => l
      | b :: l2 =>
          if ws2 a b then trimStartBytes l2 else
          match l2 with
          | [] => l
          | c :: l3 => if ws3 a b c then trimStartBytes l3 else l
          end
      end
  end.

(** The same scan over the reversed bytes: the last byte comes first. *)
Fixpoint trimEndBytes (l : list ascii) : list ascii :=
  match l with
  | [] => []
  | a :: l1 =>
      if ws1 a then trimEndBytes l1 else
      match l1 with
      | [] => l
      | b :: l2 =>
          if ws2 b a then trimEndBytes l2 else
          match l2 with
          | [] => l
          | c :: l3 => if ws3 c b a then trimEndBytes l3 else l
          end
      end
  end.

(** [String.prototype.trim] *)
Definition trim (s : string) : string :=
  string_of_list_ascii
    (rev (trimEndBytes (rev (trimStartBytes (list_ascii_of_string s))))).

(** [String.prototype.toLowerCase], ASCII letters *)
Definition lower (c : ascii) : ascii :=
  let n := code c in
  if (65 <=? n) && (n <=? 90) then ascii_of_nat (Z.to_nat (n + 32)) else c.

Fixpoint toLowerCase (s : string) : string :=
  match s with
  | EmptyString => EmptyString
  | String c s' => String (lower c) (toLowerCase s')
  end.

(** [String.prototype.split] on a one-character separator *)
Fixpoint split (sep : ascii) (s : string) : list string :=
  match s with
  | EmptyString => [EmptyString]
  | String c s' =>
      if Ascii.eqb c sep then EmptyString :: split sep s'
      else match split sep s' with
           | h :: t => String c h :: t
           | [] => [String c EmptyString]
           end
  end.

(** [Array.prototype.join] *)
Fixpoint join (sep : string) (l : list string) : string :=
  match l with
  | [] => EmptyString
  | [x] => x
  | x :: l' => (x ++ sep ++ join sep l')%string
  end.

(** [String.prototype.includes] *)
Fixpoint includes (hay needle : string) : bool :=
  String.prefix needle hay ||
  match hay with
  | EmptyString => false
  | String _ hay' => includes hay' needle
  end.

(** [Array.prototype.indexOf] on strings, [-1] when absent *)
Fixpoint indexOf_from (i : Z) (l : list string) (x : string) : Z :=
  match l with
  | [] => -1
  | y :: l' => if String.eqb y x then i else indexOf_from (i + 1) l' x
  end.

Definition indexOf (l : list string) (x : string) : Z := indexOf_from 0 l x.

(** [a[i]]: [None] is [undefined] *)
Definition at_index {A : Type} (l : list A) (i : Z) : option A :=
  if i <? 0 then None else nth_error l (Z.to_nat i).

(** [Array.prototype.findIndex] *)
Fixpoint findIndex {A : Type} (p : A -> bool) (l : list A) : option nat :=
  match l with
  | [] => None
  | x :: l' =>
      if p x then Some O
      else match findIndex p l' with
           | Some i => Some (S i)
           | None => None
           end
  end.

(** [a[i] = x] for an index inside the array *)
Fixpoint assign {A : Type} (l : list A) (i : nat) (x : A) : list A :=
  match l, i with
  | [], _ => []
  | _ :: l', O => x :: l'
  | y :: l', S i' => y :: assign l' i' x
  end.

(** [String.prototype.replace] with the global pattern of one double
    quote and a replacement of two: every double quote is doubled. *)
Fixpoint doubleQuotes (s : string) : string :=
  match s with
  | EmptyString => EmptyString
  | String c s' =>
      if Ascii.eqb c quote then String quote (String quote (doubleQuotes s'))
      else String c (doubleQuotes s')
  end.

(** [String.prototype.replace] with the global pattern that matches a
    double quote at the start or a double quote at the end, and an empty
    replacement: one quote off the front, one off the end. *)
Definition dropLast (s : string) : string :=
  match rev (list_ascii_of_string s) with
  | c :: r => if Ascii.eqb c quote then string_of_list_ascii (rev r) else s
  | [] => s
  end.

Definition stripQuotes (s : string) : string :=
  match s with
  | String c s' => if Ascii.eqb c quote then dropLast s' else dropLast s
  | EmptyString => EmptyString
  end.

(** *** [Array.prototype.sort]

    The sort is stable.  The comparator's result is [None] for NaN, which
    the sort reads as [+0].  An element is placed after another exactly when
    the comparator is positive on the pair.  On an array on which the
    comparator is consistent this is the order the language fixes; with NaN
    among the results the language leaves the order to the engine, and the
    properties below that depend on the order are stated for valid dates. *)
Definition positive (v : option Z) : bool :=
  match v with Some n => 0 <? n | None => false end.

Section Sort.
Context {A : Type} (cmp : A -> A -> option Z).

Fixpoint insert (x : A) (l : list A) : list A :=
  match l with
  | [] => [x]
  | y :: l' => if positive (cmp x y) then y :: insert x l' else x :: l
  end.

Definition sort (l : list A) : list A := fold_right insert [] l.
End Sort.

(** *** Own property order of a plain object

    Keys that are array indices (canonical decimal numerals up to
    [2^32 - 2]) come first, in ascending numeric order; the other keys
    follow in the order of their creation. *)
Definition digit (c : ascii) : option Z :=
  let n := code c in
  if (48 <=? n) && (n <=? 57) then Some (n - 48) else None.

Fixpoint numeral (acc : Z) (s : string) : option Z :=
  match s with
  | EmptyString => Some acc
  | String c s' =>
      match digit c with
      | Some d => numeral (10 * acc + d) s'
      | None => None
      end
  end.

Definition arrayIndex (s : string) : option Z :=
  match s with
  | EmptyString => None
  | String c s' =>
      if Ascii.eqb c "0"%char && negb (String.eqb s' EmptyString) then None
      else match numeral 0 s with
           | Some n => if n <=? 4294967294 then Some n else None
           | None => None
           end
  end.

Definition isArrayIndex (s : string) : bool :=
  match arrayIndex s with Some _ => true | None => false end.

Definition indexOrder {V : Type} (a b : string * V) : option Z :=
  match arrayIndex (fst a), arrayIndex (fst b) with
  | Some x, Some y => Some (x - y)
  | _, _ => Some 0
  end.

Definition Object_entries {V : Type} (o : list (string * V)) : list (string * V) :=
  sort indexOrder (filter (fun kv => isArrayIndex (fst kv)) o)
  ++ filter (fun kv => negb (isArrayIndex (fst kv))) o.

(** [o[k]] and [o[k] = v] on own properties *)
Fixpoint prop {V : Type} (o : list (string * V)) (k : string) : option V :=
  match o with
  | [] => None
  | (k', v) :: o' => if String.eqb k' k then Some v else prop o' k
  end.

Fixpoint setProp {V : Type} (o : list (string * V)) (k : string) (v : V)
  : list (string * V) :=
  match o with
  | [] => [(k, v)]
  | (k', v') :: o' =>
      if String.eqb k' k then (k', v) :: o' else (k', v') :: setProp o' k v
  end.

(** *** Calendar arithmetic of [Date] *)
Definition msPerDay : Z := 86400000.

Definition Day (t : Z) : Z := t / msPerDay.

(** Day number of a proleptic Gregorian date, month in 1..12. *)
Definition daysFromCivil (y m d : Z) : Z :=
  let y' := if m <=? 2 then y - 1 else y in
  let era := y' / 400 in
  let yoe := y' - era * 400 in
  let mp := if 2 <? m then m - 3 else m + 9 in
  let doy := (153 * mp + 2) / 5 + d - 1 in
  let doe := yoe * 365 + yoe / 4 - yoe / 100 + doy in
  era * 146097 + doe - 719468.

(** Year, month (1..12) and day of month of a day number. *)
Definition civilFromDays (z : Z) : Z * Z * Z :=
  let z' := z + 719468 in
  let era := z' / 146097 in
  let doe := z' - era * 146097 in
  let yoe := (doe - doe / 1460 + doe / 36524 - doe / 146096) / 365 in
  let doy := doe - (365 * yoe + yoe / 4 - yoe / 100) in
  let mp := (5 * doy + 2) / 153 in
  let d := doy - (153 * mp + 2) / 5 + 1 in
  let m := if mp <? 10 then mp + 3 else mp - 9 in
  (if m <=? 2 then yoe + era * 400 + 1 else yoe + era * 400, m, d).

Definition isLeap (y : Z) : bool :=
  ((y mod 4 =? 0) && negb (y mod 100 =? 0)) || (y mod 400 =? 0).

Definition daysInMonth (y m : Z) : Z :=
  if m =? 2 then (if isLeap y then 29 else 28)
  else if (m =? 4) || (m =? 6) || (m =? 9) || (m =? 11) then 30 else 31.

(** ECMAScript's own day arithmetic: the day number of the first of January,
    and of a date by counting months and days from there ([MakeDay]).
    [daysFromCivil] computes the same number ([daysFromCivil_MakeDay]), and
    [civilFromDays] recovers the date from it ([civilFromDays_inverse]). *)
Definition DayFromYear (y : Z) : Z :=
  365 * (y - 1970) + (y - 1969) / 4 - (y - 1901) / 100 + (y - 1601) / 400.

Definition daysBeforeMonth (y m : Z) : Z :=
  nth (Z.to_nat (m - 1)) [0; 31; 59; 90; 120; 151; 181; 212; 243; 273; 304; 334] 0
  + (if isLeap y && (2 <? m) then 1 else 0).

Definition MakeDay (y m d : Z) : Z := DayFromYear y + daysBeforeMonth y m + d - 1.

(** The calendar-date form [YYYY-MM-DD] of the Date Time String Format. *)
Definition isoDate (s : string) : option (Z * Z * Z) :=
  match list_ascii_of_string s with
  | [y1; y2; y3; y4; h1; m1; m2; h2; d1; d2] =>
      if Ascii.eqb h1 "-"%char && Ascii.eqb h2 "-"%char then
        match digit y1, digit y2, digit y3, digit y4,
              digit m1, digit m2, digit d1, digit d2 with
        | Some a, Some b, Some c, Some d, Some e, Some f, Some g, Some h =>
            let y := 1000 * a + 100 * b + 10 * c + d in
            let m := 10 * e + f in
            let dd := 10 * g + h in
            if (1 <=? m) && (m <=? 12) && (1 <=? dd) && (dd <=? daysInMonth y m)
            then Some (y, m, dd) else None
        | _, _, _, _, _, _, _, _ => None
        end
      else None
  | _ => None
  end.

(** [Math.round(n / d)] for integers [n] and [d > 0]: the floor of
    [n / d + 1/2].  The program divides a difference of time values by
    [msPerDay]; on calendar dates the quotient is a whole number. *)
Definition roundDiv (n d : Z) : Z := (2 * n + d) / (2 * d).

End JS.

Import JS.

(** ** The program *)

(** An entry of the journal, as [saveMood] builds it; [timestamp] is the
    instant behind the ISO text the program stores. *)
Record MoodEntry : Type := mkMood {
  date : string;
  emoji : string;
  note : string;
  tags : list string;
  timestamp : Z
}.

(** The array kept under [STORAGE_KEY]. *)
Definition Store : Type := list MoodEntry.

(** How a call ends. *)
Inductive Completion (A : Type) : Type :=
| Return (v : A)
| Throw (message : string).

Arguments Return {A} v.
Arguments Throw {A} message.

(** An insight: its data; [insightType] is the [type] field. *)
Inductive Insight : Type :=
| Happiest (day : string)
| Tougher (day : string)
| MostFrequent (e : string) (occurrences entries : Z)
| StreakNote (days : Z).

Inductive InsightType : Type := positive_t | info_t | stat_t | achievement_t.

Definition insightType (i : Insight) : InsightType :=
  match i with
  | Happiest _ => positive_t
  | Tougher _ => info_t
  | MostFrequent _ _ _ => stat_t
  | StreakNote _ => achievement_t
  end.

(** The table of stats.js, its keys the emojis of the mood picker, and
    [emojiToValue[e] || 3] over it. *)
Module Stats.

Definition emojiToValue : list (string * Z) :=
  [("😍", 5); ("😊", 4); ("😐", 3);
   ("😴", 2); ("😰", 2); ("😢", 1); ("😠", 1)].

Definition moodValue (e : string) : Z :=
  match prop emojiToValue e with
  | Some v => if v =? 0 then 3 else v
  | None => 3
  end.

End Stats.

Section MoodPad.

(** What the engine's [Date.parse] answers on a string that is not a
    calendar date in the form [YYYY-MM-DD]. *)
Variable Date_fallback : string -> option Z.

(** The offset of local time from UTC, in milliseconds. *)
Variable LocalTZA : Z.

(** *** [Date] *)

Definition Date : Type := option Z.

(** [new Date(s)] for a string [s] *)
Definition Date_parse (s : string) : Date :=
  match isoDate s with
  | Some (y, m, d) => Some (msPerDay * daysFromCivil y m d)
  | None => Date_fallback s
  end.

(** [d.setHours(0, 0, 0, 0)]: midnight, local time, of the local day *)
Definition setHours0 (d : Date) : Date :=
  option_map (fun t => Day (t + LocalTZA) * msPerDay - LocalTZA) d.

(** [d.setDate(d.getDate() - 1)]: the same local time one day earlier *)
Definition setDatePrev (d : Date) : Date :=
  option_map (fun t => t - msPerDay) d.

Definition getFullYear (d : Date) : option Z :=
  option_map (fun t => fst (fst (civilFromDays (Day (t + LocalTZA))))) d.

(** January is [0]. *)
Definition getMonth (d : Date) : option Z :=
  option_map (fun t => snd (fst (civilFromDays (Day (t + LocalTZA)))) - 1) d.

(** Sunday is [0]; day [0] of the epoch was a Thursday. *)
Definition getDay (d : Date) : option Z :=
  option_map (fun t => (Day (t + LocalTZA) + 4) mod 7) d.

(** [a - b] on dates, in milliseconds: NaN as soon as one is invalid *)
Definition elapsed (a b : Date) : option Z :=
  match a, b with
  | Some x, Some y => Some (x - y)
  | _, _ => None
  end.

(** [a < b] on dates: false as soon as one is invalid *)
Definition before (a b : Date) : bool :=
  match a, b with
  | Some x, Some y => x <? y
  | _, _ => false
  end.

(** [a.getTime() === b.getTime()]: NaN equals nothing *)
Definition sameTime (a b : Date) : bool :=
  match a, b with
  | Some x, Some y => x =? y
  | _, _ => false
  end.

(** [x === v] for a number [x] that may be NaN *)
Definition isNumber (x : option Z) (v : Z) : bool :=
  match x with Some n => n =? v | None => false end.

(** *** storage.js *)

Definition getAllMoods (st : Store) : list MoodEntry := st.

Definition getMood (st : Store) (d : string) : option MoodEntry :=
  find (fun m => String.eqb (date m) d) (getAllMoods st).

(** The comparators of the program's sorts. *)
Definition byDateDesc (a b : MoodEntry) : option Z :=
  elapsed (Date_parse (date b)) (Date_parse (date a)).

Definition byDateAsc (a b : MoodEntry) : option Z :=
  elapsed (Date_parse (date a)) (Date_parse (date b)).

(** [saveMood(date, emoji, note, tags)]; [tagsArg = None] is the call that
    leaves [tags] out (or passes [null]), [now] the clock's reading.  The
    result is the stored array and the entry returned. *)
Definition saveMood (now : Z) (d e n : string) (tagsArg : option (list string))
    (st : Store) : Store * MoodEntry :=
  let moods := getAllMoods st in
  let existingIndex := findIndex (fun m => String.eqb (date m) d) moods in
  let existingMood :=
    match existingIndex with
    | Some i => nth_error moods i
    | None => None
    end in
  let moodTags :=
    match tagsArg with
    | Some t => t
    | None => match existingMood with Some m => tags m | None => [] end
    end in
  let moodEntry := mkMood d e (trim n) moodTags now in
  let moods' :=
    match existingIndex with
    | Some i => assign moods i moodEntry
    | None => moods ++ [moodEntry]
    end in
  (sort byDateDesc moods', moodEntry).

Definition deleteMood (d : string) (st : Store) : Store :=
  filter (fun m => negb (String.eqb (date m) d)) (getAllMoods st).

Definition clearAll (st : Store) : Store := [].

(** [month] counts from [0]. *)
Definition getMoodsForMonth (st : Store) (year month : Z) : list MoodEntry :=
  filter (fun m =>
            let d := Date_parse (date m) in
            isNumber (getFullYear d) year && isNumber (getMonth d) month)
         (getAllMoods st).

Definition csvRow (m : MoodEntry) : string :=
  join "," [date m; emoji m;
            String quote (doubleQuotes (note m) ++ String quote EmptyString)%string].

Definition exportToCSV (st : Store) : string :=
  let moods := getAllMoods st in
  match moods with
  | [] => EmptyString
  | _ => join (String LF EmptyString) ("Date,Emoji,Note" :: map csvRow moods)
  end.

(** *** stats.js *)

(** [counts[k] = (counts[k] || 0) + 1] *)
Definition bump (counts : list (string * Z)) (k : string) : list (string * Z) :=
  setProp counts k (match prop counts k with Some c => c | None => 0 end + 1).

Definition tally (moods : list MoodEntry) : list (string * Z) :=
  fold_left (fun counts m => bump counts (emoji m)) moods [].

(** The scan for the first largest count; the state is
    [(maxCount, mostCommon)]. *)
Definition pickMax (acc : Z * option string) (entry : string * Z)
  : Z * option string :=
  let '(maxCount, mostCommon) := acc in
  let '(emoji, count) := entry in
  if maxCount <? count then (count, Some emoji) else (maxCount, mostCommon).

Definition getMostCommonMood (st : Store) (year month : Z) : option string :=
  let moods := getMoodsForMonth st year month in
  match moods with
  | [] => None
  | _ => snd (fold_left pickMax (Object_entries (tally moods)) (0, None))
  end.

(** The loop of [getCurrentStreak] from index [1] on: [expectedDate] and
    [streak] are its variables, [rest] the entries still to visit. *)
Fixpoint streakLoop (expectedDate : Date) (streak : Z) (rest : list MoodEntry)
  : Z :=
  match rest with
  | [] => streak
  | m :: rest' =>
      let expectedDate1 := setDatePrev expectedDate in
      let currentDate := setHours0 (Date_parse (date m)) in
      let expectedDate2 := setHours0 expectedDate1 in
      if sameTime currentDate expectedDate2
      then streakLoop expectedDate2 (streak + 1) rest'
      else streak
  end.

Definition getCurrentStreak (now : Z) (st : Store) : Z :=
  let moods := getAllMoods st in
  match sort byDateDesc moods with
  | [] => 0
  | latest :: rest =>
      let today := setHours0 (Some now) in
      let yesterday := setDatePrev today in
      let latestDate := setHours0 (Date_parse (date latest)) in
      if before latestDate yesterday then 0
      else streakLoop (Date_parse (date latest)) 1 rest
  end.

(** The loop of [getLongestStreak] from index [1] on; [prev] is
    [sorted[i - 1]]. *)
Fixpoint longestLoop (prev : MoodEntry) (currentStreak maxStreak : Z)
    (rest : list MoodEntry) : Z :=
  match rest with
  | [] => maxStreak
  | m :: rest' =>
      let diffDays :=
        option_map (fun ms => roundDiv ms msPerDay)
                   (elapsed (Date_parse (date m)) (Date_parse (date prev))) in
      match diffDays with
      | Some n =>
          if n =? 1
          then longestLoop m (currentStreak + 1)
                           (Z.max maxStreak (currentStreak + 1)) rest'
          else if 1 <? n then longestLoop m 1 maxStreak rest'
          else longestLoop m currentStreak maxStreak rest'
      | None => longestLoop m currentStreak maxStreak rest'
      end
  end.

Definition getLongestStreak (st : Store) : Z :=
  let moods := getAllMoods st in
  match sort byDateAsc moods with
  | [] => 0
  | first :: rest => longestLoop first 1 1 rest
  end.

(** *** features.js: tags *)

(** The result is the stored array and the value returned: [None] for
    [null], otherwise the tag array. *)
Definition addTagToMood (now : Z) (d tag : string) (st : Store)
  : Store * option (list string) :=
  match getMood st d with
  | None => (st, None)
  | Some mood =>
      let tags0 := tags mood in
      if existsb (String.eqb tag) tags0 then (st, Some tags0)
      else
        let tags1 := tags0 ++ [tag] in
        (fst (saveMood now d (emoji mood) (note mood) (Some tags1) st),
         Some tags1)
  end.

Definition removeTagFromMood (now : Z) (d tag : string) (st : Store)
  : Store * option (list string) :=
  match getMood st d with
  | None => (st, None)
  | Some mood =>
      let tags1 := filter (fun t => negb (String.eqb t tag)) (tags mood) in
      (fst (saveMood now d (emoji mood) (note mood) (Some tags1) st),
       Some tags1)
  end.

(** *** features.js: weekly insights *)

Definition WEEKDAYS : list string :=
  ["Sunday"; "Monday"; "Tuesday"; "Wednesday"; "Thursday"; "Friday";
   "Saturday"].

(** The table of [generateWeeklyInsights], its keys byte for byte as
    features.js spells them.  They are not the emojis of the mood picker in
    app.js, which [moodValue] therefore maps to [3]. *)
Definition emojiToValue : list (string * Z) :=
  [("üòç", 5); ("üòä", 4); ("üòê", 3); ("üò¥", 2); ("üò∞", 2);
   ("üò¢", 1); ("üò†", 1)].

(** [emojiToValue[e] || 3] *)
Definition moodValue (e : string) : Z :=
  match prop emojiToValue e with
  | Some v => if v =? 0 then 3 else v
  | None => 3
  end.

(** [dayStats]: per weekday name, [(total, count)]. *)
Definition DayStats : Type := list (string * (Z * Z)).

Definition dayStats0 : DayStats := map (fun day => (day, (0, 0))) WEEKDAYS.

(** One round of the loop that fills [dayStats].  An entry whose date is
    invalid has no weekday name, and reading [total] of the missing
    statistics raises a TypeError: [None]. *)
Definition addDay (acc : option DayStats) (m : MoodEntry) : option DayStats :=
  match acc with
  | None => None
  | Some stats =>
      match getDay (Date_parse (date m)) with
      | None => None
      | Some k =>
          match at_index WEEKDAYS k with
          | None => None
          | Some day =>
              match prop stats day with
              | None => None
              | Some (total, count) =>
                  Some (setProp stats day (total + moodValue (emoji m), count + 1))
              end
          end
      end
  end.

(** The state of the search for the best and the worst day. *)
Record Extremes : Type := mkExtremes {
  bestDay : option string;
  worstDay : option string;
  bestAvg : Q;
  worstAvg : Q
}.

Definition average (total count : Z) : Q := Qmake total (Z.to_pos count).

Definition Qgtb (a b : Q) : bool := negb (Qle_bool a b).

Definition visitDay (x : Extremes) (kv : string * (Z * Z)) : Extremes :=
  let '(day, (total, count)) := kv in
  if 2 <=? count then
    let avg := average total count in
    let x1 := if Qgtb avg (bestAvg x)
              then mkExtremes (Some day) (worstDay x) avg (worstAvg x)
              else x in
    if Qgtb (worstAvg x1) avg
    then mkExtremes (bestDay x1) (Some day) (bestAvg x1) avg
    else x1
  else x.

Definition extremes (stats : DayStats) : Extremes :=
  fold_left visitDay (Object_entries stats) (mkExtremes None None 0%Q 5%Q).

(** [worstDay && worstDay !== bestDay] *)
Definition differs (w b : option string) : bool :=
  match w, b with
  | Some x, Some y => negb (String.eqb x y)
  | Some _, None => true
  | None, _ => false
  end.

Definition byCountDesc (a b : string * Z) : option Z := Some (snd b - snd a).

(** [getCurrentStreakDays(moods)] *)
Fixpoint streakDaysLoop (expectedDate : Date) (streak : Z)
    (rest : list MoodEntry) : Z :=
  match rest with
  | [] => streak
  | m :: rest' =>
      let expectedDate1 := setDatePrev expectedDate in
      let currentDate := setHours0 (Date_parse (date m)) in
      let expectedDate2 := setHours0 expectedDate1 in
      if sameTime currentDate expectedDate2
      then streakDaysLoop expectedDate2 (streak + 1) rest'
      else streak
  end.

Definition getCurrentStreakDays (now : Z) (moods : list MoodEntry) : Z :=
  match sort byDateDesc moods with
  | [] => 0
  | latest :: rest =>
      let today := setHours0 (Some now) in
      let yesterday := setDatePrev today in
      let latestDate := setHours0 (Date_parse (date latest)) in
      if before latestDate yesterday then 0
      else streakDaysLoop (Date_parse (date latest)) 1 rest
  end.

Definition generateWeeklyInsights (now : Z) (st : Store)
  : Completion (list Insight) :=
  let moods := getAllMoods st in
  if Z.of_nat (List.length moods) <? 7 then Return []
  else
    match fold_left addDay moods (Some dayStats0) with
    | None => Throw "TypeError"
    | Some stats =>
        let x := extremes stats in
        let insights1 :=
          match bestDay x with Some day => [Happiest day] | None => [] end in
        let insights2 :=
          match worstDay x with
          | Some day =>
              if differs (worstDay x) (bestDay x) then [Tougher day] else []
          | None => []
          end in
        let insights3 :=
          match sort byCountDesc (Object_entries (tally moods)) with
          | (e, c) :: _ => [MostFrequent e c (Z.of_nat (List.length moods))]
          | [] => []
          end in
        let streak := getCurrentStreakDays now moods in
        let insights4 := if 7 <=? streak then [StreakNote streak] else [] in
        Return (insights1 ++ insights2 ++ insights3 ++ insights4)
    end.

(** *** features.js: CSV import *)

(** The scan of [parseCSVLine]; the state is [(values, current, inQuotes)],
    [values] in reverse. *)
Definition csvStep (acc : list string * string * bool) (char : ascii)
  : list string * string * bool :=
  let '(values, current, inQuotes) := acc in
  if Ascii.eqb char quote then (values, current, negb inQuotes)
  else if Ascii.eqb char comma && negb inQuotes
       then (trim current :: values, EmptyString, inQuotes)
       else (values, (current ++ String char EmptyString)%string, inQuotes).

Definition parseCSVLine (line : string) : list string :=
  let '(values, current, _) :=
    fold_left csvStep (list_ascii_of_string line) ([], EmptyString, false) in
  rev (trim current :: values).

Definition isValidDate (dateStr : string) : bool :=
  match Date_parse dateStr with Some _ => true | None => false end.

(** A value used as a condition: [undefined] and the empty string fail. *)
Definition truthy (v : option string) : bool :=
  match v with
  | Some s => negb (String.eqb s EmptyString)
  | None => false
  end.

Definition orEmpty (v : option string) : string :=
  match v with Some s => s | None => EmptyString end.

(** One round of the loop over the data lines; the state is
    [(imported, store)]. *)
Definition importLine (now : Z) (dateIndex emojiIndex noteIndex : Z)
    (acc : Z * Store) (rawLine : string) : Z * Store :=
  let '(imported, st) := acc in
  let line := trim rawLine in
  if String.eqb line EmptyString then acc
  else
    let values := parseCSVLine line in
    let d := at_index values dateIndex in
    let e := at_index values emojiIndex in
    let n := if 0 <=? noteIndex then orEmpty (at_index values noteIndex)
             else EmptyString in
    if truthy d && truthy e && isValidDate (orEmpty d)
    then (imported + 1,
          fst (saveMood now (orEmpty d) (orEmpty e) (stripQuotes n) None st))
    else acc.

(** The result is how the call ends and the stored array afterwards; the
    saves of one import all read the clock at [now]. *)
Definition importFromCSV (now : Z) (csvContent : string) (st : Store)
  : Completion Z * Store :=
  let lines := split LF (trim csvContent) in
  if Z.of_nat (List.length lines) <? 2
  then (Throw "CSV file is empty or has no data rows", st)
  else
    let header := toLowerCase (hd EmptyString lines) in
    if negb (includes header "date") || negb (includes header "emoji")
    then (Throw "CSV must have Date and Emoji columns", st)
    else
      let headers := map trim (split comma header) in
      let dateIndex := indexOf headers "date" in
      let emojiIndex := indexOf headers "emoji" in
      let noteIndex := indexOf headers "note" in
      let '(imported, st') :=
        fold_left (importLine now dateIndex emojiIndex noteIndex)
                  (tl lines) (0, st) in
      (Return imported, st').

(** ** Vocabulary of the properties *)

(** The store keeps at most one entry per date. *)
Definition uniqueDates (st : Store) : Prop := NoDup (map date st).

(** The tags of every entry are free of repetitions. *)
Definition distinctTags (st : Store) : Prop :=
  Forall (fun m => NoDup (tags m)) st.

(** [a] is dated no earlier than [b]; both dates are valid. *)
Definition notEarlier (a b : MoodEntry) : Prop :=
  exists ta tb,
    Date_parse (date a) = Some ta /\ Date_parse (date b) = Some tb /\ tb <= ta.

(** Most recent first: every entry is dated no earlier than the entries
    that follow it. *)
Definition sortedByDateDesc (st : Store) : Prop := StronglySorted notEarlier st.

(** The operations that write the store. *)
Inductive Op : Type :=
| Save (now : Z) (d e n : string) (tagsArg : option (list string))
| Delete (d : string)
| Import (now : Z) (csvContent : string)
| AddTag (now : Z) (d tag : string)
| RemoveTag (now : Z) (d tag : string)
| Clear.

Definition step (st : Store) (op : Op) : Store :=
  match op with
  | Save now d e n tagsArg => fst (saveMood now d e n tagsArg st)
  | Delete d => deleteMood d st
  | Import now csvContent => snd (importFromCSV now csvContent st)
  | AddTag now d tag => fst (addTagToMood now d tag st)
  | RemoveTag now d tag => fst (removeTagFromMood now d tag st)
  | Clear => clearAll st
  end.

(** The store after a sequence of operations, the first one first. *)
Definition run (ops : list Op) (st : Store) : Store := fold_left step ops st.

(** A save names a date the engine reads as a date. *)
Definition datedOp (op : Op) : Prop :=
  match op with
  | Save _ d _ _ _ => isValidDate d = true
  | _ => True
  end.

(** A save that passes tags passes them without repetition. *)
Definition cleanTagsOp (op : Op) : Prop :=
  match op with
  | Save _ _ _ _ (Some t) => NoDup t
  | _ => True
  end.

(** An entry whose date the engine reads as a date. *)
Definition dated (m : MoodEntry) : Prop := isValidDate (date m) = true.

(** The day number of a date written [YYYY-MM-DD]. *)
Definition calendarDay (s : string) : option Z :=
  match isoDate s with
  | Some (y, m, d) => Some (daysFromCivil y m d)
  | None => None
  end.

Definition onCalendar (m : MoodEntry) : Prop := calendarDay (date m) <> None.

(** Some entry of [moods] is dated day [k]. *)
Definition hasEntryOn (moods : list MoodEntry) (k : Z) : Prop :=
  exists m, In m moods /\ calendarDay (date m) = Some k.

(** The [n] days from day [k] on all have an entry. *)
Definition daysInARow (moods : list MoodEntry) (k n : Z) : Prop :=
  forall j, 0 <= j < n -> hasEntryOn moods (k + j).

Definition dayOf (m : MoodEntry) : Z :=
  match calendarDay (date m) with Some k => k | None => 0 end.

(** An entry as the mood picker saves it on the date [d]: no note, no tag. *)
Definition entryOn (d : string) : MoodEntry := mkMood d "😊" EmptyString [] 0.

(** How many of [moods] carry the emoji [e]. *)
Definition occurrences (e : string) (moods : list MoodEntry) : Z :=
  Z.of_nat (List.length (filter (fun m => String.eqb (emoji m) e) moods)).

(** In the sequence [l], [e] is met before [e'] is: some place holds [e]
    and nothing before that place is [e']. *)
Definition seenBefore (e e' : string) (l : list string) : Prop :=
  exists l1 l2, l = l1 ++ e :: l2 /\ ~ In e' l1.

(** The entries of [moods] dated in the month [month], January being [0],
    of the year [year]. *)
Definition entriesOfMonth (moods : list MoodEntry) (year month : Z)
  : list MoodEntry :=
  filter (fun m => match isoDate (date m) with
                   | Some (y, mo, _) => (y =? year) && (mo - 1 =? month)
                   | None => false
                   end) moods.

(** The weekday name of the date of an entry; day [0] of the calendar,
    1970-01-01, was a Thursday. *)
Definition weekdayOfDate (m : MoodEntry) : option string :=
  match calendarDay (date m) with
  | Some k => at_index WEEKDAYS ((k + 4) mod 7)
  | None => None
  end.

(** The entries of a weekday, their number, the sum and the mean of their
    mood values, the weekday being that of the date of an entry. *)
Definition datedOn (day : string) (m : MoodEntry) : bool :=
  match weekdayOfDate m with Some d => String.eqb d day | None => false end.

Definition countOfDay (day : string) (moods : list MoodEntry) : Z :=
  Z.of_nat (List.length (filter (datedOn day) moods)).

Definition totalOfDay (day : string) (moods : list MoodEntry) : Z :=
  fold_right (fun m acc => moodValue (emoji m) + acc) 0
             (filter (datedOn day) moods).

Definition averageOfDay (day : string) (moods : list MoodEntry) : Q :=
  average (totalOfDay day moods) (countOfDay day moods).

(** A weekday on which at least two entries are dated. *)
Definition candidate (day : string) (moods : list MoodEntry) : Prop :=
  In day WEEKDAYS /\ 2 <= countOfDay day moods.

(** The weekday name [generateWeeklyInsights] files an entry under. *)
Definition weekdayOf (m : MoodEntry) : option string :=
  match getDay (Date_parse (date m)) with
  | Some k => at_index WEEKDAYS k
  | None => None
  end.

Definition fallsOn (day : string) (m : MoodEntry) : bool :=
  match weekdayOf m with Some d => String.eqb d day | None => false end.

Definition countOn (day : string) (moods : list MoodEntry) : Z :=
  Z.of_nat (List.length (filter (fallsOn day) moods)).

Definition totalOn (day : string) (moods : list MoodEntry) : Z :=
  fold_right (fun m acc => moodValue (emoji m) + acc) 0
             (filter (fallsOn day) moods).

(** The mean mood value of the entries on a weekday. *)
Definition averageOn (day : string) (moods : list MoodEntry) : Q :=
  average (totalOn day moods) (countOn day moods).

(** A weekday with at least two entries. *)
Definition eligible (day : string) (moods : list MoodEntry) : Prop :=
  In day WEEKDAYS /\ 2 <= countOn day moods.

(** A data line that [importFromCSV] imports: it is not blank, its date
    and emoji fields are present and not empty, and the engine reads the
    date as a date. *)
Definition acceptedRow (dateIndex emojiIndex : Z) (rawLine : string) : bool :=
  let values := parseCSVLine (trim rawLine) in
  negb (String.eqb (trim rawLine) EmptyString)
  && truthy (at_index values dateIndex)
  && truthy (at_index values emojiIndex)
  && isValidDate (orEmpty (at_index values dateIndex)).

(** The save an imported line makes. *)
Definition saveRow (now : Z) (dateIndex emojiIndex noteIndex : Z) (st : Store)
    (rawLine : string) : Store :=
  let values := parseCSVLine (trim rawLine) in
  let n := if 0 <=? noteIndex then orEmpty (at_index values noteIndex)
           else EmptyString in
  fst (saveMood now (orEmpty (at_index values dateIndex))
                (orEmpty (at_index values emojiIndex)) (stripQuotes n) None st).

(** An entry the CSV format carries unharmed: a calendar date; an emoji
    that is not empty, has no white space around it and holds no comma,
    double quote or line feed; a note with no white space around it and
    without double quote or line feed. *)
Definition plainEntry (m : MoodEntry) : Prop :=
  onCalendar m
  /\ emoji m <> EmptyString /\ trim (emoji m) = emoji m
  /\ trim (note m) = note m
  /\ ~ In comma (list_ascii_of_string (emoji m))
  /\ ~ In quote (list_ascii_of_string (emoji m))
  /\ ~ In LF (list_ascii_of_string (emoji m))
  /\ ~ In quote (list_ascii_of_string (note m))
  /\ ~ In LF (list_ascii_of_string (note m)).

(** *** Notions of the proofs *)

(** The character of a decimal digit. *)
Definition digitChar (v : Z) : ascii := ascii_of_nat (Z.to_nat (v + 48)).

(** The state every operation keeps: all dates valid, most recent first. *)
Definition ordered (st : Store) : Prop := Forall dated st /\ sortedByDateDesc st.

(** Oldest day first. *)
Definition ascending (l : list MoodEntry) : Prop :=
  StronglySorted (fun a b => dayOf a <= dayOf b) l.

(** Both keys are array indices, the first no larger than the second. *)
Definition indexNotAbove {V : Type} (a b : string * V) : Prop :=
  exists i j, arrayIndex (fst a) = Some i /\ arrayIndex (fst b) = Some j /\ i <= j.

(** The average of an entry of [dayStats], and what makes it count. *)
Definition dayAverage (kv : string * (Z * Z)) : Q :=
  average (fst (snd kv)) (snd (snd kv)).

Definition counted (kv : string * (Z * Z)) : Prop := 2 <= snd (snd kv).

(** What the search knows after the weekdays [seen]: the averages that
    count lie between the worst and the best, the best and the worst day are
    weekdays seen, with those averages, and the best average is [0] for as
    long as no day is best. *)
Record Searched (seen : DayStats) (x : Extremes) : Prop := mkSearched {
  within : forall kv, In kv seen -> counted kv ->
                      (dayAverage kv <= bestAvg x)%Q /\ (worstAvg x <= dayAverage kv)%Q;
  best_seen : forall d, bestDay x = Some d ->
                        exists kv, In kv seen /\ fst kv = d /\ counted kv
                                   /\ bestAvg x = dayAverage kv;
  worst_seen : forall d, worstDay x = Some d ->
                         exists kv, In kv seen /\ fst kv = d /\ counted kv
                                    /\ worstAvg x = dayAverage kv;
  best_unset : bestDay x = None -> bestAvg x = 0%Q
}.

(** [expectedDate] stands for day [k]: it is the UTC midnight the first
    entry was parsed to, or a local midnight set by the loop. *)
Definition expects (e : Date) (k : Z) : Prop :=
  e = Some (msPerDay * k) \/ e = Some (msPerDay * k - LocalTZA).

(** Most recent day first, no day twice. *)
Definition descending (l : list MoodEntry) : Prop :=
  StronglySorted (fun a b => dayOf b < dayOf a) l.

(** An ASCII character that is not white space. *)
Definition clean (c : ascii) : Prop := ws1 c = false /\ code c < 128.

(** The text of a row of the export, field by field. *)
Definition rowText (d e n : string) : string :=
  (d ++ String comma (e ++ String comma
     (String quote (n ++ String quote EmptyString))))%string.

(** The row of an entry whose note holds no double quote. *)
Definition rowOf (m : MoodEntry) : string := rowText (date m) (emoji m) (note m).

(** The store after saving the entries of [l] one after the other. *)
Definition saveAll (now : Z) (l : list MoodEntry) (st : Store) : Store :=
  fold_left (fun s m => fst (saveMood now (date m) (emoji m) (note m) None s))
            l st.


(** ** Further computations of the program *)

(** *** Numbers and dates as text *)

(** The decimal numeral of [n >= 0]; [fuel] bounds the number of
    digits. *)
Fixpoint numeralOf (fuel : nat) (n : Z) : string :=
  match fuel with
  | O => EmptyString
  | S fuel' =>
      if n <? 10 then String (digitChar n) EmptyString
      else (numeralOf fuel' (n / 10)
            ++ String (digitChar (n mod 10)) EmptyString)%string
  end.

(** [String(n)] for an integer [n]; a numeral has no more decimal digits
    than binary ones. *)
Definition Number_toString (n : Z) : string :=
  if n <? 0 then String "-" (numeralOf (S (Z.to_nat (Z.log2 (- n)))) (- n))
  else numeralOf (S (Z.to_nat (Z.log2 n))) n.

(** [String.prototype.padStart] with a filler of one character *)
Definition padStart (width : nat) (filler : ascii) (s : string) : string :=
  (string_of_list_ascii (repeat filler (width - String.length s)) ++ s)%string.

Definition pad (width : nat) (n : Z) : string :=
  padStart width "0" (Number_toString n).

(** The year of the Date Time String Format: four digits from 0 to 9999,
    a sign and six digits otherwise. *)
Definition yearText (y : Z) : string :=
  if (0 <=? y) && (y <=? 9999) then pad 4 y
  else String (if y <? 0 then "-"%char else "+"%char) (pad 6 (Z.abs y)).

(** [Date.prototype.toISOString] of the valid time value [t] *)
Definition toISOString (t : Z) : string :=
  let '(y, m, d) := civilFromDays (Day t) in
  let ms := t mod msPerDay in
  (yearText y ++ "-" ++ pad 2 m ++ "-" ++ pad 2 d ++ "T"
   ++ pad 2 (ms / 3600000) ++ ":" ++ pad 2 (ms / 60000 mod 60) ++ ":"
   ++ pad 2 (ms / 1000 mod 60) ++ "." ++ pad 3 (ms mod 1000) ++ "Z")%string.

(** [d.toISOString().split('T')[0]]: the date the page opens on (app.js),
    [formatDate] of demo.js, the dates of [getTrendData] and of the
    reminder. *)
Definition isoDateOf (t : Z) : string :=
  hd EmptyString (split "T" (toISOString t)).

(** *** [Date], continued *)

Definition TimeClip (t : Z) : Date :=
  if Z.abs t <=? 8640000000000000 then Some t else None.

(** [new Date(year, month, day)]: local midnight of the day [day] of the
    month [month] (January is [0]), both possibly out of range; a year from
    0 to 99 stands for 1900 to 1999. *)
Definition Date_local (year month day : Z) : Date :=
  let yr := if (0 <=? year) && (year <=? 99) then 1900 + year else year in
  TimeClip (MakeDay (yr + month / 12) (month mod 12 + 1) day * msPerDay
            - LocalTZA).

Definition getDate (d : Date) : option Z :=
  option_map (fun t => snd (civilFromDays (Day (t + LocalTZA)))) d.

Definition getHours (d : Date) : option Z :=
  option_map (fun t => (t + LocalTZA) mod msPerDay / 3600000) d.

(** *** storage.js and stats.js, continued *)

Definition getTotalEntries (st : Store) : Z :=
  Z.of_nat (List.length (getAllMoods st)).





(** *** features.js: tag statistics *)

Record TagCount : Type := mkTagCount {
  tagName : string;
  tagCount : Z
}.

Definition tagCounts (moods : list MoodEntry) : list (string * Z) :=
  fold_left (fun counts m => fold_left bump (tags m) counts) moods [].

Definition getAllTags (st : Store) : list TagCount :=
  map (fun kv => mkTagCount (fst kv) (snd kv))
      (sort byCountDesc (Object_entries (tagCounts (getAllMoods st)))).


(** *** features.js: mood patterns *)








(** *** features.js: year in review *)






(** *** features.js: the daily reminder *)

Definition shouldSendReminder (now : Z) (st : Store) : bool :=
  match getHours (Some now) with
  | Some hour =>
      if (20 <=? hour) && (hour <? 21) then
        match getMood st (isoDateOf now) with
        | Some _ => false
        | None => true
        end
      else false
  | None => false
  end.

(** *** features.js: custom emojis

    The array kept under [CUSTOM_EMOJIS_KEY] is the state; a function that
    writes it returns the new array beside its result. *)

Definition DEFAULT_EMOJIS : list string :=
  ["üòä"; "üò¢"; "üò†"; "üò¥";
   "üòç"; "üò∞"; "üòê"].

Definition getCustomEmojis (custom : list string) : list string := custom.

Definition getAllEmojis (custom : list string) : list string :=
  DEFAULT_EMOJIS ++ getCustomEmojis custom.

Definition addCustomEmoji (e : string) (custom0 : list string)
  : list string * list string :=
  let custom := getCustomEmojis custom0 in
  let custom' :=
    if negb (existsb (String.eqb e) custom)
       && negb (existsb (String.eqb e) DEFAULT_EMOJIS)
    then custom ++ [e] else custom0 in
  (custom', getAllEmojis custom').

Definition removeCustomEmoji (e : string) (custom0 : list string)
  : list string * list string :=
  let custom :=
    filter (fun x => negb (String.eqb x e)) (getCustomEmojis custom0) in
  (custom, getAllEmojis custom).

(** *** calendar.js *)

(** [navigateMonth(delta)] on the state [(currentYear, currentMonth)] *)
Definition navigateMonth (delta : Z) (current : Z * Z) : Z * Z :=
  let '(currentYear, currentMonth) := current in
  let currentMonth1 := currentMonth + delta in
  if currentMonth1 <? 0 then (currentYear - 1, 11)
  else if 11 <? currentMonth1 then (currentYear + 1, 0)
  else (currentYear, currentMonth1).

Definition getDaysInMonth (year month : Z) : option Z :=
  getDate (Date_local year (month + 1) 0).

Definition getFirstDayOfMonth (year month : Z) : option Z :=
  getDay (Date_local year month 1).

Definition formatDate (year month day : Z) : string :=
  (Number_toString year ++ "-" ++ pad 2 (month + 1) ++ "-" ++ pad 2 day)%string.

(** [new Map(moods.map(m => [m.date, m])).get(d)]: a later entry of the
    same date replaces an earlier one. *)
Definition Map_get (moods : list MoodEntry) (d : string) : option MoodEntry :=
  find (fun m => String.eqb (date m) d) (rev moods).

(** What [renderCalendar] draws in the cell of the day [day]: the date the
    cell carries and the entry it shows, if any. *)
Definition dayCell (st : Store) (year month day : Z)
  : string * option MoodEntry :=
  let moods := getMoodsForMonth st year month in
  let dateStr := formatDate year month day in
  (dateStr, Map_get moods dateStr).

(** ** Vocabulary of the further properties *)

(** The names every plain object inherits from [Object.prototype]; as
    keys of a tally they would read the inherited member, not a count. *)
Definition inheritedKeys : list string :=
  ["constructor"; "hasOwnProperty"; "isPrototypeOf"; "propertyIsEnumerable";
   "toLocaleString"; "toString"; "valueOf"; "__proto__";
   "__defineGetter__"; "__defineSetter__"; "__lookupGetter__";
   "__lookupSetter__"].

Definition ownKey (k : string) : Prop := ~ In k inheritedKeys.

(** How many times [x] stands in [l]. *)
Definition uses (x : string) (l : list string) : Z :=
  Z.of_nat (List.length (filter (fun y => String.eqb y x) l)).

(** How many times the entries of [moods] carry the tag [t]. *)
Definition tagUses (t : string) (moods : list MoodEntry) : Z :=
  uses t (flat_map tags moods).

(** The day numbers of the years 0 to 9999, whose dates are written with a
    year of four digits. *)
Definition fourDigitYear (k : Z) : Prop :=
  daysFromCivil 0 1 1 <= k <= daysFromCivil 9999 12 31.

(** The date half of [toISOString] for a year of four digits. *)
Definition dateText (y m d : Z) : string :=
  (pad 4 y ++ "-" ++ pad 2 m ++ "-" ++ pad 2 d)%string.



(** The operations on the custom emojis. *)
Inductive EmojiOp : Type :=
| AddEmoji (e : string)
| RemoveEmoji (e : string).

Definition emojiStep (custom : list string) (op : EmojiOp) : list string :=
  match op with
  | AddEmoji e => fst (addCustomEmoji e custom)
  | RemoveEmoji e => fst (removeCustomEmoji e custom)
  end.
(** ** The calendar *)

Ltac calc t := let v := eval vm_compute in t in change t with v.

Ltac settle :=
  repeat match goal with
         | |- context [nth ?n ?l 0] => calc (nth n l 0)
         | |- context [Z.leb (Zpos ?a) (Zpos ?b)] => calc (Z.leb (Zpos a) (Zpos b))
         | |- context [Z.ltb (Zpos ?a) (Zpos ?b)] => calc (Z.ltb (Zpos a) (Zpos b))
         end;
  cbv iota; cbn [andb]; cbv iota.

Ltac closed_div :=
  repeat match goal with
         | |- context [(Zpos ?a * (Zpos ?b + Zpos ?c) + Zpos ?e) / Zpos ?f] =>
             calc ((Zpos a * (Zpos b + Zpos c) + Zpos e) / Zpos f)
         | |- context [(Zpos ?a * (Zpos ?b - Zpos ?c) + Zpos ?e) / Zpos ?f] =>
             calc ((Zpos a * (Zpos b - Zpos c) + Zpos e) / Zpos f)
         | |- context [(Zpos ?a * Zpos ?b + Zpos ?e) / Zpos ?f] =>
             calc ((Zpos a * Zpos b + Zpos e) / Zpos f)
         | |- context [(Zpos ?a * 0 + Zpos ?e) / Zpos ?f] =>
             calc ((Zpos a * 0 + Zpos e) / Zpos f)
         end.

Lemma isLeap_spec (y : Z) :
  isLeap y = true <-> (y mod 4 = 0 /\ y mod 100 <> 0) \/ y mod 400 = 0.
Proof.
  unfold isLeap.
  rewrite orb_true_iff, andb_true_iff, negb_true_iff, !Z.eqb_eq, Z.eqb_neq.
  tauto.
Qed.

Lemma twelve_months (m : Z) :
  1 <= m <= 12 ->
  m = 1 \/ m = 2 \/ m = 3 \/ m = 4 \/ m = 5 \/ m = 6 \/ m = 7 \/ m = 8
  \/ m = 9 \/ m = 10 \/ m = 11 \/ m = 12.
Proof. lia. Qed.

(** [daysFromCivil] is ECMAScript's [MakeDay]. *)
Lemma daysFromCivil_MakeDay (y m d : Z) :
  1 <= m <= 12 -> daysFromCivil y m d = MakeDay y m d.
Proof.
  intros Hm. pose proof (isLeap_spec y) as HL.
  unfold daysFromCivil, MakeDay, DayFromYear, daysBeforeMonth.
  destruct (isLeap y).
  - assert (H : (y mod 4 = 0 /\ y mod 100 <> 0) \/ y mod 400 = 0)
      by (apply HL; reflexivity).
    clear HL.
    destruct (twelve_months m Hm)
      as [-> | [-> | [-> | [-> | [-> | [-> | [-> | [-> | [-> | [-> | [-> | ->]]]]]]]]]]];
      settle; (Z.div_mod_to_equations; lia).
  - assert (H : ~ ((y mod 4 = 0 /\ y mod 100 <> 0) \/ y mod 400 = 0))
      by (intros H; apply HL in H; discriminate).
    clear HL.
    destruct (twelve_months m Hm)
      as [-> | [-> | [-> | [-> | [-> | [-> | [-> | [-> | [-> | [-> | [-> | ->]]]]]]]]]]];
      settle; (Z.div_mod_to_equations; lia).
Qed.

(** Within an era of 400 years that starts in March: the year of the era
    and the day of that year. *)
Lemma civilFromDays_era (era yoe doy : Z) :
  0 <= yoe < 400 -> 0 <= doy <= 365 ->
  (doy = 365 -> (yoe mod 4 = 3 /\ yoe mod 100 <> 99) \/ yoe = 399) ->
  civilFromDays (era * 146097 + (yoe * 365 + yoe / 4 - yoe / 100 + doy) - 719468)
  = let mp := (5 * doy + 2) / 153 in
    let m := if mp <? 10 then mp + 3 else mp - 9 in
    (if m <=? 2 then yoe + era * 400 + 1 else yoe + era * 400,
     m, doy - (153 * mp + 2) / 5 + 1).
Proof.
  intros Hyoe Hdoy Hleap. unfold civilFromDays.
  set (doe := yoe * 365 + yoe / 4 - yoe / 100 + doy).
  replace (era * 146097 + doe - 719468 + 719468) with (doe + era * 146097) by ring.
  assert (Hdoe : 0 <= doe < 146097) by (unfold doe; Z.div_mod_to_equations; lia).
  rewrite Z.div_add by lia. rewrite (Z.div_small doe) by lia.
  replace (doe + era * 146097 - (0 + era) * 146097) with doe by ring.
  assert (Hy : (doe - doe / 1460 + doe / 36524 - doe / 146096) / 365 = yoe)
    by (unfold doe; Z.div_mod_to_equations; lia).
  rewrite Hy.
  replace (doe - (365 * yoe + yoe / 4 - yoe / 100)) with doy by (unfold doe; ring).
  cbv zeta. replace (yoe + (0 + era) * 400) with (yoe + era * 400) by ring.
  reflexivity.
Qed.

Ltac month d :=
  settle; closed_div;
  rewrite civilFromDays_era;
  [ cbv zeta;
    match goal with
    | |- context [(5 * (?K + d - 1) + 2) / 153] =>
        let v := eval vm_compute in ((5 * K + 2) / 153) in
        let E := fresh "E" in
        assert (E : (5 * (K + d - 1) + 2) / 153 = v)
          by (Z.div_mod_to_equations; lia);
        rewrite !E
    end;
    settle; closed_div;
    repeat match goal with
           | |- context [Z.ltb ?a (Zpos ?b)] => calc (Z.ltb a (Zpos b))
           | |- context [Z.leb ?a (Zpos ?b)] => calc (Z.leb a (Zpos b))
           end;
    cbv iota; f_equal; [f_equal|]; lia
  | Z.div_mod_to_equations; lia
  | lia
  | intros; Z.div_mod_to_equations; lia ].

(** [civilFromDays] recovers a date of the calendar from its day number. *)
Lemma civilFromDays_inverse (y m d : Z) :
  1 <= m <= 12 -> 1 <= d <= daysInMonth y m ->
  civilFromDays (daysFromCivil y m d) = (y, m, d).
Proof.
  intros Hm Hd. pose proof (isLeap_spec y) as HL.
  unfold daysInMonth in Hd.
  assert (Hd' : d <= 31 /\ (m = 4 \/ m = 6 \/ m = 9 \/ m = 11 -> d <= 30)
                /\ (m = 2 -> d <= 29)
                /\ (m = 2 -> d = 29 ->
                    (y mod 4 = 0 /\ y mod 100 <> 0) \/ y mod 400 = 0)).
  { destruct (m =? 2) eqn:E2.
    - apply Z.eqb_eq in E2. destruct (isLeap y).
      + split; [lia|]. split; [lia|]. split; [lia|]. intros _ _. now apply HL.
      + split; [lia|]. split; [lia|]. split; lia.
    - apply Z.eqb_neq in E2.
      destruct ((m =? 4) || (m =? 6) || (m =? 9) || (m =? 11)) eqn:E.
      + split; [lia|]. split; [lia|]. split; lia.
      + rewrite !orb_false_iff, !Z.eqb_neq in E.
        split; [lia|]. split; [lia|]. split; lia. }
  destruct Hd as [Hd1 _]. clear HL. destruct Hd' as (H31 & H30 & H29 & Hleap).
  unfold daysFromCivil.
  destruct (twelve_months m Hm)
    as [-> | [-> | [-> | [-> | [-> | [-> | [-> | [-> | [-> | [-> | [-> | ->]]]]]]]]]]];
    month d.
Qed.

Lemma digit_char (c : ascii) (v : Z) :
  digit c = Some v -> c = digitChar v /\ 0 <= v <= 9.
Proof.
  unfold digit, digitChar.
  destruct ((48 <=? code c) && (code c <=? 57)) eqn:E; [|discriminate].
  intros [= <-]. apply andb_true_iff in E as [E1 E2].
  apply Z.leb_le in E1, E2. split; [|lia].
  replace (code c - 48 + 48) with (code c) by ring.
  unfold code. now rewrite Nat2Z.id, ascii_nat_embedding.
Qed.

(** What a string read as a calendar date looks like. *)
Lemma isoDate_chars (s : string) (y m d : Z) :
  isoDate s = Some (y, m, d) ->
  exists a b c e f g h i,
    list_ascii_of_string s
    = [digitChar a; digitChar b; digitChar c; digitChar e; "-"%char;
       digitChar f; digitChar g; "-"%char; digitChar h; digitChar i]
    /\ (0 <= a <= 9 /\ 0 <= b <= 9 /\ 0 <= c <= 9 /\ 0 <= e <= 9)
    /\ (0 <= f <= 9 /\ 0 <= g <= 9 /\ 0 <= h <= 9 /\ 0 <= i <= 9)
    /\ y = 1000 * a + 100 * b + 10 * c + e /\ m = 10 * f + g /\ d = 10 * h + i
    /\ 1 <= m <= 12 /\ 1 <= d <= daysInMonth y m.
Proof.
  unfold isoDate.
  destruct (list_ascii_of_string s)
    as [|y1 [|y2 [|y3 [|y4 [|h1 [|m1 [|m2 [|h2 [|d1 [|d2 [|x l]]]]]]]]]]];
    try discriminate.
  destruct (Ascii.eqb h1 "-"%char && Ascii.eqb h2 "-"%char) eqn:Hy;
    [|discriminate].
  apply andb_true_iff in Hy as [H1 H2].
  apply Ascii.eqb_eq in H1, H2. subst h1 h2.
  destruct (digit y1) as [a|] eqn:D1; [|discriminate].
  destruct (digit y2) as [b|] eqn:D2; [|discriminate].
  destruct (digit y3) as [c|] eqn:D3; [|discriminate].
  destruct (digit y4) as [e|] eqn:D4; [|discriminate].
  destruct (digit m1) as [f|] eqn:D5; [|discriminate].
  destruct (digit m2) as [g|] eqn:D6; [|discriminate].
  destruct (digit d1) as [h|] eqn:D7; [|discriminate].
  destruct (digit d2) as [i|] eqn:D8; [|discriminate].
  destruct (_ && _) eqn:V; [|discriminate].
  intros [= <- <- <-].
  apply digit_char in D1 as [-> ?], D2 as [-> ?], D3 as [-> ?], D4 as [-> ?],
                      D5 as [-> ?], D6 as [-> ?], D7 as [-> ?], D8 as [-> ?].
  rewrite !andb_true_iff, !Z.leb_le in V.
  exists a, b, c, e, f, g, h, i. repeat split; try tauto; lia.
Qed.

(** Two strings that are read as the same calendar day are the same. *)
Lemma calendarDay_inj (s s' : string) (k : Z) :
  calendarDay s = Some k -> calendarDay s' = Some k -> s = s'.
Proof.
  unfold calendarDay.
  destruct (isoDate s) as [[[y m] d]|] eqn:E; [|discriminate].
  destruct (isoDate s') as [[[y' m'] d']|] eqn:E'; [|discriminate].
  intros [= <-] [= Hk].
  apply isoDate_chars in E
    as (a & b & c & e & f & g & h & i & Hs & Ha & Hf & -> & -> & -> & Hm & Hd).
  apply isoDate_chars in E'
    as (a' & b' & c' & e' & f' & g' & h' & i' & Hs' & Ha' & Hf' & -> & -> & ->
        & Hm' & Hd').
  apply (f_equal civilFromDays) in Hk.
  rewrite !civilFromDays_inverse in Hk by assumption.
  pose proof (f_equal (fun t => fst (fst t)) Hk) as Hy.
  pose proof (f_equal (fun t => snd (fst t)) Hk) as Hmm.
  pose proof (f_equal snd Hk) as Hdd.
  cbn [fst snd] in Hy, Hmm, Hdd.
  assert (a = a' /\ b = b' /\ c = c' /\ e = e' /\ f = f' /\ g = g'
          /\ h = h' /\ i = i') as (-> & -> & -> & -> & -> & -> & -> & ->) by lia.
  rewrite <- (string_of_list_ascii_of_string s).
  rewrite <- (string_of_list_ascii_of_string s'). congruence.
Qed.

(** One entry per date is, on calendar dates, one entry per day. *)
Lemma uniqueDates_days (st : Store) :
  Forall onCalendar st -> uniqueDates st -> NoDup (map dayOf st).
Proof.
  unfold uniqueDates. induction st as [|m st IH]; intros Hcal Hu; simpl.
  - constructor.
  - inversion Hcal as [|? ? Hm Hcal']; subst.
    inversion Hu as [|? ? Hnot Hu']; subst.
    constructor; [|now apply IH].
    rewrite in_map_iff. intros (x & Hx & Hin). apply Hnot.
    rewrite Forall_forall in Hcal'. specialize (Hcal' x Hin).
    unfold onCalendar, dayOf in *.
    destruct (calendarDay (date m)) as [k|] eqn:Em; [|contradiction].
    destruct (calendarDay (date x)) as [k'|] eqn:Ex; [|contradiction].
    subst k'. rewrite (calendarDay_inj _ _ _ Em Ex). now apply in_map.
Qed.

(** ** Arrays: sorting and searching *)

Lemma insert_perm {A : Type} (cmp : A -> A -> option Z) (x : A) (l : list A) :
  Permutation (x :: l) (insert cmp x l).
Proof.
  induction l as [|y l IH]; simpl.
  - apply Permutation_refl.
  - destruct (positive (cmp x y)).
    + eapply perm_trans; [apply perm_swap|]. now apply perm_skip.
    + apply Permutation_refl.
Qed.

Lemma sort_perm {A : Type} (cmp : A -> A -> option Z) (l : list A) :
  Permutation l (sort cmp l).
Proof.
  induction l as [|x l IH]; simpl.
  - constructor.
  - eapply perm_trans; [|apply insert_perm]. now apply perm_skip.
Qed.

Section SortBy.
Context {A : Type} (cmp : A -> A -> option Z).
Context (P : A -> Prop) (R : A -> A -> Prop).
Hypothesis stays : forall x y, P x -> P y -> positive (cmp x y) = false -> R x y.
Hypothesis moves : forall x y, P x -> P y -> positive (cmp x y) = true -> R y x.
Hypothesis trans : forall x y z, P x -> P y -> P z -> R x y -> R y z -> R x z.

Lemma insert_sorted (x : A) (l : list A) :
  P x -> Forall P l -> StronglySorted R l -> StronglySorted R (insert cmp x l).
Proof.
  intros Hx Hl Hs. induction l as [|y l IH]; simpl.
  - constructor; constructor.
  - inversion Hl as [|? ? Hy Hl']; subst.
    inversion Hs as [|? ? Hs' Hall]; subst.
    destruct (positive (cmp x y)) eqn:E.
    + constructor; [now apply IH|].
      apply (Permutation_Forall (insert_perm cmp x l)).
      constructor; [now apply moves|assumption].
    + constructor; [assumption|].
      pose proof (stays x y Hx Hy E) as Hxy.
      constructor; [assumption|].
      rewrite Forall_forall in *. intros z Hz.
      apply (trans x y z); auto.
Qed.

Lemma sort_sorted (l : list A) : Forall P l -> StronglySorted R (sort cmp l).
Proof.
  induction l as [|x l IH]; intros Hl; simpl.
  - constructor.
  - inversion Hl; subst. apply insert_sorted; auto.
    apply (Permutation_Forall (sort_perm cmp l)); assumption.
Qed.

(** An array already in order is left as it is. *)
Lemma sort_fixed (l : list A) :
  Forall P l -> StronglySorted (fun x y => positive (cmp x y) = false) l ->
  sort cmp l = l.
Proof.
  induction l as [|x l IH]; intros Hl Hs; simpl; [reflexivity|].
  inversion Hl; subst. inversion Hs as [|? ? Hs' Hall]; subst.
  rewrite IH by assumption.
  destruct l as [|y l]; [reflexivity|]. simpl.
  inversion Hall; subst. now match goal with H : positive _ = false |- _ => rewrite H end.
Qed.
End SortBy.

Lemma findIndex_find {A : Type} (p : A -> bool) (l : list A) :
  match findIndex p l with Some i => nth_error l i | None => None end = find p l.
Proof.
  induction l as [|x l IH]; simpl; [reflexivity|].
  destruct (p x); [reflexivity|].
  destruct (findIndex p l); simpl; exact IH.
Qed.

(** [findIndex] finds the first match: the array splits around it. *)
Lemma findIndex_split {A : Type} (p : A -> bool) (l : list A) (i : nat) (y : A) :
  findIndex p l = Some i ->
  exists l1 x l2,
    l = l1 ++ x :: l2 /\ p x = true /\ Forall (fun z => p z = false) l1
    /\ assign l i y = l1 ++ y :: l2.
Proof.
  revert i. induction l as [|x l IH]; simpl; intros i H; [discriminate|].
  destruct (p x) eqn:E.
  - injection H as <-. exists [], x, l. repeat split; auto.
  - destruct (findIndex p l) as [j|] eqn:F; [|discriminate].
    injection H as <-.
    destruct (IH j eq_refl) as (l1 & x' & l2 & -> & Hp & Hl1 & Ha).
    exists (x :: l1), x', l2. simpl. rewrite Ha. repeat split; auto.
Qed.

Lemma findIndex_none {A : Type} (p : A -> bool) (l : list A) :
  findIndex p l = None -> Forall (fun z => p z = false) l.
Proof.
  induction l as [|x l IH]; simpl; intros H; [constructor|].
  destruct (p x) eqn:E; [discriminate|].
  destruct (findIndex p l); [discriminate|]. constructor; auto.
Qed.

Lemma filter_none {A : Type} (p : A -> bool) (l : list A) :
  Forall (fun z => p z = false) l -> filter p l = [].
Proof.
  induction 1 as [|x l Hx _ IH]; simpl; [reflexivity|]. now rewrite Hx.
Qed.

Lemma filter_all {A : Type} (p : A -> bool) (l : list A) :
  Forall (fun z => p z = true) l -> filter p l = l.
Proof.
  induction 1 as [|x l Hx _ IH]; simpl; [reflexivity|]. now rewrite Hx, IH.
Qed.

(** ** The store *)

Lemma filter_perm {A : Type} (p : A -> bool) (l l' : list A) :
  Permutation l l' -> Permutation (filter p l) (filter p l').
Proof.
  induction 1 as [|x l l' _ IH|x y l|l l' l'' _ IH1 _ IH2]; simpl.
  - constructor.
  - destruct (p x); [now apply perm_skip|assumption].
  - destruct (p x), (p y); try apply Permutation_refl. apply perm_swap.
  - eapply perm_trans; eassumption.
Qed.

Lemma getMood_Some (st : Store) (d : string) (m : MoodEntry) :
  getMood st d = Some m -> In m st /\ date m = d.
Proof.
  unfold getMood, getAllMoods. intros H.
  apply find_some in H as [Hin He]. now apply String.eqb_eq in He.
Qed.

Lemma getMood_unique (st : Store) (m : MoodEntry) :
  uniqueDates st -> In m st -> getMood st (date m) = Some m.
Proof.
  unfold uniqueDates, getMood, getAllMoods.
  induction st as [|x st IH]; simpl; intros Hu Hin; [contradiction|].
  inversion Hu as [|? ? Hnot Hu']; subst.
  destruct Hin as [->|Hin].
  - now rewrite String.eqb_refl.
  - destruct (String.eqb (date x) (date m)) eqn:E; [|now apply IH].
    apply String.eqb_eq in E. exfalso. apply Hnot. rewrite E.
    now apply in_map.
Qed.

Lemma getMood_absent (st : Store) (d : string) :
  (forall m, In m st -> date m <> d) -> getMood st d = None.
Proof.
  unfold getMood, getAllMoods. intros H.
  destruct (find _ st) as [m|] eqn:F; [|reflexivity].
  apply find_some in F as [Hin He]. apply String.eqb_eq in He.
  now destruct (H m Hin).
Qed.

(** With one entry per date, [getMood] only depends on which entries the
    store holds. *)
Lemma getMood_perm (st st' : Store) (d : string) :
  uniqueDates st -> Permutation st st' -> getMood st d = getMood st' d.
Proof.
  intros Hu Hp.
  assert (Hu' : uniqueDates st').
  { unfold uniqueDates in *. eapply Permutation_NoDup; [|exact Hu].
    now apply Permutation_map. }
  destruct (getMood st d) as [m|] eqn:G.
  - apply getMood_Some in G as [Hin <-]. symmetry.
    apply getMood_unique; [assumption|]. eapply Permutation_in; eassumption.
  - destruct (getMood st' d) as [m|] eqn:G'; [|reflexivity].
    apply getMood_Some in G' as [Hin <-].
    rewrite getMood_unique in G; [discriminate|assumption|].
    eapply Permutation_in; [apply Permutation_sym|]; eassumption.
Qed.

(** The entry [saveMood] returns. *)
Lemma saveMood_entry (now : Z) (d e n : string) (tagsArg : option (list string))
    (st : Store) :
  snd (saveMood now d e n tagsArg st)
  = mkMood d e (trim n)
      match tagsArg with
      | Some t => t
      | None => match getMood st d with Some m => tags m | None => [] end
      end
      now.
Proof.
  unfold saveMood, getMood. cbn [snd]. now rewrite findIndex_find.
Qed.

(** The array [saveMood] stores: the new entry and the old entries, less
    the first one that had the date. *)
Lemma saveMood_stored (now : Z) (d e n : string) (tagsArg : option (list string))
    (st : Store) :
  exists l1 old l2,
    st = l1 ++ old ++ l2
    /\ Permutation (snd (saveMood now d e n tagsArg st) :: l1 ++ l2)
                   (fst (saveMood now d e n tagsArg st))
    /\ Forall (fun m => String.eqb (date m) d = false) l1
    /\ (old = [] /\ l2 = [] \/ exists x, old = [x] /\ date x = d).
Proof.
  unfold saveMood, getAllMoods. cbn [fst snd].
  set (entry := mkMood d e (trim n) _ now).
  destruct (findIndex (fun m => String.eqb (date m) d) st) as [i|] eqn:F.
  - destruct (findIndex_split _ st i entry F) as (l1 & x & l2 & -> & Hx & Hl1 & Ha).
    exists l1, [x], l2. rewrite Ha. repeat split; auto.
    + eapply perm_trans; [|apply sort_perm]. apply Permutation_middle.
    + right. exists x. split; [reflexivity|]. now apply String.eqb_eq.
  - exists st, [], []. simpl. rewrite !app_nil_r. repeat split; auto.
    + eapply perm_trans; [|apply sort_perm]. apply Permutation_cons_append.
    + now apply findIndex_none.
Qed.

Lemma saveMood_date (now : Z) (d e n : string) (tagsArg : option (list string))
    (st : Store) :
  date (snd (saveMood now d e n tagsArg st)) = d.
Proof. reflexivity. Qed.

Lemma saveMood_unique (now : Z) (d e n : string) (tagsArg : option (list string))
    (st : Store) :
  uniqueDates st ->
  Permutation (snd (saveMood now d e n tagsArg st) :: deleteMood d st)
              (fst (saveMood now d e n tagsArg st))
  /\ uniqueDates (fst (saveMood now d e n tagsArg st)).
Proof.
  intros Hu.
  destruct (saveMood_stored now d e n tagsArg st)
    as (l1 & old & l2 & Hst & Hp & Hl1 & Hold).
  assert (Hdel : deleteMood d st = l1 ++ l2).
  { unfold deleteMood, getAllMoods. rewrite Hst, !filter_app.
    assert (E1 : filter (fun m => negb (String.eqb (date m) d)) l1 = l1).
    { apply filter_all. eapply Forall_impl; [|exact Hl1].
      cbn beta. intros a ->. reflexivity. }
    rewrite E1. f_equal.
    destruct Hold as [[-> ->]|(x & -> & Hx)]; [reflexivity|].
    simpl. rewrite <- Hx, String.eqb_refl. simpl.
    apply filter_all. rewrite Forall_forall. intros z Hz.
    destruct (String.eqb (date z) (date x)) eqn:E; [|reflexivity].
    apply String.eqb_eq in E. exfalso.
    unfold uniqueDates in Hu. rewrite Hst, map_app in Hu.
    apply NoDup_app_remove_l in Hu. simpl in Hu.
    inversion Hu as [|? ? Hnot _]; subst. apply Hnot. rewrite <- E.
    now apply in_map. }
  rewrite Hdel. split; [exact Hp|].
  unfold uniqueDates. eapply Permutation_NoDup; [apply Permutation_map, Hp|].
  simpl. constructor.
  - rewrite <- Hdel. unfold deleteMood, getAllMoods.
    rewrite in_map_iff. intros (z & Hz & Hin).
    apply filter_In in Hin as [_ Hne]. simpl in Hz.
    rewrite Hz, String.eqb_refl in Hne. discriminate.
  - rewrite <- Hdel. unfold deleteMood, getAllMoods.
    clear - Hu. unfold uniqueDates in Hu.
    induction st as [|x st IH]; simpl; [constructor|].
    inversion Hu as [|? ? Hnot Hu']; subst.
    destruct (negb (String.eqb (date x) d)); simpl; [|now apply IH].
    constructor; [|now apply IH].
    rewrite in_map_iff. intros (z & Hz & Hin). apply filter_In in Hin as [Hin _].
    apply Hnot. rewrite <- Hz. now apply in_map.
Qed.

Lemma saveMood_getMood (now : Z) (d e n : string)
    (tagsArg : option (list string)) (st : Store) :
  uniqueDates st ->
  getMood (fst (saveMood now d e n tagsArg st)) d
  = Some (snd (saveMood now d e n tagsArg st)).
Proof.
  intros Hu. destruct (saveMood_unique now d e n tagsArg st Hu) as [Hp Hu'].
  rewrite <- (saveMood_date now d e n tagsArg st) at 2.
  apply getMood_unique; [assumption|].
  eapply Permutation_in; [exact Hp|]. now left.
Qed.

Lemma saveMood_getMood_other (now : Z) (d e n : string)
    (tagsArg : option (list string)) (st : Store) (d' : string) :
  uniqueDates st -> d' <> d ->
  getMood (fst (saveMood now d e n tagsArg st)) d' = getMood st d'.
Proof.
  intros Hu Hd'.
  destruct (saveMood_unique now d e n tagsArg st Hu) as [Hp Hu'].
  rewrite <- (getMood_perm _ _ d' (Permutation_NoDup
                (Permutation_map date (Permutation_sym Hp)) Hu') Hp).
  unfold getMood, getAllMoods. cbn [find]. rewrite saveMood_date.
  assert (E : String.eqb d d' = false) by (apply String.eqb_neq; congruence).
  rewrite E. unfold deleteMood, getAllMoods.
  clear - Hd'. induction st as [|x st IH]; simpl; [reflexivity|].
  destruct (String.eqb (date x) d) eqn:Ex; simpl.
  - apply String.eqb_eq in Ex.
    assert (E : String.eqb (date x) d' = false)
      by (apply String.eqb_neq; congruence).
    now rewrite E.
  - destruct (String.eqb (date x) d'); [reflexivity|exact IH].
Qed.

(** C1.  In a store with one entry per date, [saveMood(d, e, n, tags)]
    returns and stores the entry with date [d], emoji [e], the note [n]
    trimmed and the clock's reading; its tags are the tags passed, and,
    when none are passed, the tags of the entry [d] had, or the empty
    array when [d] had no entry.  Afterwards [getAllMoods] holds exactly
    one entry for [d], [getMood(d)] is that entry, every other date reads
    as before, and the store still has one entry per date. *)
Theorem saveMood_contract (now : Z) (d e n : string)
    (tagsArg : option (list string)) (st : Store) :
  uniqueDates st ->
  let st' := fst (saveMood now d e n tagsArg st) in
  let r := snd (saveMood now d e n tagsArg st) in
  date r = d /\ emoji r = e /\ note r = trim n /\ timestamp r = now
  /\ tags r = match tagsArg with
              | Some t => t
              | None => match getMood st d with
                        | Some m => tags m
                        | None => []
                        end
              end
  /\ getMood st' d = Some r
  /\ List.length (filter (fun m => String.eqb (date m) d) (getAllMoods st')) = 1%nat
  /\ (forall d', d' <> d -> getMood st' d' = getMood st d')
  /\ uniqueDates st'.
Proof.
  intros Hu st' r.
  destruct (saveMood_unique now d e n tagsArg st Hu) as [Hp Hu'].
  fold st' r in Hp, Hu'.
  assert (Hr : r = mkMood d e (trim n)
                    match tagsArg with
                    | Some t => t
                    | None => match getMood st d with
                              | Some m => tags m
                              | None => []
                              end
                    end now) by apply saveMood_entry.
  assert (Hdel : forall m, In m (deleteMood d st) -> date m <> d).
  { intros m Hin. unfold deleteMood in Hin. apply filter_In in Hin as [_ Hne].
    intros E. rewrite E, String.eqb_refl in Hne. discriminate. }
  repeat split; try (rewrite Hr; reflexivity).
  - now apply saveMood_getMood.
  - unfold getAllMoods.
    rewrite <- (Permutation_length (filter_perm _ _ _ Hp)). simpl.
    replace (date r) with d by (rewrite Hr; reflexivity).
    rewrite String.eqb_refl. simpl. f_equal.
    rewrite filter_none; [reflexivity|].
    rewrite Forall_forall. intros m Hin.
    apply String.eqb_neq. now apply Hdel.
  - intros d' Hd'. now apply saveMood_getMood_other.
  - exact Hu'.
Qed.

(** ** What every sequence of operations preserves *)

Lemma saveMood_Forall (P : MoodEntry -> Prop) (now : Z) (d e n : string)
    (tagsArg : option (list string)) (st : Store) :
  Forall P st -> P (snd (saveMood now d e n tagsArg st)) ->
  Forall P (fst (saveMood now d e n tagsArg st)).
Proof.
  intros Hst Hr.
  destruct (saveMood_stored now d e n tagsArg st)
    as (l1 & old & l2 & E & Hp & _ & _).
  apply (Permutation_Forall Hp). constructor; [assumption|].
  rewrite E in Hst. apply Forall_app in Hst as [H1 H2].
  apply Forall_app in H2 as [_ H2]. apply Forall_app. now split.
Qed.

(** The lines of an import only ever reach the store through [saveMood],
    called without tags and with a date the engine accepts. *)
Lemma importFromCSV_preserves (I : Store -> Prop) :
  (forall now d e n st,
      isValidDate d = true -> I st -> I (fst (saveMood now d e n None st))) ->
  forall now csvContent st, I st -> I (snd (importFromCSV now csvContent st)).
Proof.
  intros Hsave now csvContent st Hst. unfold importFromCSV.
  destruct (Z.of_nat (List.length _) <? 2); [exact Hst|].
  destruct (negb _ || negb _); [exact Hst|].
  match goal with
  | |- context [fold_left ?f ?l (0, st)] =>
      assert (H : forall acc, I (snd acc) -> I (snd (fold_left f l acc)))
  end.
  { intros acc. generalize (tl (split LF (trim csvContent))).
    intros l. revert acc. induction l as [|line l IH]; intros acc Hacc; simpl.
    - exact Hacc.
    - apply IH. unfold importLine. destruct acc as [imported st0].
      destruct (String.eqb (trim line) EmptyString); [exact Hacc|].
      destruct (truthy _ && truthy _ && isValidDate _) eqn:C; [|exact Hacc].
      apply andb_true_iff in C as [_ C]. simpl. now apply Hsave. }
  specialize (H (0, st) Hst).
  destruct (fold_left _ _ (0, st)) as [imported st']. exact H.
Qed.

Lemma dated_time (m : MoodEntry) :
  dated m -> exists t, Date_parse (date m) = Some t.
Proof.
  unfold dated, isValidDate. destruct (Date_parse (date m)) as [t|].
  - now exists t.
  - discriminate.
Qed.

Lemma sort_byDateDesc_sorted (l : list MoodEntry) :
  Forall dated l -> sortedByDateDesc (sort byDateDesc l).
Proof.
  apply sort_sorted; unfold byDateDesc, notEarlier.
  - intros x y Hx Hy. destruct (dated_time x Hx) as [tx Ex].
    destruct (dated_time y Hy) as [ty Ey]. rewrite Ex, Ey. simpl.
    intros H. exists tx, ty. repeat split. apply Z.ltb_ge in H. lia.
  - intros x y Hx Hy. destruct (dated_time x Hx) as [tx Ex].
    destruct (dated_time y Hy) as [ty Ey]. rewrite Ex, Ey. simpl.
    intros H. exists ty, tx. repeat split. apply Z.ltb_lt in H. lia.
  - intros x y z _ _ _ (tx & ty & Ex & Ey & Hxy) (ty' & tz & Ey' & Ez & Hyz).
    exists tx, tz. repeat split; auto. rewrite Ey in Ey'. injection Ey' as <-.
    lia.
Qed.

Lemma saveMood_ordered (now : Z) (d e n : string)
    (tagsArg : option (list string)) (st : Store) :
  isValidDate d = true -> ordered st ->
  ordered (fst (saveMood now d e n tagsArg st)).
Proof.
  intros Hd [Hv _].
  assert (Hall : Forall dated (fst (saveMood now d e n tagsArg st))).
  { apply saveMood_Forall; [assumption|]. exact Hd. }
  split; [exact Hall|].
  unfold saveMood in *. cbn [fst] in *.
  apply sort_byDateDesc_sorted.
  apply (Permutation_Forall (Permutation_sym (sort_perm byDateDesc _))).
  exact Hall.
Qed.

Lemma filter_StronglySorted {A : Type} (R : A -> A -> Prop) (p : A -> bool)
    (l : list A) :
  StronglySorted R l -> StronglySorted R (filter p l).
Proof.
  induction 1 as [|x l Hs IH Hall]; simpl; [constructor|].
  destruct (p x); [|assumption]. constructor; [assumption|].
  rewrite Forall_forall in *. intros y Hy. apply Hall.
  now apply filter_In in Hy.
Qed.

Lemma forall_filter {A : Type} (P : A -> Prop) (p : A -> bool) (l : list A) :
  Forall P l -> Forall P (filter p l).
Proof.
  rewrite !Forall_forall. intros H x Hx. apply H. now apply filter_In in Hx.
Qed.

Lemma step_ordered (op : Op) (st : Store) :
  datedOp op -> ordered st -> ordered (step st op).
Proof.
  destruct op as [now d e n tagsArg|d|now csv|now d tag|now d tag|];
    simpl; intros Hop Hst.
  - now apply saveMood_ordered.
  - destruct Hst as [Hv Hs]. split.
    + now apply forall_filter.
    + now apply filter_StronglySorted.
  - apply importFromCSV_preserves; [|assumption].
    intros. now apply saveMood_ordered.
  - unfold addTagToMood. destruct (getMood st d) as [m|] eqn:G; [|exact Hst].
    destruct (existsb _ _); [exact Hst|]. cbn [fst].
    apply saveMood_ordered; [|assumption].
    apply getMood_Some in G as [Hin <-]. destruct Hst as [Hv _].
    rewrite Forall_forall in Hv. now apply Hv.
  - unfold removeTagFromMood. destruct (getMood st d) as [m|] eqn:G; [|exact Hst].
    cbn [fst]. apply saveMood_ordered; [|assumption].
    apply getMood_Some in G as [Hin <-]. destruct Hst as [Hv _].
    rewrite Forall_forall in Hv. now apply Hv.
  - split; constructor.
Qed.

Lemma run_invariant (I : Store -> Prop) (ok : Op -> Prop) :
  (forall op st, ok op -> I st -> I (step st op)) ->
  forall ops st, Forall ok ops -> I st -> I (run ops st).
Proof.
  intros Hstep ops. unfold run.
  induction ops as [|op ops IH]; intros st Hops Hst; simpl; [exact Hst|].
  inversion Hops; subst. apply IH; [assumption|]. now apply Hstep.
Qed.

(** C2.  After every sequence of saves, deletions, imports and tag edits
    from the empty store, the saves naming dates the engine reads as dates,
    the array [getAllMoods] returns (which is the array kept in storage) is
    ordered by date, most recent first. *)
Theorem getAllMoods_sorted (ops : list Op) :
  Forall datedOp ops -> sortedByDateDesc (getAllMoods (run ops [])).
Proof.
  intros Hops. unfold getAllMoods.
  apply (run_invariant ordered datedOp step_ordered ops [] Hops).
  split; constructor.
Qed.

Lemma step_unique (op : Op) (st : Store) :
  uniqueDates st -> uniqueDates (step st op).
Proof.
  destruct op as [now d e n tagsArg|d|now csv|now d tag|now d tag|];
    simpl; intros Hst.
  - now apply saveMood_unique.
  - unfold deleteMood, getAllMoods, uniqueDates in *.
    induction st as [|x st IH]; simpl; [constructor|].
    inversion Hst as [|? ? Hnot Hu]; subst.
    destruct (negb _); simpl; [|now apply IH].
    constructor; [|now apply IH].
    rewrite in_map_iff. intros (z & Hz & Hin). apply filter_In in Hin as [Hin _].
    apply Hnot. rewrite <- Hz. now apply in_map.
  - apply importFromCSV_preserves; [|assumption].
    intros. now apply saveMood_unique.
  - unfold addTagToMood. destruct (getMood st d); [|exact Hst].
    destruct (existsb _ _); [exact Hst|]. now apply saveMood_unique.
  - unfold removeTagFromMood. destruct (getMood st d); [|exact Hst].
    now apply saveMood_unique.
  - constructor.
Qed.

(** X23.  One entry per date: whatever saves, deletions, imports, tag
    changes and clearings are run, in whatever order, from the empty store
    on, no two entries of the store carry the same date. *)
Lemma run_unique (ops : list Op) : uniqueDates (run ops []).
Proof.
  apply (run_invariant uniqueDates (fun _ => True)); auto.
  - intros. now apply step_unique.
  - rewrite Forall_forall. auto.
  - constructor.
Qed.

Lemma saveMood_distinctTags (now : Z) (d e n : string)
    (tagsArg : option (list string)) (st : Store) :
  match tagsArg with Some t => NoDup t | None => True end ->
  distinctTags st -> distinctTags (fst (saveMood now d e n tagsArg st)).
Proof.
  intros Ht Hst. apply saveMood_Forall; [assumption|].
  rewrite saveMood_entry. simpl. destruct tagsArg as [t|]; [assumption|].
  destruct (getMood st d) as [m|] eqn:G; [|constructor].
  apply getMood_Some in G as [Hin _]. unfold distinctTags in Hst.
  rewrite Forall_forall in Hst. now apply Hst.
Qed.

Lemma existsb_eqb_false (x : string) (l : list string) :
  existsb (String.eqb x) l = false -> ~ In x l.
Proof.
  intros H Hin. assert (E : existsb (String.eqb x) l = true).
  { apply existsb_exists. exists x. split; [assumption|apply String.eqb_refl]. }
  congruence.
Qed.

Lemma NoDup_snoc {A : Type} (l : list A) (x : A) :
  NoDup l -> ~ In x l -> NoDup (l ++ [x]).
Proof.
  intros Hl Hx. apply (Permutation_NoDup (Permutation_cons_append l x)).
  now constructor.
Qed.

Lemma step_distinctTags (op : Op) (st : Store) :
  cleanTagsOp op -> distinctTags st -> distinctTags (step st op).
Proof.
  destruct op as [now d e n tagsArg|d|now csv|now d tag|now d tag|];
    simpl; intros Hop Hst.
  - now apply saveMood_distinctTags.
  - now apply forall_filter.
  - apply importFromCSV_preserves; [|assumption].
    intros. now apply saveMood_distinctTags.
  - unfold addTagToMood. destruct (getMood st d) as [m|] eqn:G; [|exact Hst].
    destruct (existsb _ _) eqn:X; [exact Hst|]. cbn [fst].
    apply saveMood_distinctTags; [|assumption].
    apply NoDup_snoc; [|now apply existsb_eqb_false].
    apply getMood_Some in G as [Hin _]. unfold distinctTags in Hst.
    rewrite Forall_forall in Hst. now apply Hst.
  - unfold removeTagFromMood. destruct (getMood st d) as [m|] eqn:G; [|exact Hst].
    cbn [fst]. apply saveMood_distinctTags; [|assumption].
    apply NoDup_filter. apply getMood_Some in G as [Hin _].
    unfold distinctTags in Hst. rewrite Forall_forall in Hst. now apply Hst.
  - constructor.
Qed.

(** C9, as amended.  From the empty store, every sequence of operations in
    which each save that passes tags passes them without repetition leaves
    the tags of every entry free of repetitions: [saveMood] stores the tags
    it is given as they are, and carries the stored ones over when given
    none; imports save without tags.  [addTagToMood] puts a tag the entry
    lacks after the tags it has and leaves the entry alone otherwise;
    [removeTagFromMood] keeps the other tags in their order. *)
Theorem tags_stay_distinct :
  (forall ops, Forall cleanTagsOp ops -> distinctTags (run ops []))
  /\ (forall now d tag st m,
        uniqueDates st -> getMood st d = Some m ->
        option_map tags (getMood (fst (addTagToMood now d tag st)) d)
        = Some (if existsb (String.eqb tag) (tags m) then tags m
                else tags m ++ [tag]))
  /\ (forall now d tag st m,
        uniqueDates st -> getMood st d = Some m ->
        option_map tags (getMood (fst (removeTagFromMood now d tag st)) d)
        = Some (filter (fun t => negb (String.eqb t tag)) (tags m))).
Proof.
  split; [|split].
  - intros ops Hops.
    apply (run_invariant distinctTags cleanTagsOp step_distinctTags ops [] Hops).
    constructor.
  - intros now d tag st m Hu G. unfold addTagToMood. rewrite G.
    destruct (existsb _ _); cbn [fst].
    + now rewrite G.
    + rewrite saveMood_getMood by assumption. now rewrite saveMood_entry.
  - intros now d tag st m Hu G. unfold removeTagFromMood. rewrite G. cbn [fst].
    rewrite saveMood_getMood by assumption. now rewrite saveMood_entry.
Qed.

(** ** Longest streak *)

Lemma calendarDay_parse (s : string) (k : Z) :
  calendarDay s = Some k -> Date_parse s = Some (msPerDay * k).
Proof.
  unfold calendarDay, Date_parse. destruct (isoDate s) as [[[y m] d]|].
  - now intros [= <-].
  - discriminate.
Qed.

Lemma onCalendar_parse (m : MoodEntry) :
  onCalendar m -> Date_parse (date m) = Some (msPerDay * dayOf m).
Proof.
  unfold onCalendar, dayOf. intros H.
  destruct (calendarDay (date m)) as [k|] eqn:E; [|contradiction].
  now apply calendarDay_parse.
Qed.

Lemma onCalendar_day (m : MoodEntry) :
  onCalendar m -> calendarDay (date m) = Some (dayOf m).
Proof.
  unfold onCalendar, dayOf. now destruct (calendarDay (date m)).
Qed.

Lemma roundDiv_days (k : Z) : roundDiv (msPerDay * k) msPerDay = k.
Proof.
  unfold roundDiv, msPerDay. symmetry.
  apply (Z.div_unique _ _ k 86400000); lia.
Qed.

(** On calendar dates [diffDays] is the difference of the day numbers. *)
Lemma longestLoop_step (prev m : MoodEntry) (cur mx : Z) (rest : list MoodEntry) :
  onCalendar prev -> onCalendar m ->
  longestLoop prev cur mx (m :: rest)
  = if dayOf m - dayOf prev =? 1
    then longestLoop m (cur + 1) (Z.max mx (cur + 1)) rest
    else if 1 <? dayOf m - dayOf prev then longestLoop m 1 mx rest
         else longestLoop m cur mx rest.
Proof.
  intros Hp Hm. cbn [longestLoop].
  rewrite (onCalendar_parse m Hm), (onCalendar_parse prev Hp).
  cbn [elapsed option_map].
  replace (msPerDay * dayOf m - msPerDay * dayOf prev)
    with (msPerDay * (dayOf m - dayOf prev)) by ring.
  now rewrite roundDiv_days.
Qed.

Lemma longestLoop_ge (rest : list MoodEntry) :
  forall prev cur mx, mx <= longestLoop prev cur mx rest.
Proof.
  induction rest as [|m rest IH]; intros prev cur mx; simpl; [lia|].
  destruct (option_map _ _) as [n|].
  - destruct (n =? 1).
    + specialize (IH m (cur + 1) (Z.max mx (cur + 1))). lia.
    + destruct (1 <? n); apply IH.
  - apply IH.
Qed.

Lemma sort_byDateAsc_sorted (l : list MoodEntry) :
  Forall onCalendar l -> ascending (sort byDateAsc l).
Proof.
  apply sort_sorted; unfold byDateAsc.
  - intros x y Hx Hy.
    rewrite (onCalendar_parse x Hx), (onCalendar_parse y Hy).
    cbn [elapsed positive]. intros H. apply Z.ltb_ge in H.
    unfold msPerDay in H. lia.
  - intros x y Hx Hy.
    rewrite (onCalendar_parse x Hx), (onCalendar_parse y Hy).
    cbn [elapsed positive]. intros H. apply Z.ltb_lt in H.
    unfold msPerDay in H. lia.
  - intros. lia.
Qed.

(** The streak found is made of days that have entries. *)
Lemma longestLoop_sound (P : Z -> Prop) (rest : list MoodEntry) :
  forall prev cur mx,
    Forall onCalendar (prev :: rest) -> ascending (prev :: rest) ->
    (forall m, In m rest -> P (dayOf m)) ->
    (forall j, 0 <= j < cur -> P (dayOf prev - j)) ->
    (exists k, forall j, 0 <= j < mx -> P (k + j)) ->
    exists k, forall j, 0 <= j < longestLoop prev cur mx rest -> P (k + j).
Proof.
  induction rest as [|m rest IH]; intros prev cur mx Hcal Hasc Hrest Hcur Hmx.
  - exact Hmx.
  - inversion Hcal as [|? ? Hp Hcal']; subst.
    inversion Hcal' as [|? ? Hm _]; subst.
    inversion Hasc as [|? ? Hasc' Hle]; subst.
    inversion Hle as [|? ? Hpm _]; subst.
    rewrite longestLoop_step by assumption.
    assert (Hrest' : forall m', In m' rest -> P (dayOf m'))
      by (intros; apply Hrest; now right).
    assert (Hhere : P (dayOf m)) by (apply Hrest; now left).
    destruct (dayOf m - dayOf prev =? 1) eqn:E1.
    + apply Z.eqb_eq in E1. apply IH; auto.
      * intros j Hj. destruct (Z.eq_dec j 0) as [->|Hj0].
        -- now rewrite Z.sub_0_r.
        -- replace (dayOf m - j) with (dayOf prev - (j - 1)) by lia.
           apply Hcur. lia.
      * destruct (Z_le_gt_dec (cur + 1) mx) as [Hc|Hc].
        -- rewrite Z.max_l by lia. exact Hmx.
        -- rewrite Z.max_r by lia. exists (dayOf prev - cur + 1).
           intros j Hj.
           destruct (Z.eq_dec j cur) as [->|Hjc].
           ++ replace (dayOf prev - cur + 1 + cur) with (dayOf m) by lia.
              exact Hhere.
           ++ replace (dayOf prev - cur + 1 + j)
                with (dayOf prev - (cur - 1 - j)) by lia.
              apply Hcur. lia.
    + destruct (1 <? dayOf m - dayOf prev) eqn:E2.
      * apply IH; auto. intros j Hj. replace j with 0 by lia.
        now rewrite Z.sub_0_r.
      * apply Z.eqb_neq in E1. apply Z.ltb_ge in E2.
        assert (E : dayOf m = dayOf prev) by lia.
        apply IH; auto. intros j Hj. rewrite E. now apply Hcur.
Qed.

(** No run of days with entries is longer than the streak found. *)
Lemma longestLoop_complete (rest : list MoodEntry) :
  forall prev cur mx,
    Forall onCalendar (prev :: rest) -> ascending (prev :: rest) ->
    1 <= cur <= mx ->
    forall k n,
      (forall j, 0 <= j < n ->
                 dayOf prev - cur < k + j <= dayOf prev
                 \/ In (k + j) (map dayOf rest)) ->
      n <= longestLoop prev cur mx rest.
Proof.
  induction rest as [|m rest IH]; intros prev cur mx Hcal Hasc Hc k n Hrun.
  - simpl. destruct (Z_le_gt_dec n 0) as [|Hn]; [lia|].
    destruct (Hrun 0) as [H0|[]]; [lia|].
    destruct (Hrun (n - 1)) as [H1|[]]; [lia|]. lia.
  - inversion Hcal as [|? ? Hp Hcal']; subst.
    inversion Hcal' as [|? ? Hm _]; subst.
    inversion Hasc as [|? ? Hasc' Hle]; subst.
    inversion Hle as [|? ? Hpm Hle']; subst.
    inversion Hasc' as [|? ? _ Hmle]; subst.
    assert (Hlater : forall y, In y (map dayOf rest) -> dayOf m <= y).
    { intros y Hy. apply in_map_iff in Hy as (z & <- & Hz).
      rewrite Forall_forall in Hmle. now apply Hmle. }
    rewrite longestLoop_step by assumption.
    destruct (dayOf m - dayOf prev =? 1) eqn:E1.
    + apply Z.eqb_eq in E1. apply IH with (k := k); auto; [lia|].
      intros j Hj. destruct (Hrun j Hj) as [H|[H|H]]; [left; lia|left; lia|].
      now right.
    + destruct (1 <? dayOf m - dayOf prev) eqn:E2.
      * apply Z.ltb_lt in E2.
        destruct (Z_le_gt_dec n 0) as [|Hn];
          [pose proof (longestLoop_ge rest m 1 mx); lia|].
        assert (Hgap : ~ (dayOf prev - cur < dayOf prev + 1 <= dayOf prev
                          \/ In (dayOf prev + 1) (map dayOf (m :: rest)))).
        { intros [H|[H|H]]; [lia|lia|]. apply Hlater in H. lia. }
        destruct (Z_le_gt_dec k (dayOf prev)) as [Hk|Hk].
        -- destruct (Z_le_gt_dec (k + n - 1) (dayOf prev)) as [Hend|Hend].
           ++ pose proof (longestLoop_ge rest m 1 mx).
              destruct (Hrun 0) as [H0|[H0|H0]]; try lia.
              apply Hlater in H0. lia.
           ++ exfalso. apply Hgap.
              replace (dayOf prev + 1) with (k + (dayOf prev + 1 - k)) by lia.
              apply Hrun. lia.
        -- apply IH with (k := k); auto; [lia|].
           intros j Hj. destruct (Hrun j Hj) as [H|[H|H]]; [lia|left; lia|].
           now right.
      * apply Z.eqb_neq in E1. apply Z.ltb_ge in E2.
        assert (E : dayOf m = dayOf prev) by lia.
        apply IH with (k := k); auto.
        intros j Hj. destruct (Hrun j Hj) as [H|[H|H]]; [left; lia|left; lia|].
        now right.
Qed.

Lemma hasEntryOn_days (moods : list MoodEntry) (k : Z) :
  Forall onCalendar moods -> (hasEntryOn moods k <-> In k (map dayOf moods)).
Proof.
  intros Hcal. rewrite Forall_forall in Hcal. unfold hasEntryOn. split.
  - intros (m & Hin & E). apply in_map_iff. exists m. split; [|assumption].
    unfold dayOf. now rewrite E.
  - intros H. apply in_map_iff in H as (m & <- & Hin). exists m.
    split; [assumption|]. apply onCalendar_day. now apply Hcal.
Qed.

(** C4.  [getLongestStreak] is [0] on the empty store and at least [1] on
    any other.  On entries dated by calendar dates it is the length of the
    longest run of consecutive days that all have an entry: such a run of
    that length exists and none is longer, repeated dates counting once.
    In its scan over the entries by ascending date, a step of one day
    lengthens the running streak and raises the maximum to it, a step of
    more than one day sets the running streak back to [1], and a step of
    zero days changes neither.  Entries on 2024-01-01, 01-02, 01-05, 01-06
    and 01-07 give [3]. *)
Theorem getLongestStreak_spec :
  getLongestStreak [] = 0
  /\ (forall st, st <> [] -> 1 <= getLongestStreak st)
  /\ (forall st, st <> [] -> Forall onCalendar st ->
        (exists k, daysInARow st k (getLongestStreak st))
        /\ (forall k n, daysInARow st k n -> n <= getLongestStreak st))
  /\ (forall prev m cur mx rest, onCalendar prev -> onCalendar m ->
        (dayOf m - dayOf prev = 1 ->
         longestLoop prev cur mx (m :: rest)
         = longestLoop m (cur + 1) (Z.max mx (cur + 1)) rest)
        /\ (1 < dayOf m - dayOf prev ->
            longestLoop prev cur mx (m :: rest) = longestLoop m 1 mx rest)
        /\ (dayOf m - dayOf prev = 0 ->
            longestLoop prev cur mx (m :: rest) = longestLoop m cur mx rest))
  /\ getLongestStreak
       (map entryOn ["2024-01-01"; "2024-01-02"; "2024-01-05"; "2024-01-06";
                     "2024-01-07"]) = 3.
Proof.
  split; [reflexivity|]. split; [|split; [|split]].
  - intros st Hne. unfold getLongestStreak, getAllMoods.
    destruct (sort byDateAsc st) as [|first rest] eqn:E.
    + destruct st as [|x st]; [contradiction|].
      pose proof (Permutation_length (sort_perm byDateAsc (x :: st))) as L.
      rewrite E in L. discriminate.
    + apply longestLoop_ge.
  - intros st Hne Hcal. unfold getLongestStreak, getAllMoods.
    pose proof (sort_perm byDateAsc st) as Hp.
    pose proof (sort_byDateAsc_sorted st Hcal) as Hasc.
    assert (Hcal' : Forall onCalendar (sort byDateAsc st))
      by (apply (Permutation_Forall Hp); assumption).
    assert (Hdays : forall k, hasEntryOn st k
                              <-> In k (map dayOf (sort byDateAsc st))).
    { intros k. rewrite hasEntryOn_days by assumption. split; intros H.
      - eapply Permutation_in; [apply Permutation_map, Hp|assumption].
      - eapply Permutation_in;
          [apply Permutation_map, Permutation_sym, Hp|assumption]. }
    destruct (sort byDateAsc st) as [|first rest] eqn:E.
    { destruct st as [|x st]; [contradiction|].
      apply Permutation_length in Hp. discriminate. }
    split.
    + destruct (longestLoop_sound (fun k => hasEntryOn st k) rest first 1 1)
        as [k Hk]; auto.
      * intros m Hm. apply Hdays. simpl. right. now apply in_map.
      * intros j Hj. replace j with 0 by lia. rewrite Z.sub_0_r.
        apply Hdays. now left.
      * exists (dayOf first). intros j Hj. replace j with 0 by lia.
        rewrite Z.add_0_r. apply Hdays. now left.
      * now exists k.
    + intros k n Hrun. apply longestLoop_complete with (k := k); auto; [lia|].
      intros j Hj. specialize (Hrun j Hj). apply Hdays in Hrun.
      destruct Hrun as [<-|H]; [left; lia|now right].
  - intros prev m cur mx rest Hp Hm.
    rewrite (longestLoop_step prev m cur mx rest Hp Hm).
    repeat split; intros H.
    + now rewrite H.
    + apply Z.ltb_lt in H. rewrite H.
      destruct (dayOf m - dayOf prev =? 1) eqn:E; [|reflexivity].
      apply Z.eqb_eq in E. apply Z.ltb_lt in H. lia.
    + now rewrite H.
  - vm_compute. reflexivity.
Qed.

(** ** Tallies and the most common mood *)

Lemma prop_setProp {V : Type} (o : list (string * V)) (k k' : string) (v : V) :
  prop (setProp o k v) k' = if String.eqb k k' then Some v else prop o k'.
Proof.
  induction o as [|[k0 v0] o IH]; simpl.
  - reflexivity.
  - destruct (String.eqb k0 k) eqn:E; simpl.
    + apply String.eqb_eq in E. subst k0.
      now destruct (String.eqb k k').
    + rewrite IH. destruct (String.eqb k0 k') eqn:E'; [|reflexivity].
      apply String.eqb_eq in E'. subst k0.
      rewrite String.eqb_sym in E. now rewrite E.
Qed.

Lemma prop_None {V : Type} (o : list (string * V)) (k : string) :
  prop o k = None <-> ~ In k (map fst o).
Proof.
  induction o as [|[k0 v0] o IH]; simpl.
  - tauto.
  - destruct (String.eqb k0 k) eqn:E.
    + apply String.eqb_eq in E. split; [discriminate|]. intros H. tauto.
    + apply String.eqb_neq in E. rewrite IH. tauto.
Qed.

Lemma prop_Some_In {V : Type} (o : list (string * V)) (k : string) (v : V) :
  prop o k = Some v -> In (k, v) o.
Proof.
  induction o as [|[k0 v0] o IH]; simpl; [discriminate|].
  destruct (String.eqb k0 k) eqn:E.
  - apply String.eqb_eq in E. intros [= <-]. left. now subst.
  - intros H. right. now apply IH.
Qed.

Lemma prop_In {V : Type} (o : list (string * V)) (k : string) (v : V) :
  NoDup (map fst o) -> In (k, v) o -> prop o k = Some v.
Proof.
  induction o as [|[k0 v0] o IH]; simpl; intros Hnd Hin; [contradiction|].
  inversion Hnd as [|? ? Hnot Hnd']; subst.
  destruct Hin as [[= -> ->]|Hin].
  - now rewrite String.eqb_refl.
  - destruct (String.eqb k0 k) eqn:E; [|now apply IH].
    apply String.eqb_eq in E. subst k0. exfalso. apply Hnot.
    apply in_map_iff. now exists (k, v).
Qed.

Lemma setProp_keys {V : Type} (o : list (string * V)) (k : string) (v : V) :
  map fst (setProp o k v)
  = match prop o k with
    | Some _ => map fst o
    | None => map fst o ++ [k]
    end.
Proof.
  induction o as [|[k0 v0] o IH]; simpl; [reflexivity|].
  destruct (String.eqb k0 k) eqn:E; simpl; [reflexivity|].
  rewrite IH. now destruct (prop o k).
Qed.

Lemma tally_snoc (l : list MoodEntry) (m : MoodEntry) :
  tally (l ++ [m]) = bump (tally l) (emoji m).
Proof. unfold tally. now rewrite fold_left_app. Qed.

Lemma occurrences_snoc (e : string) (l : list MoodEntry) (m : MoodEntry) :
  occurrences e (l ++ [m])
  = occurrences e l + if String.eqb (emoji m) e then 1 else 0.
Proof.
  unfold occurrences. rewrite filter_app, length_app. simpl.
  destruct (String.eqb (emoji m) e); simpl; lia.
Qed.

Lemma occurrences_nonneg (e : string) (l : list MoodEntry) : 0 <= occurrences e l.
Proof. unfold occurrences. lia. Qed.

Lemma occurrences_pos (e : string) (l : list MoodEntry) :
  0 < occurrences e l <-> In e (map emoji l).
Proof.
  unfold occurrences. induction l as [|m l IH]; simpl.
  - split; [lia|tauto].
  - destruct (String.eqb (emoji m) e) eqn:E.
    + apply String.eqb_eq in E. simpl. split; [auto|lia].
    + apply String.eqb_neq in E. rewrite IH. tauto.
Qed.

(** The tally holds, for every emoji met, how often it was met. *)
Lemma tally_prop (l : list MoodEntry) (e : string) :
  prop (tally l) e
  = if occurrences e l =? 0 then None else Some (occurrences e l).
Proof.
  induction l as [|m l IH] using rev_ind; [reflexivity|].
  rewrite tally_snoc, occurrences_snoc. unfold bump.
  rewrite prop_setProp.
  pose proof (occurrences_nonneg e l) as Hn.
  destruct (String.eqb (emoji m) e) eqn:E.
  - apply String.eqb_eq in E. subst e. rewrite IH.
    destruct (occurrences (emoji m) l =? 0) eqn:Z0.
    + apply Z.eqb_eq in Z0. rewrite Z0. reflexivity.
    + apply Z.eqb_neq in Z0.
      destruct (occurrences (emoji m) l + 1 =? 0) eqn:Z1; [|reflexivity].
      apply Z.eqb_eq in Z1. lia.
  - now rewrite IH, Z.add_0_r.
Qed.

Lemma tally_keys_snoc (l : list MoodEntry) (m : MoodEntry) :
  map fst (tally (l ++ [m]))
  = match prop (tally l) (emoji m) with
    | Some _ => map fst (tally l)
    | None => map fst (tally l) ++ [emoji m]
    end.
Proof. rewrite tally_snoc. unfold bump. apply setProp_keys. Qed.

Lemma tally_keys_In (l : list MoodEntry) (e : string) :
  In e (map fst (tally l)) <-> In e (map emoji l).
Proof.
  rewrite <- occurrences_pos. pose proof (tally_prop l e) as H.
  pose proof (occurrences_nonneg e l) as Hn.
  destruct (occurrences e l =? 0) eqn:Z0.
  - apply Z.eqb_eq in Z0. apply prop_None in H. split; [tauto|lia].
  - apply Z.eqb_neq in Z0. split; [lia|]. intros _.
    apply prop_Some_In in H. apply in_map_iff. now exists (e, occurrences e l).
Qed.

Lemma tally_keys_NoDup (l : list MoodEntry) : NoDup (map fst (tally l)).
Proof.
  induction l as [|m l IH] using rev_ind; [constructor|].
  rewrite tally_keys_snoc. destruct (prop (tally l) (emoji m)) eqn:E; [assumption|].
  apply NoDup_snoc; [assumption|]. now apply prop_None.
Qed.

Lemma seenBefore_snoc (e e' x : string) (l : list string) :
  seenBefore e e' l -> seenBefore e e' (l ++ [x]).
Proof.
  intros (l1 & l2 & -> & H). exists l1, (l2 ++ [x]).
  split; [|assumption]. now rewrite <- app_assoc.
Qed.

(** The keys of the tally stand in the order in which the emojis were
    first met. *)
Lemma tally_keys_order (l : list MoodEntry) :
  forall K1 k K2, map fst (tally l) = K1 ++ k :: K2 ->
  forall k', In k' K2 -> seenBefore k k' (map emoji l).
Proof.
  induction l as [|m l IH] using rev_ind; intros K1 k K2 E k' Hk'.
  - destruct K1; discriminate.
  - rewrite map_app. simpl. rewrite tally_keys_snoc in E.
    destruct (prop (tally l) (emoji m)) eqn:P.
    + apply seenBefore_snoc. now apply (IH K1 k K2).
    + induction K2 as [|y K2' _] using rev_ind; [contradiction|].
      change (K1 ++ k :: K2' ++ [y]) with (K1 ++ (k :: K2') ++ [y]) in E.
      rewrite app_assoc in E. apply app_inj_tail in E as [E <-].
      apply in_app_or in Hk' as [Hk'|[<-|[]]].
      * apply seenBefore_snoc. now apply (IH K1 k K2').
      * assert (Hk : In k (map emoji l)).
        { apply tally_keys_In. rewrite E. apply in_elt. }
        apply prop_None in P. rewrite tally_keys_In in P.
        apply in_split in Hk as (l1 & l2 & Hl). rewrite Hl.
        exists l1, (l2 ++ [emoji m]). split.
        -- now rewrite <- app_assoc.
        -- intros H. apply P. rewrite Hl. apply in_or_app. now left.
Qed.

Lemma Object_entries_In {V : Type} (o : list (string * V)) (kv : string * V) :
  In kv (Object_entries o) <-> In kv o.
Proof.
  unfold Object_entries. rewrite in_app_iff.
  rewrite <- (Permutation_in' (eq_refl kv) (sort_perm indexOrder _)).
  rewrite !filter_In. destruct (isArrayIndex (fst kv)); simpl; intuition congruence.
Qed.

(** Without array-index keys the property order is the creation order. *)
Lemma Object_entries_plain {V : Type} (o : list (string * V)) :
  Forall (fun kv => isArrayIndex (fst kv) = false) o -> Object_entries o = o.
Proof.
  intros H. unfold Object_entries.
  rewrite filter_none by assumption. simpl. apply filter_all.
  eapply Forall_impl; [|exact H]. cbn beta. now intros kv ->.
Qed.

Lemma index_part_sorted {V : Type} (o : list (string * V)) :
  StronglySorted indexNotAbove
    (sort indexOrder (filter (fun kv => isArrayIndex (fst kv)) o)).
Proof.
  apply (sort_sorted indexOrder (fun kv => isArrayIndex (fst kv) = true));
    unfold indexOrder, indexNotAbove, isArrayIndex.
  - intros x y Hx Hy.
    destruct (arrayIndex (fst x)) as [i|]; [|discriminate].
    destruct (arrayIndex (fst y)) as [j|]; [|discriminate].
    cbn [JS.positive]. intros H. apply Z.ltb_ge in H. exists i, j.
    repeat split. lia.
  - intros x y Hx Hy.
    destruct (arrayIndex (fst x)) as [i|]; [|discriminate].
    destruct (arrayIndex (fst y)) as [j|]; [|discriminate].
    cbn [JS.positive]. intros H. apply Z.ltb_lt in H. exists j, i.
    repeat split. lia.
  - intros x y z _ _ _ (i & j & Ei & Ej & Hij) (j' & k & Ej' & Ek & Hjk).
    exists i, k. repeat split; auto. rewrite Ej in Ej'. injection Ej' as <-.
    lia.
  - rewrite Forall_forall. intros kv Hin. now apply filter_In in Hin.
Qed.

Lemma filter_split {A : Type} (p : A -> bool) (l : list A) :
  forall n1 x n2, filter p l = n1 ++ x :: n2 ->
  exists l1 l2, l = l1 ++ x :: l2 /\ filter p l2 = n2.
Proof.
  induction l as [|y l IH]; simpl; intros n1 x n2 E.
  - destruct n1; discriminate.
  - destruct (p y).
    + destruct n1 as [|z n1]; simpl in E.
      * injection E as -> E. now exists [], l.
      * injection E as -> E. destruct (IH _ _ _ E) as (l1 & l2 & -> & H).
        now exists (z :: l1), l2.
    + destruct (IH _ _ _ E) as (l1 & l2 & -> & H). now exists (y :: l1), l2.
Qed.

(** The scan keeps the first of the largest counts. *)
Lemma pickMax_first (L : list (string * Z)) :
  forall c0 k0,
    (fold_left pickMax L (c0, k0) = (c0, k0)
     /\ Forall (fun kv => snd kv <= c0) L)
    \/ exists L1 k c L2,
         L = L1 ++ (k, c) :: L2
         /\ fold_left pickMax L (c0, k0) = (c, Some k)
         /\ c0 < c
         /\ Forall (fun kv => snd kv < c) L1
         /\ Forall (fun kv => snd kv <= c) L2.
Proof.
  induction L as [|[k1 c1] L IH]; intros c0 k0; simpl.
  - left. split; [reflexivity|constructor].
  - destruct (c0 <? c1) eqn:E.
    + apply Z.ltb_lt in E. right.
      destruct (IH c1 (Some k1))
        as [[Hr Hall]|(L1 & k & c & L2 & -> & Hr & Hc & H1 & H2)].
      * exists [], k1, c1, L.
        split; [reflexivity|]. split; [exact Hr|]. split; [exact E|].
        split; [constructor|exact Hall].
      * exists ((k1, c1) :: L1), k, c, L2.
        split; [reflexivity|]. split; [exact Hr|]. split; [lia|].
        split; [constructor; [simpl; lia|assumption]|assumption].
    + apply Z.ltb_ge in E.
      destruct (IH c0 k0)
        as [[Hr Hall]|(L1 & k & c & L2 & -> & Hr & Hc & H1 & H2)].
      * left. split; [assumption|]. constructor; [simpl; lia|assumption].
      * right. exists ((k1, c1) :: L1), k, c, L2.
        split; [reflexivity|]. split; [exact Hr|]. split; [lia|].
        split; [constructor; [simpl; lia|assumption]|assumption].
Qed.

Lemma tally_In (l : list MoodEntry) (k : string) (c : Z) :
  In (k, c) (tally l) <-> c = occurrences k l /\ 0 < c.
Proof.
  pose proof (tally_prop l k) as P. pose proof (occurrences_nonneg k l) as Hn.
  split.
  - intros Hin. rewrite (prop_In _ _ _ (tally_keys_NoDup l) Hin) in P.
    destruct (occurrences k l =? 0); [discriminate|]. injection P as ->.
    split; [reflexivity|].
    apply occurrences_pos, tally_keys_In, in_map_iff. now exists (k, occurrences k l).
  - intros [-> Hc]. apply prop_Some_In. rewrite P.
    destruct (occurrences k l =? 0) eqn:Z0; [|reflexivity].
    apply Z.eqb_eq in Z0. lia.
Qed.

(** Which emoji the scan of the tally settles on. *)
Lemma mostCommon_choice (moods : list MoodEntry) :
  moods <> [] ->
  exists e,
    snd (fold_left pickMax (Object_entries (tally moods)) (0, None)) = Some e
    /\ In e (map emoji moods)
    /\ (forall e', occurrences e' moods <= occurrences e moods)
    /\ (forall e', e' <> e -> occurrences e' moods = occurrences e moods ->
          match arrayIndex e, arrayIndex e' with
          | Some i, Some i' => i <= i'
          | Some _, None => True
          | None, Some _ => False
          | None, None => seenBefore e e' (map emoji moods)
          end).
Proof.
  intros Hne.
  destruct (pickMax_first (Object_entries (tally moods)) 0 None)
    as [[_ Hall]|(L1 & e & c & L2 & EL & Hr & Hc & H1 & H2)].
  - exfalso. destruct moods as [|m moods]; [contradiction|].
    assert (Hin : In (emoji m, occurrences (emoji m) (m :: moods))
                     (Object_entries (tally (m :: moods)))).
    { apply Object_entries_In, tally_In. split; [reflexivity|].
      apply occurrences_pos. now left. }
    rewrite Forall_forall in Hall. specialize (Hall _ Hin). simpl in Hall.
    assert (0 < occurrences (emoji m) (m :: moods))
      by (apply occurrences_pos; now left).
    lia.
  - assert (He : c = occurrences e moods /\ 0 < c).
    { apply tally_In, Object_entries_In. rewrite EL. apply in_elt. }
    destruct He as [-> _].
    assert (Hwhere : forall e', 0 < occurrences e' moods ->
              In (e', occurrences e' moods) (L1 ++ (e, occurrences e moods) :: L2)).
    { intros e' Hpos. rewrite <- EL. apply Object_entries_In, tally_In. auto. }
    exists e. rewrite Hr. split; [reflexivity|]. split; [|split].
    + now apply occurrences_pos.
    + intros e'. pose proof (occurrences_nonneg e' moods) as Hn.
      destruct (Z.eq_dec (occurrences e' moods) 0) as [Z0|Z0]; [lia|].
      assert (Hpos : 0 < occurrences e' moods) by lia.
      apply Hwhere in Hpos. apply in_app_or in Hpos as [Hin|[Hin|Hin]].
      * rewrite Forall_forall in H1. specialize (H1 _ Hin). simpl in H1. lia.
      * injection Hin as _ ->. lia.
      * rewrite Forall_forall in H2. now specialize (H2 _ Hin).
    + intros e' Hdiff Hsame.
      assert (Hin2 : In (e', occurrences e moods) L2).
      { assert (Hpos : 0 < occurrences e' moods) by lia.
        apply Hwhere in Hpos. rewrite Hsame in Hpos.
        apply in_app_or in Hpos as [Hin|[Hin|Hin]]; [| |assumption].
        - rewrite Forall_forall in H1. specialize (H1 _ Hin). simpl in H1. lia.
        - injection Hin as ->. contradiction. }
      unfold Object_entries in EL.
      apply app_eq_app in EL as [M [[ES EN]|[ES EN]]].
      * (* the choice is among the array indices *)
        destruct M as [|x M].
        { simpl in EN. rewrite app_nil_r in ES.
          assert (Hnon : isArrayIndex e = false).
          { assert (Hin : In (e, occurrences e moods)
                            (filter (fun kv => negb (isArrayIndex (fst kv)))
                                    (tally moods)))
              by (rewrite <- EN; now left).
            apply filter_In in Hin as [_ Hin]. simpl in Hin.
            now destruct (isArrayIndex e). }
          unfold isArrayIndex in Hnon.
          destruct (arrayIndex e) as [i|] eqn:Ei; [discriminate|].
          destruct (arrayIndex e') as [i'|] eqn:Ei'.
          - assert (Hin : In (e', occurrences e moods) L1).
            { rewrite <- ES.
              apply (Permutation_in _ (sort_perm indexOrder _)).
              apply filter_In. split.
              - apply tally_In. split; [congruence|exact Hc].
              - simpl. unfold isArrayIndex. now rewrite Ei'. }
            rewrite Forall_forall in H1. specialize (H1 _ Hin). simpl in H1. lia.
          - symmetry in EN.
            apply (filter_split _ _ []) in EN as (O1 & O2 & EO & EF).
            assert (Hin : In (e', occurrences e moods) O2).
            { rewrite <- EF in Hin2. now apply filter_In in Hin2. }
            apply (tally_keys_order moods (map fst O1) e (map fst O2)).
            + now rewrite EO, map_app.
            + apply in_map_iff. now exists (e', occurrences e moods). }
        simpl in EN.
        assert (Ex : x = (e, occurrences e moods)) by congruence. subst x.
        assert (EN' : L2 = M ++ filter (fun kv => negb (isArrayIndex (fst kv)))
                                       (tally moods)) by congruence.
        clear EN. rename EN' into EN.
        pose proof (index_part_sorted (tally moods)) as Hs.
        rewrite ES in Hs.
        assert (Hs' : StronglySorted indexNotAbove ((e, occurrences e moods) :: M)).
        { clear - Hs. induction L1 as [|y L1 IH]; simpl in Hs; [assumption|].
          apply IH. now inversion Hs. }
        apply StronglySorted_inv in Hs' as [_ HM].
        destruct (arrayIndex e') as [i'|] eqn:Ei'.
        -- assert (Hin : In (e', occurrences e moods) M).
           { rewrite EN in Hin2. apply in_app_or in Hin2 as [Hin|Hin]; [assumption|].
             apply filter_In in Hin as [_ Hin]. simpl in Hin.
             unfold isArrayIndex in Hin. rewrite Ei' in Hin. discriminate. }
           rewrite Forall_forall in HM.
           destruct (HM _ Hin) as (i & j & Ei & Ej & Hij). simpl in Ei, Ej.
           rewrite Ei. rewrite Ei' in Ej. injection Ej as <-. exact Hij.
        -- assert (Hidx : isArrayIndex e = true).
           { assert (Hin : In (e, occurrences e moods)
                             (sort indexOrder
                                (filter (fun kv => isArrayIndex (fst kv))
                                        (tally moods))))
               by (rewrite ES; apply in_elt).
             apply (Permutation_in _ (Permutation_sym (sort_perm indexOrder _)))
               in Hin.
             now apply filter_In in Hin. }
           unfold isArrayIndex in Hidx. now destruct (arrayIndex e).
      * (* the choice is among the other keys *)
        assert (Hnon : isArrayIndex e = false).
        { assert (Hin : In (e, occurrences e moods)
                          (filter (fun kv => negb (isArrayIndex (fst kv)))
                                  (tally moods)))
            by (rewrite EN; apply in_elt).
          apply filter_In in Hin as [_ Hin]. simpl in Hin.
          now destruct (isArrayIndex e). }
        unfold isArrayIndex in Hnon.
        destruct (arrayIndex e) as [i|] eqn:Ei; [discriminate|].
        destruct (arrayIndex e') as [i'|] eqn:Ei'.
        -- assert (Hin : In (e', occurrences e moods) L1).
           { rewrite ES. apply in_or_app. left.
             apply (Permutation_in _ (sort_perm indexOrder _)).
             apply filter_In. split.
             - apply tally_In. split; [congruence|exact Hc].
             - simpl. unfold isArrayIndex. now rewrite Ei'. }
           rewrite Forall_forall in H1. specialize (H1 _ Hin). simpl in H1. lia.
        -- apply filter_split in EN as (O1 & O2 & EO & EF).
           assert (Hin : In (e', occurrences e moods) O2).
           { rewrite <- EF in Hin2. now apply filter_In in Hin2. }
           apply (tally_keys_order moods (map fst O1) e (map fst O2)).
           ++ now rewrite EO, map_app.
           ++ apply in_map_iff. now exists (e', occurrences e moods).
Qed.

(** ** Weekly insights *)

Lemma moodValue_range (e : string) : 1 <= moodValue e <= 5.
Proof.
  unfold moodValue, emojiToValue. cbn [prop].
  repeat match goal with
         | |- context [String.eqb ?a e] => destruct (String.eqb a e)
         end; cbn; lia.
Qed.

Lemma totalOn_cons (day : string) (m : MoodEntry) (moods : list MoodEntry) :
  totalOn day (m :: moods)
  = (if fallsOn day m then moodValue (emoji m) else 0) + totalOn day moods.
Proof. unfold totalOn. simpl. now destruct (fallsOn day m). Qed.

Lemma countOn_cons (day : string) (m : MoodEntry) (moods : list MoodEntry) :
  countOn day (m :: moods)
  = (if fallsOn day m then 1 else 0) + countOn day moods.
Proof.
  unfold countOn. simpl. destruct (fallsOn day m); simpl List.length; lia.
Qed.

Lemma totalOn_count (day : string) (moods : list MoodEntry) :
  countOn day moods <= totalOn day moods.
Proof.
  induction moods as [|m moods IH].
  - unfold countOn, totalOn. simpl. lia.
  - rewrite totalOn_cons, countOn_cons. pose proof (moodValue_range (emoji m)).
    destruct (fallsOn day m); lia.
Qed.

Lemma addDay_none (moods : list MoodEntry) : fold_left addDay moods None = None.
Proof. induction moods; simpl; auto. Qed.

(** What [dayStats] holds after the loop over the entries. *)
Lemma addDay_fold (moods : list MoodEntry) :
  forall s0 s,
    fold_left addDay moods (Some s0) = Some s ->
    map fst s = map fst s0
    /\ forall day t0 c0,
         prop s0 day = Some (t0, c0) ->
         prop s day = Some (t0 + totalOn day moods, c0 + countOn day moods).
Proof.
  induction moods as [|m moods IH]; intros s0 s H.
  - simpl in H. injection H as <-. split; [reflexivity|].
    intros day t0 c0 P. unfold totalOn, countOn. simpl.
    now rewrite !Z.add_0_r.
  - simpl in H.
    destruct (getDay (Date_parse (date m))) as [k|] eqn:G;
      [|now rewrite addDay_none in H].
    destruct (at_index WEEKDAYS k) as [name|] eqn:W;
      [|now rewrite addDay_none in H].
    destruct (prop s0 name) as [[t c]|] eqn:P0;
      [|now rewrite addDay_none in H].
    destruct (IH _ _ H) as [Hk Hv]. split.
    + rewrite Hk, setProp_keys. now rewrite P0.
    + intros day t0 c0 P. rewrite totalOn_cons, countOn_cons.
      unfold fallsOn, weekdayOf. rewrite G, W.
      destruct (String.eqb name day) eqn:E.
      * apply String.eqb_eq in E. subst day. rewrite P0 in P.
        injection P as <- <-.
        rewrite (Hv name (t + moodValue (emoji m)) (c + 1)).
        -- f_equal. f_equal; lia.
        -- rewrite prop_setProp. now rewrite String.eqb_refl.
      * rewrite (Hv day t0 c0); [reflexivity|].
        rewrite prop_setProp. now rewrite E.
Qed.

Lemma weekday_named (m : MoodEntry) :
  dated m -> exists name, weekdayOf m = Some name /\ In name WEEKDAYS.
Proof.
  intros Hm. destruct (dated_time m Hm) as [t Ht]. unfold weekdayOf.
  rewrite Ht. cbn [getDay option_map].
  pose proof (Z.mod_pos_bound (Day (t + LocalTZA) + 4) 7 ltac:(lia)) as Hk.
  set (k := (Day (t + LocalTZA) + 4) mod 7) in *.
  assert (Hcases : k = 0 \/ k = 1 \/ k = 2 \/ k = 3 \/ k = 4 \/ k = 5 \/ k = 6)
    by lia.
  destruct Hcases as [-> | [-> | [-> | [-> | [-> | [-> | ->]]]]]];
    (eexists; split; [reflexivity|simpl; tauto]).
Qed.

(** On entries with valid dates the loop over the entries ends normally. *)
Lemma addDay_total (moods : list MoodEntry) :
  forall s0 : DayStats, map fst s0 = WEEKDAYS -> Forall dated moods ->
             exists s, fold_left addDay moods (Some s0) = Some s.
Proof.
  induction moods as [|m moods IH]; intros s0 Hk Hd; simpl.
  - now exists s0.
  - inversion Hd as [|? ? Hm Hd']; subst.
    destruct (weekday_named m Hm) as (name & Hw & Hin).
    unfold weekdayOf in Hw.
    destruct (getDay (Date_parse (date m))) as [k|]; [|discriminate].
    rewrite Hw.
    destruct (prop s0 name) as [[t c]|] eqn:P.
    + apply IH; [|assumption]. rewrite setProp_keys, P. exact Hk.
    + exfalso. apply prop_None in P. now rewrite Hk in P.
Qed.

(** *** The search for the best and the worst day *)

Lemma Qgtb_true (a b : Q) : Qgtb a b = true -> (b < a)%Q.
Proof.
  unfold Qgtb. intros H. apply negb_true_iff in H.
  apply Qnot_le_lt. intros Hle. apply Qle_bool_iff in Hle. congruence.
Qed.

Lemma Qgtb_false (a b : Q) : Qgtb a b = false -> (a <= b)%Q.
Proof.
  unfold Qgtb. intros H. apply negb_false_iff in H. now apply Qle_bool_iff.
Qed.

Lemma visitDay_searched (seen : DayStats) (x : Extremes) (kv : string * (Z * Z)) :
  Searched seen x -> Searched (seen ++ [kv]) (visitDay x kv).
Proof.
  intros [Hin Hb Hw Hu]. destruct kv as [day [total count]].
  unfold visitDay.
  destruct (2 <=? count) eqn:C.
  - apply Z.leb_le in C. set (avg := average total count).
    assert (Hself : In (day, (total, count)) (seen ++ [(day, (total, count))]))
      by (apply in_or_app; right; now left).
    destruct (Qgtb avg (bestAvg x)) eqn:B; cbn [bestAvg worstAvg bestDay worstDay];
      destruct (Qgtb _ avg) eqn:W; cbn [bestAvg worstAvg bestDay worstDay] in *.
    + apply Qgtb_true in B, W. constructor; cbn [bestAvg worstAvg bestDay worstDay].
      * intros kv Hkv Hc. apply in_app_or in Hkv as [Hkv|[<-|[]]].
        -- destruct (Hin kv Hkv Hc) as [H1 H2]. split.
           ++ apply Qlt_le_weak. eapply Qle_lt_trans; eassumption.
           ++ apply Qlt_le_weak. eapply Qlt_le_trans; eassumption.
        -- split; apply Qle_refl.
      * intros d [= <-]. exists (day, (total, count)). repeat split; auto.
      * intros d [= <-]. exists (day, (total, count)). repeat split; auto.
      * discriminate.
    + apply Qgtb_true in B. apply Qgtb_false in W.
      constructor; cbn [bestAvg worstAvg bestDay worstDay].
      * intros kv Hkv Hc. apply in_app_or in Hkv as [Hkv|[<-|[]]].
        -- destruct (Hin kv Hkv Hc) as [H1 H2]. split; [|assumption].
           apply Qlt_le_weak. eapply Qle_lt_trans; eassumption.
        -- split; [apply Qle_refl|assumption].
      * intros d [= <-]. exists (day, (total, count)). repeat split; auto.
      * intros d Hd. destruct (Hw d Hd) as (kv & Hkv & H).
        exists kv. split; [apply in_or_app; now left|assumption].
      * discriminate.
    + apply Qgtb_false in B. apply Qgtb_true in W.
      constructor; cbn [bestAvg worstAvg bestDay worstDay].
      * intros kv Hkv Hc. apply in_app_or in Hkv as [Hkv|[<-|[]]].
        -- destruct (Hin kv Hkv Hc) as [H1 H2]. split; [assumption|].
           apply Qlt_le_weak. eapply Qlt_le_trans; eassumption.
        -- split; [assumption|apply Qle_refl].
      * intros d Hd. destruct (Hb d Hd) as (kv & Hkv & H).
        exists kv. split; [apply in_or_app; now left|assumption].
      * intros d [= <-]. exists (day, (total, count)). repeat split; auto.
      * exact Hu.
    + apply Qgtb_false in B, W. constructor.
      * intros kv Hkv Hc. apply in_app_or in Hkv as [Hkv|[<-|[]]].
        -- now apply Hin.
        -- split; assumption.
      * intros d Hd. destruct (Hb d Hd) as (kv & Hkv & H).
        exists kv. split; [apply in_or_app; now left|assumption].
      * intros d Hd. destruct (Hw d Hd) as (kv & Hkv & H).
        exists kv. split; [apply in_or_app; now left|assumption].
      * exact Hu.
  - apply Z.leb_gt in C. constructor.
    + intros kv Hkv Hc. apply in_app_or in Hkv as [Hkv|[<-|[]]].
      * now apply Hin.
      * unfold counted in Hc. simpl in Hc. lia.
    + intros d Hd. destruct (Hb d Hd) as (kv & Hkv & H).
      exists kv. split; [apply in_or_app; now left|assumption].
    + intros d Hd. destruct (Hw d Hd) as (kv & Hkv & H).
      exists kv. split; [apply in_or_app; now left|assumption].
    + exact Hu.
Qed.

Lemma extremes_searched (L : DayStats) :
  forall seen x, Searched seen x -> Searched (seen ++ L) (fold_left visitDay L x).
Proof.
  induction L as [|kv L IH]; intros seen x H; simpl.
  - now rewrite app_nil_r.
  - change (seen ++ kv :: L) with (seen ++ [kv] ++ L). rewrite app_assoc.
    apply IH. now apply visitDay_searched.
Qed.

Lemma WEEKDAYS_NoDup : NoDup WEEKDAYS.
Proof.
  unfold WEEKDAYS. repeat constructor; simpl; intuition discriminate.
Qed.

Lemma dayStats0_prop (day : string) :
  In day WEEKDAYS -> prop dayStats0 day = Some (0, 0).
Proof.
  unfold WEEKDAYS. simpl.
  intros [<-|[<-|[<-|[<-|[<-|[<-|[<-|[]]]]]]]]; reflexivity.
Qed.

(** [dayStats] after the loop: per weekday, the total and the count of
    the entries filed under it. *)
Lemma dayStats_entries (st : Store) (stats : DayStats) :
  fold_left addDay st (Some dayStats0) = Some stats ->
  Object_entries stats = stats
  /\ forall kv, In kv stats
                <-> In (fst kv) WEEKDAYS
                    /\ snd kv = (totalOn (fst kv) st, countOn (fst kv) st).
Proof.
  intros H. destruct (addDay_fold st _ _ H) as [Hk Hv].
  change (map fst dayStats0) with WEEKDAYS in Hk.
  assert (Hnd : NoDup (map fst stats)) by (rewrite Hk; apply WEEKDAYS_NoDup).
  split.
  - apply Object_entries_plain. rewrite Forall_forall. intros kv Hkv.
    assert (Hin : In (fst kv) WEEKDAYS) by (rewrite <- Hk; now apply in_map).
    unfold WEEKDAYS in Hin. simpl in Hin.
    destruct Hin as [<-|[<-|[<-|[<-|[<-|[<-|[<-|[]]]]]]]]; reflexivity.
  - intros [d v]. simpl. split.
    + intros Hin.
      assert (Hd : In d WEEKDAYS)
        by (rewrite <- Hk; apply in_map_iff; now exists (d, v)).
      split; [assumption|].
      pose proof (prop_In _ _ _ Hnd Hin) as P.
      rewrite (Hv d 0 0 (dayStats0_prop d Hd)) in P. simpl in P. congruence.
    + intros [Hd ->]. apply prop_Some_In.
      now rewrite (Hv d 0 0 (dayStats0_prop d Hd)).
Qed.

Lemma average_positive (day : string) (st : Store) :
  2 <= countOn day st -> (0 < averageOn day st)%Q.
Proof.
  intros H. pose proof (totalOn_count day st).
  unfold averageOn, average, Qlt. simpl. lia.
Qed.

(** The insights by the weekday [generateWeeklyInsights] files an entry
    under, [weekdayOf]: the weekday, in local time, of UTC midnight of the
    date of the entry.  With fewer than seven entries the list is empty.
    On entries with valid dates the function returns normally.  In a list
    it returns for entries whose emojis name no member that the value table
    inherits from [Object.prototype]: the weekday of the best-day insight
    has at least two entries and the highest average mood value among the
    weekdays with at least two entries; the weekday of the worst-day
    insight has at least two entries and the lowest such average, and is
    not the weekday of the best-day insight; and with seven entries or
    more a best-day insight is present as soon as some weekday has at
    least two entries. *)
Lemma generateWeeklyInsights_local :
  (forall now st,
      Z.of_nat (List.length st) < 7 -> generateWeeklyInsights now st = Return [])
  /\ (forall now st,
        Forall dated st -> exists ins, generateWeeklyInsights now st = Return ins)
  /\ (forall now st ins,
        Forall (fun m => ownKey (emoji m)) st ->
        generateWeeklyInsights now st = Return ins ->
        (forall d, In (Happiest d) ins ->
                   eligible d st
                   /\ forall d', eligible d' st ->
                                 (averageOn d' st <= averageOn d st)%Q)
        /\ (forall d, In (Tougher d) ins ->
                      eligible d st
                      /\ (forall d', eligible d' st ->
                                     (averageOn d st <= averageOn d' st)%Q)
                      /\ ~ In (Happiest d) ins)
        /\ (7 <= Z.of_nat (List.length st) -> (exists d, eligible d st) ->
            exists d, In (Happiest d) ins)).
Proof.
  split; [|split].
  - intros now st H. unfold generateWeeklyInsights, getAllMoods.
    apply Z.ltb_lt in H. now rewrite H.
  - intros now st Hd. unfold generateWeeklyInsights, getAllMoods.
    destruct (Z.of_nat (List.length st) <? 7); [now eexists|].
    destruct (addDay_total st dayStats0 eq_refl Hd) as [s Hs].
    eexists. rewrite Hs. reflexivity.
  - intros now st ins _. unfold generateWeeklyInsights, getAllMoods.
    destruct (Z.of_nat (List.length st) <? 7) eqn:Len.
    { intros [= <-]. apply Z.ltb_lt in Len.
      repeat split; try contradiction. lia. }
    destruct (fold_left addDay st (Some dayStats0)) as [stats|] eqn:F;
      [|discriminate].
    destruct (dayStats_entries st stats F) as [Hplain Hstats].
    assert (Hx : Searched stats (extremes stats)).
    { unfold extremes. rewrite Hplain.
      apply (extremes_searched stats [] (mkExtremes None None 0%Q 5%Q)).
      constructor; cbn; try discriminate; try contradiction. reflexivity. }
    set (x := extremes stats) in *.
    set (i3 := match sort byCountDesc (Object_entries (tally st)) with
               | (e, c) :: _ => [MostFrequent e c (Z.of_nat (List.length st))]
               | [] => []
               end).
    set (i4 := if 7 <=? getCurrentStreakDays now st
               then [StreakNote (getCurrentStreakDays now st)] else []).
    intros [= <-].
    assert (H3 : forall d, ~ In (Happiest d) i3 /\ ~ In (Tougher d) i3).
    { intros d. unfold i3.
      destruct (sort byCountDesc _) as [|[e c] ?]; simpl;
        intuition discriminate. }
    assert (H4 : forall d, ~ In (Happiest d) i4 /\ ~ In (Tougher d) i4).
    { intros d. unfold i4. destruct (7 <=? _); simpl; intuition discriminate. }
    assert (Hbest : forall d, In (Happiest d)
                                 (match bestDay x with
                                  | Some day => [Happiest day]
                                  | None => []
                                  end ++
                                  match worstDay x with
                                  | Some day =>
                                      if differs (worstDay x) (bestDay x)
                                      then [Tougher day] else []
                                  | None => []
                                  end ++ i3 ++ i4)
                              <-> bestDay x = Some d).
    { intros d. rewrite !in_app_iff. split.
      - intros [H|[H|[H|H]]].
        + destruct (bestDay x); simpl in H; [|contradiction].
          destruct H as [[= ->]|[]]. reflexivity.
        + destruct (worstDay x); [|contradiction].
          destruct (differs _ _); simpl in H; intuition discriminate.
        + now apply H3 in H.
        + now apply H4 in H.
      - intros ->. left. now left. }
    assert (Hworst : forall d, In (Tougher d)
                                 (match bestDay x with
                                  | Some day => [Happiest day]
                                  | None => []
                                  end ++
                                  match worstDay x with
                                  | Some day =>
                                      if differs (worstDay x) (bestDay x)
                                      then [Tougher day] else []
                                  | None => []
                                  end ++ i3 ++ i4)
                               -> worstDay x = Some d
                                  /\ differs (worstDay x) (bestDay x) = true).
    { intros d. rewrite !in_app_iff. intros [H|[H|[H|H]]].
      - destruct (bestDay x); simpl in H; intuition discriminate.
      - destruct (worstDay x); [|contradiction].
        destruct (differs _ _); simpl in H; [|contradiction].
        destruct H as [[= ->]|[]]. auto.
      - now apply H3 in H.
      - now apply H4 in H. }
    assert (Helig : forall d, eligible d st ->
              In (d, (totalOn d st, countOn d st)) stats
              /\ counted (d, (totalOn d st, countOn d st))).
    { intros d [Hd Hc]. split; [|exact Hc]. apply Hstats. now split. }
    split; [|split].
    + intros d Hd. apply Hbest in Hd.
      destruct (best_seen _ _ Hx d Hd) as ([d0 [t c]] & Hin & E & Hc & Havg).
      simpl in E. subst d0. apply Hstats in Hin as [Hwd Hv].
      simpl in Hwd, Hv. injection Hv as -> ->.
      split; [split; assumption|].
      intros d' Hd'. destruct (Helig d' Hd') as [Hin' Hc'].
      destruct (within _ _ Hx _ Hin' Hc') as [Hle _].
      rewrite Havg in Hle. exact Hle.
    + intros d Hd. apply Hworst in Hd as [Hd Hdiff].
      destruct (worst_seen _ _ Hx d Hd) as ([d0 [t c]] & Hin & E & Hc & Havg).
      simpl in E. subst d0. apply Hstats in Hin as [Hwd Hv].
      simpl in Hwd, Hv. injection Hv as -> ->.
      split; [split; assumption|]. split.
      * intros d' Hd'. destruct (Helig d' Hd') as [Hin' Hc'].
        destruct (within _ _ Hx _ Hin' Hc') as [_ Hle].
        rewrite Havg in Hle. exact Hle.
      * intros Hb. apply Hbest in Hb. rewrite Hd, Hb in Hdiff. simpl in Hdiff.
        now rewrite String.eqb_refl in Hdiff.
    + intros _ [d Hd]. destruct (bestDay x) as [b|] eqn:B.
      * exists b. apply Hbest. reflexivity.
      * exfalso. destruct (Helig d Hd) as [Hin Hc].
        destruct (within _ _ Hx _ Hin Hc) as [Hle _].
        rewrite (best_unset _ _ Hx B) in Hle.
        apply (Qlt_not_le _ _ (average_positive d st (proj2 Hd))). exact Hle.
Qed.

(** ** Current streak *)

Lemma streakLoop_agree (rest : list MoodEntry) :
  forall expectedDate streak,
    streakLoop expectedDate streak rest = streakDaysLoop expectedDate streak rest.
Proof.
  induction rest as [|m rest IH]; intros expectedDate streak; simpl.
  - reflexivity.
  - destruct (sameTime _ _); [apply IH|reflexivity].
Qed.

(** C10.  For every store and every reading of the clock, [getCurrentStreak]
    of stats.js and [getCurrentStreakDays] of features.js, called as
    [generateWeeklyInsights] calls it on the array [getAllMoods] returns,
    give the same number. *)
Theorem getCurrentStreak_agrees (now : Z) (st : Store) :
  getCurrentStreak now st = getCurrentStreakDays now (getAllMoods st).
Proof.
  unfold getCurrentStreak, getCurrentStreakDays, getAllMoods.
  destruct (sort byDateDesc st) as [|latest rest]; [reflexivity|].
  destruct (before _ _); [reflexivity|].
  apply streakLoop_agree.
Qed.

(** *** At and east of UTC *)

Section EastOfUTC.
Hypothesis east : 0 <= LocalTZA < msPerDay.

Lemma Day_local (k : Z) : Day (msPerDay * k + LocalTZA) = k.
Proof.
  unfold Day. symmetry. apply (Z.div_unique _ _ k LocalTZA); [|reflexivity].
  left. exact east.
Qed.

Lemma setHours0_calendar (m : MoodEntry) :
  onCalendar m ->
  setHours0 (Date_parse (date m)) = Some (msPerDay * dayOf m - LocalTZA).
Proof.
  intros Hm. rewrite (onCalendar_parse m Hm). cbn [setHours0 option_map].
  rewrite Day_local. f_equal. ring.
Qed.

Lemma expects_prev (e : Date) (k : Z) :
  expects e k ->
  setHours0 (setDatePrev e) = Some (msPerDay * (k - 1) - LocalTZA).
Proof.
  intros [->| ->]; cbn [setDatePrev setHours0 option_map]; f_equal.
  - replace (msPerDay * k - msPerDay + LocalTZA)
      with (msPerDay * (k - 1) + LocalTZA) by ring.
    rewrite Day_local. ring.
  - replace (msPerDay * k - LocalTZA - msPerDay + LocalTZA)
      with (msPerDay * (k - 1)) by ring.
    replace (Day (msPerDay * (k - 1))) with (k - 1); [ring|].
    unfold Day. apply (Z.div_unique _ _ (k - 1) 0); unfold msPerDay; lia.
Qed.

Lemma streakLoop_step (e : Date) (k r : Z) (m : MoodEntry)
    (rest : list MoodEntry) :
  expects e k -> onCalendar m ->
  streakLoop e r (m :: rest)
  = if dayOf m =? k - 1
    then streakLoop (Some (msPerDay * (k - 1) - LocalTZA)) (r + 1) rest
    else r.
Proof.
  intros He Hm. cbn [streakLoop].
  rewrite (expects_prev e k He), (setHours0_calendar m Hm). cbn [sameTime].
  destruct (dayOf m =? k - 1) eqn:E.
  - apply Z.eqb_eq in E. rewrite E, Z.eqb_refl. reflexivity.
  - apply Z.eqb_neq in E.
    destruct (msPerDay * dayOf m - LocalTZA =? msPerDay * (k - 1) - LocalTZA)
      eqn:E'; [|reflexivity].
    apply Z.eqb_eq in E'. unfold msPerDay in E'. lia.
Qed.

(** The loop counts the days before [k] that follow one another down. *)
Lemma streakLoop_counts (rest : list MoodEntry) :
  forall e k r,
    expects e k -> Forall onCalendar rest -> descending rest ->
    (forall m, In m rest -> dayOf m < k) ->
    r <= streakLoop e r rest
    /\ (forall j, 1 <= j <= streakLoop e r rest - r ->
                  In (k - j) (map dayOf rest))
    /\ ~ In (k - (streakLoop e r rest - r) - 1) (map dayOf rest).
Proof.
  induction rest as [|m rest IH]; intros e k r He Hcal Hdesc Hlt.
  - simpl. split; [lia|]. split; [intros j Hj; lia|tauto].
  - inversion Hcal as [|? ? Hm Hcal']; subst.
    inversion Hdesc as [|? ? Hdesc' Hbelow]; subst.
    rewrite (streakLoop_step e k r m rest He Hm).
    assert (Hmk : dayOf m < k) by (apply Hlt; now left).
    assert (Hrest : forall y, In y (map dayOf rest) -> y < dayOf m).
    { intros y Hy. apply in_map_iff in Hy as (z & <- & Hz).
      rewrite Forall_forall in Hbelow. now apply Hbelow. }
    destruct (dayOf m =? k - 1) eqn:E.
    + apply Z.eqb_eq in E.
      destruct (IH (Some (msPerDay * (k - 1) - LocalTZA)) (k - 1) (r + 1))
        as (Hge & Hrun & Hstop); auto.
      * now right.
      * intros z Hz. rewrite <- E. apply Hrest. now apply in_map.
      * set (r' := streakLoop _ (r + 1) rest) in *.
        split; [lia|]. split.
        -- intros j Hj. destruct (Z.eq_dec j 1) as [->|Hj1].
           ++ left. lia.
           ++ right. replace (k - j) with (k - 1 - (j - 1)) by lia.
              apply Hrun. lia.
        -- intros [H|H].
           ++ lia.
           ++ apply Hstop. replace (k - 1 - (r' - (r + 1)) - 1)
                with (k - (r' - r) - 1) by lia. exact H.
    + apply Z.eqb_neq in E. split; [lia|]. split; [intros j Hj; lia|].
      replace (k - (r - r) - 1) with (k - 1) by lia.
      intros [H|H]; [lia|]. apply Hrest in H. lia.
Qed.

Lemma sort_byDateDesc_descending (l : list MoodEntry) :
  Forall onCalendar l -> NoDup (map dayOf l) -> descending (sort byDateDesc l).
Proof.
  intros Hcal Hnd.
  assert (Hs : StronglySorted (fun a b => dayOf b <= dayOf a) (sort byDateDesc l)).
  { revert Hcal. apply sort_sorted; unfold byDateDesc.
    - intros x y Hx Hy.
      rewrite (onCalendar_parse x Hx), (onCalendar_parse y Hy).
      cbn [elapsed JS.positive]. intros H. apply Z.ltb_ge in H.
      unfold msPerDay in H. lia.
    - intros x y Hx Hy.
      rewrite (onCalendar_parse x Hx), (onCalendar_parse y Hy).
      cbn [elapsed JS.positive]. intros H. apply Z.ltb_lt in H.
      unfold msPerDay in H. lia.
    - intros. lia. }
  assert (Hnd' : NoDup (map dayOf (sort byDateDesc l))).
  { eapply Permutation_NoDup; [apply Permutation_map, sort_perm|exact Hnd]. }
  clear - Hs Hnd'. induction Hs as [|a l' Hs IH Hall]; [constructor|].
  simpl in Hnd'. inversion Hnd' as [|? ? Hnot Hnd'']; subst.
  constructor; [now apply IH|].
  rewrite Forall_forall in *. intros b Hb. specialize (Hall b Hb).
  assert (dayOf b <> dayOf a).
  { intros E. apply Hnot. rewrite <- E. now apply in_map. }
  lia.
Qed.

(** What [getCurrentStreak] computes where local time is at or ahead of UTC,
    on calendar dates, one entry per date.  With [latest] the day of the
    most recent entry and today the local day of the clock: [0] when
    [latest] is before yesterday; otherwise the number of consecutive days
    with an entry counted back from [latest], up to the first day without
    one. *)
Lemma getCurrentStreak_east_of_UTC (now : Z) (st : Store) :
  Forall onCalendar st -> uniqueDates st -> st <> [] ->
  exists latest,
    hasEntryOn st latest
    /\ (forall k, hasEntryOn st k -> k <= latest)
    /\ (latest < Day (now + LocalTZA) - 1 -> getCurrentStreak now st = 0)
    /\ (Day (now + LocalTZA) - 1 <= latest ->
        1 <= getCurrentStreak now st
        /\ daysInARow st (latest - getCurrentStreak now st + 1)
                      (getCurrentStreak now st)
        /\ ~ hasEntryOn st (latest - getCurrentStreak now st)).
Proof.
  intros Hcal Hu Hne. unfold getCurrentStreak, getAllMoods.
  pose proof (uniqueDates_days st Hcal Hu) as Hnd.
  pose proof (sort_perm byDateDesc st) as Hp.
  pose proof (sort_byDateDesc_descending st Hcal Hnd) as Hdesc.
  assert (Hcal' : Forall onCalendar (sort byDateDesc st))
    by (apply (Permutation_Forall Hp); assumption).
  assert (Hdays : forall k, hasEntryOn st k
                            <-> In k (map dayOf (sort byDateDesc st))).
  { intros k. rewrite hasEntryOn_days by assumption. split; intros H.
    - eapply Permutation_in; [apply Permutation_map, Hp|assumption].
    - eapply Permutation_in;
        [apply Permutation_map, Permutation_sym, Hp|assumption]. }
  destruct (sort byDateDesc st) as [|latest rest] eqn:E.
  { destruct st; [contradiction|]. apply Permutation_length in Hp. discriminate. }
  inversion Hcal' as [|? ? Hl Hcalr]; subst.
  inversion Hdesc as [|? ? Hdescr Hbelow]; subst.
  assert (Hlt : forall m, In m rest -> dayOf m < dayOf latest).
  { rewrite Forall_forall in Hbelow. exact Hbelow. }
  exists (dayOf latest). split; [apply Hdays; now left|]. split.
  { intros k Hk. apply Hdays in Hk as [<-|Hk]; [lia|].
    apply in_map_iff in Hk as (z & <- & Hz). specialize (Hlt z Hz). lia. }
  rewrite (setHours0_calendar latest Hl).
  cbn [setHours0 setDatePrev option_map before].
  split.
  - intros Hold.
    destruct (_ <? _) eqn:B; [reflexivity|].
    apply Z.ltb_ge in B. unfold msPerDay in B. lia.
  - intros Hnew.
    destruct (_ <? _) eqn:B.
    { apply Z.ltb_lt in B. unfold msPerDay in B. lia. }
    destruct (streakLoop_counts rest (Date_parse (date latest)) (dayOf latest) 1)
      as (Hge & Hrun & Hstop); auto.
    { left. now apply onCalendar_parse. }
    set (r := streakLoop (Date_parse (date latest)) 1 rest) in *.
    split; [exact Hge|]. split.
    + intros j Hj. apply Hdays.
      destruct (Z.eq_dec j (r - 1)) as [->|Hj1].
      * left. lia.
      * right. replace (dayOf latest - r + 1 + j)
          with (dayOf latest - (r - 1 - j)) by lia.
        apply Hrun. lia.
    + intros H. apply Hdays in H as [H|H]; [lia|].
      apply Hstop. replace (dayOf latest - (r - 1) - 1)
        with (dayOf latest - r) by lia. exact H.
Qed.

End EastOfUTC.

(** *** West of UTC *)

(** X24.  Where local time is behind UTC, the UTC midnight a calendar date
    is parsed to falls on the evening before, local time: [getCurrentStreak]
    is [0] as soon as the latest entry is dated before the local day of the
    clock, yesterday included. *)
Lemma streak_broken_west_of_UTC (now : Z) (st : Store)
    (latest : MoodEntry) (rest : list MoodEntry) :
  - msPerDay <= LocalTZA < 0 ->
  sort byDateDesc (getAllMoods st) = latest :: rest -> onCalendar latest ->
  dayOf latest < Day (now + LocalTZA) ->
  getCurrentStreak now st = 0.
Proof.
  intros Hwest Hsort Hl Hbefore. unfold getCurrentStreak. rewrite Hsort.
  rewrite (onCalendar_parse latest Hl).
  cbn [setHours0 setDatePrev option_map before].
  replace (Day (msPerDay * dayOf latest + LocalTZA)) with (dayOf latest - 1).
  - destruct (_ <? _) eqn:B; [reflexivity|].
    apply Z.ltb_ge in B. unfold msPerDay in B. lia.
  - unfold Day.
    apply (Z.div_unique _ _ (dayOf latest - 1) (msPerDay + LocalTZA));
      unfold msPerDay in *; lia.
Qed.

(** ** CSV import *)

(** When [importFromCSV] throws: the trimmed text has fewer than two
    lines, or the lower-cased header line does not contain the text [date]
    or does not contain the text [emoji]. *)
Lemma importFromCSV_throws (now : Z) (csvContent : string) (st : Store) :
  let lines := split LF (trim csvContent) in
  let header := toLowerCase (hd EmptyString lines) in
  (exists message, fst (importFromCSV now csvContent st) = Throw message)
  <-> (Z.of_nat (List.length lines) < 2
       \/ includes header "date" = false \/ includes header "emoji" = false).
Proof.
  intros lines header. unfold importFromCSV. fold lines. fold header.
  destruct (Z.of_nat (List.length lines) <? 2) eqn:L.
  - apply Z.ltb_lt in L. split; [auto|]. intros _. now eexists.
  - apply Z.ltb_ge in L.
    destruct (includes header "date") eqn:D, (includes header "emoji") eqn:E;
      cbn [negb orb].
    + destruct (fold_left _ _ _) as [imported st']. cbn [fst]. split.
      * intros [message H]. discriminate.
      * intros [H|[H|H]]; [lia|discriminate|discriminate].
    + split; [auto|]. intros _. now eexists.
    + split; [auto|]. intros _. now eexists.
    + split; [auto|]. intros _. now eexists.
Qed.

Lemma importLine_row (now dateIndex emojiIndex noteIndex imported : Z)
    (st : Store) (row : string) :
  importLine now dateIndex emojiIndex noteIndex (imported, st) row
  = if acceptedRow dateIndex emojiIndex row
    then (imported + 1, saveRow now dateIndex emojiIndex noteIndex st row)
    else (imported, st).
Proof.
  unfold importLine, acceptedRow, saveRow.
  destruct (String.eqb (trim row) EmptyString); cbn [negb andb]; [reflexivity|].
  now destruct (truthy _ && truthy _ && isValidDate _).
Qed.

Lemma importLine_fold (now dateIndex emojiIndex noteIndex : Z)
    (rows : list string) :
  forall imported st,
    fold_left (importLine now dateIndex emojiIndex noteIndex) rows (imported, st)
    = (imported
       + Z.of_nat (List.length (filter (acceptedRow dateIndex emojiIndex) rows)),
       fold_left (saveRow now dateIndex emojiIndex noteIndex)
                 (filter (acceptedRow dateIndex emojiIndex) rows) st).
Proof.
  induction rows as [|row rows IH]; intros imported st.
  - simpl. now rewrite Z.add_0_r.
  - cbn [fold_left filter]. rewrite importLine_row.
    destruct (acceptedRow dateIndex emojiIndex row).
    + rewrite IH. cbn [fold_left List.length]. f_equal. lia.
    + apply IH.
Qed.

(** When [importFromCSV] does not throw: it saves the accepted data lines,
    in their order, each through [saveMood] without tags, skips the other
    lines, and returns how many it saved. *)
Lemma importFromCSV_rows (now : Z) (csvContent : string) (st : Store) :
  let lines := split LF (trim csvContent) in
  let header := toLowerCase (hd EmptyString lines) in
  let headers := map trim (split comma header) in
  let dateIndex := indexOf headers "date" in
  let emojiIndex := indexOf headers "emoji" in
  let noteIndex := indexOf headers "note" in
  let rows := filter (acceptedRow dateIndex emojiIndex) (tl lines) in
  2 <= Z.of_nat (List.length lines) ->
  includes header "date" = true -> includes header "emoji" = true ->
  importFromCSV now csvContent st
  = (Return (Z.of_nat (List.length rows)),
     fold_left (saveRow now dateIndex emojiIndex noteIndex) rows st).
Proof.
  intros lines header headers dateIndex emojiIndex noteIndex rows HL HD HE.
  unfold importFromCSV. fold lines. fold header. fold headers.
  fold dateIndex. fold emojiIndex. fold noteIndex.
  apply Z.ltb_ge in HL. rewrite HL, HD, HE. cbn [negb orb].
  now rewrite importLine_fold.
Qed.

(** ** CSV: what survives export and import *)

Local Abbreviation chars := list_ascii_of_string.

Lemma ws2_ascii_l (a b : ascii) : code a < 128 -> ws2 a b = false.
Proof.
  intros H. unfold ws2. destruct (code a =? 194) eqn:E; [|reflexivity].
  apply Z.eqb_eq in E. lia.
Qed.

Lemma ws2_ascii_r (a b : ascii) : code b < 128 -> ws2 a b = false.
Proof.
  intros H. unfold ws2. destruct (code b =? 160) eqn:E.
  - apply Z.eqb_eq in E. lia.
  - apply andb_false_r.
Qed.

Lemma ws3_ascii_l (a b c : ascii) : code a < 128 -> ws3 a b c = false.
Proof.
  intros H. unfold ws3.
  repeat match goal with
         | |- context [code a =? ?n] =>
             let E := fresh in
             destruct (code a =? n) eqn:E; [apply Z.eqb_eq in E; lia|]
         end.
  reflexivity.
Qed.

Lemma ws3_ascii_r (a b c : ascii) : code c < 128 -> ws3 a b c = false.
Proof.
  intros H. unfold ws3.
  repeat match goal with
         | |- context [code c =? ?n] =>
             let E := fresh in
             destruct (code c =? n) eqn:E; [apply Z.eqb_eq in E; lia|]
         end.
  destruct (128 <=? code c) eqn:E; [apply Z.leb_le in E; lia|].
  cbn [andb orb]. rewrite !andb_false_r. reflexivity.
Qed.

Lemma trimStartBytes_clean (a : ascii) (l : list ascii) :
  clean a -> trimStartBytes (a :: l) = a :: l.
Proof.
  intros [Hw Ha]. cbn [trimStartBytes]. rewrite Hw.
  destruct l as [|b l]; [reflexivity|]. rewrite ws2_ascii_l by assumption.
  destruct l as [|c l]; [reflexivity|]. now rewrite ws3_ascii_l.
Qed.

Lemma trimEndBytes_clean (a : ascii) (l : list ascii) :
  clean a -> trimEndBytes (a :: l) = a :: l.
Proof.
  intros [Hw Ha]. cbn [trimEndBytes]. rewrite Hw.
  destruct l as [|b l]; [reflexivity|]. rewrite ws2_ascii_r by assumption.
  destruct l as [|c l]; [reflexivity|]. now rewrite ws3_ascii_r.
Qed.

(** A text that starts and ends with clean characters is its own trim. *)
Lemma trim_clean (a z : ascii) (mid : list ascii) :
  clean a -> clean z ->
  trim (string_of_list_ascii (a :: mid ++ [z]))
  = string_of_list_ascii (a :: mid ++ [z]).
Proof.
  intros Ha Hz. unfold trim. rewrite list_ascii_of_string_of_list_ascii.
  rewrite trimStartBytes_clean by assumption.
  change (a :: mid ++ [z]) with ((a :: mid) ++ [z]).
  rewrite rev_app_distr. cbn [rev app].
  rewrite trimEndBytes_clean by assumption.
  change (z :: rev mid ++ [a]) with ([z] ++ rev (a :: mid)).
  now rewrite rev_app_distr, rev_involutive.
Qed.

Lemma chars_app (a b : string) : chars (a ++ b)%string = chars a ++ chars b.
Proof. induction a as [|c a IH]; simpl; [reflexivity|]. now rewrite IH. Qed.

Lemma split_line (x rest : string) :
  ~ In LF (chars x) ->
  split LF (x ++ String LF rest)%string = x :: split LF rest.
Proof.
  induction x as [|c x IH]; intros H; cbn [append split].
  - now rewrite Ascii.eqb_refl.
  - destruct (Ascii.eqb c LF) eqn:E.
    + apply Ascii.eqb_eq in E. exfalso. apply H. left. now subst.
    + rewrite IH; [reflexivity|]. intros Hin. apply H. now right.
Qed.

Lemma split_last (x : string) : ~ In LF (chars x) -> split LF x = [x].
Proof.
  induction x as [|c x IH]; intros H; cbn [split]; [reflexivity|].
  destruct (Ascii.eqb c LF) eqn:E.
  - apply Ascii.eqb_eq in E. exfalso. apply H. left. now subst.
  - rewrite IH; [reflexivity|]. intros Hin. apply H. now right.
Qed.

Lemma join_cons (sep x y : string) (l : list string) :
  join sep (x :: y :: l) = (x ++ sep ++ join sep (y :: l))%string.
Proof. reflexivity. Qed.

Lemma split_join (lines : list string) :
  lines <> [] -> Forall (fun x => ~ In LF (chars x)) lines ->
  split LF (join (String LF EmptyString) lines) = lines.
Proof.
  induction lines as [|x lines IH]; intros Hne Hall; [contradiction|].
  inversion Hall as [|? ? Hx Hall']; subst.
  destruct lines as [|y lines].
  - simpl. now apply split_last.
  - rewrite join_cons. cbn [append]. rewrite split_line by assumption.
    f_equal. apply IH; [discriminate|assumption].
Qed.

(** The scan of [parseCSVLine] over a stretch without quotes, and without
    commas unless inside quotes. *)
Lemma csv_stretch (s : string) :
  forall values current inQuotes,
    ~ In quote (chars s) -> (inQuotes = false -> ~ In comma (chars s)) ->
    fold_left csvStep (chars s) (values, current, inQuotes)
    = (values, (current ++ s)%string, inQuotes).
Proof.
  induction s as [|c s IH]; intros values current inQuotes Hq Hc.
  - simpl. f_equal. f_equal. induction current; simpl; congruence.
  - cbn [list_ascii_of_string fold_left csvStep].
    destruct (Ascii.eqb c quote) eqn:E.
    { apply Ascii.eqb_eq in E. exfalso. apply Hq. left. now subst. }
    assert (E' : Ascii.eqb c comma && negb inQuotes = false).
    { destruct inQuotes; [apply andb_false_r|].
      destruct (Ascii.eqb c comma) eqn:E'; [|reflexivity].
      apply Ascii.eqb_eq in E'. exfalso. apply (Hc eq_refl). left. now subst. }
    rewrite E'. rewrite IH.
    + f_equal. f_equal. clear. induction current; simpl; congruence.
    + intros H. apply Hq. now right.
    + intros Hi H. apply (Hc Hi). now right.
Qed.

Lemma doubleQuotes_plain (s : string) :
  ~ In quote (chars s) -> doubleQuotes s = s.
Proof.
  induction s as [|c s IH]; intros H; cbn [doubleQuotes]; [reflexivity|].
  destruct (Ascii.eqb c quote) eqn:E.
  - apply Ascii.eqb_eq in E. exfalso. apply H. left. now subst.
  - rewrite IH; [reflexivity|]. intros Hin. apply H. now right.
Qed.

Lemma dropLast_plain (s : string) : ~ In quote (chars s) -> dropLast s = s.
Proof.
  intros H. unfold dropLast.
  destruct (rev (chars s)) as [|c r] eqn:E; [reflexivity|].
  destruct (Ascii.eqb c quote) eqn:Q; [|reflexivity].
  apply Ascii.eqb_eq in Q. exfalso. apply H. apply in_rev. rewrite E.
  left. now subst.
Qed.

Lemma stripQuotes_plain (s : string) :
  ~ In quote (chars s) -> stripQuotes s = s.
Proof.
  intros H. destruct s as [|c s]; [reflexivity|]. cbn [stripQuotes].
  destruct (Ascii.eqb c quote) eqn:Q.
  - apply Ascii.eqb_eq in Q. exfalso. apply H. left. now subst.
  - now apply dropLast_plain.
Qed.

Lemma csvRow_text (m : MoodEntry) :
  ~ In quote (chars (note m)) ->
  csvRow m = rowText (date m) (emoji m) (note m).
Proof.
  intros H. unfold csvRow, rowText. cbn [join append].
  now rewrite doubleQuotes_plain.
Qed.

Lemma rowText_chars (d e n : string) :
  chars (rowText d e n)
  = chars d ++ comma :: chars e ++ comma :: quote :: chars n ++ [quote].
Proof.
  unfold rowText.
  repeat (rewrite chars_app || cbn [list_ascii_of_string]). reflexivity.
Qed.

Lemma csvStep_comma (values : list string) (current : string) :
  csvStep (values, current, false) comma = (trim current :: values, EmptyString, false).
Proof. reflexivity. Qed.

Lemma csvStep_quote (values : list string) (current : string) (inQuotes : bool) :
  csvStep (values, current, inQuotes) quote = (values, current, negb inQuotes).
Proof. reflexivity. Qed.

Lemma parseCSVLine_row (d e n : string) :
  ~ In quote (chars d) -> ~ In comma (chars d) ->
  ~ In quote (chars e) -> ~ In comma (chars e) ->
  ~ In quote (chars n) ->
  parseCSVLine (rowText d e n) = [trim d; trim e; trim n].
Proof.
  intros Hdq Hdc Heq Hec Hnq. unfold parseCSVLine. rewrite rowText_chars.
  rewrite fold_left_app, csv_stretch by auto.
  cbn [fold_left append]. rewrite csvStep_comma.
  rewrite fold_left_app, csv_stretch by auto.
  cbn [fold_left append]. rewrite csvStep_comma, csvStep_quote. cbn [negb].
  rewrite fold_left_app, csv_stretch; [|assumption|discriminate].
  cbn [fold_left append]. rewrite csvStep_quote.
  reflexivity.
Qed.

Lemma digit_plain (c : ascii) (v : Z) :
  digit c = Some v -> clean c /\ c <> comma /\ c <> quote /\ c <> LF.
Proof.
  unfold digit. destruct ((48 <=? code c) && (code c <=? 57)) eqn:E; [|discriminate].
  intros _. apply andb_true_iff in E as [E1 E2].
  apply Z.leb_le in E1, E2.
  assert (Hcomma : code comma = 44) by reflexivity.
  assert (Hquote : code quote = 34) by reflexivity.
  assert (HLF : code LF = 10) by reflexivity.
  repeat split; try (intros ->; lia); try lia.
  unfold ws1.
  destruct (code c <=? 13) eqn:A; [apply Z.leb_le in A; lia|].
  destruct (code c =? 32) eqn:B; [apply Z.eqb_eq in B; lia|].
  now rewrite andb_false_r.
Qed.

(** A calendar date is ten characters, digits and hyphens. *)
Lemma calendar_chars (d : string) :
  calendarDay d <> None ->
  (exists a mid z, chars d = a :: mid ++ [z] /\ clean a /\ clean z)
  /\ ~ In comma (chars d) /\ ~ In quote (chars d) /\ ~ In LF (chars d).
Proof.
  unfold calendarDay, isoDate.
  destruct (chars d)
    as [|y1 [|y2 [|y3 [|y4 [|h1 [|m1 [|m2 [|h2 [|d1 [|d2 [|x l]]]]]]]]]]];
    try (intros H; now elim H).
  destruct (Ascii.eqb h1 "-"%char && Ascii.eqb h2 "-"%char) eqn:Hy;
    [|intros H; now elim H].
  apply andb_true_iff in Hy as [H1 H2].
  apply Ascii.eqb_eq in H1, H2. subst h1 h2.
  destruct (digit y1) eqn:D1; [|intros H; now elim H].
  destruct (digit y2) eqn:D2; [|intros H; now elim H].
  destruct (digit y3) eqn:D3; [|intros H; now elim H].
  destruct (digit y4) eqn:D4; [|intros H; now elim H].
  destruct (digit m1) eqn:D5; [|intros H; now elim H].
  destruct (digit m2) eqn:D6; [|intros H; now elim H].
  destruct (digit d1) eqn:D7; [|intros H; now elim H].
  destruct (digit d2) eqn:D8; [|intros H; now elim H].
  intros _.
  apply digit_plain in D1, D2, D3, D4, D5, D6, D7, D8.
  split.
  - exists y1, [y2; y3; y4; "-"%char; m1; m2; "-"%char; d1], d2.
    split; [reflexivity|]. split; tauto.
  - repeat split; simpl; intros H;
      repeat (destruct H as [H|H]; [try discriminate; intuition congruence|]);
      exact H.
Qed.

Lemma chars_nonempty (s : string) (a : ascii) (l : list ascii) :
  chars s = a :: l -> s <> EmptyString.
Proof. intros H ->. discriminate. Qed.

(** A row of the export is its own trim. *)
Lemma rowText_trim (d e n : string) :
  calendarDay d <> None -> trim (rowText d e n) = rowText d e n.
Proof.
  intros Hd. destruct (calendar_chars d Hd) as [(a & mid & z & E & Ha & _) _].
  rewrite <- (string_of_list_ascii_of_string (rowText d e n)).
  rewrite rowText_chars, E.
  replace ((a :: mid ++ [z]) ++ comma :: chars e ++ comma :: quote :: chars n ++ [quote])
    with (a :: (mid ++ [z] ++ comma :: chars e ++ comma :: quote :: chars n) ++ [quote]).
  - apply trim_clean; [assumption|]. split; [reflexivity|]. reflexivity.
  - simpl. f_equal. rewrite <- !app_assoc. simpl. f_equal. f_equal. f_equal.
    rewrite <- app_assoc. reflexivity.
Qed.

Lemma calendar_trim (d : string) : calendarDay d <> None -> trim d = d.
Proof.
  intros Hd. destruct (calendar_chars d Hd) as [(a & mid & z & E & Ha & Hz) _].
  rewrite <- (string_of_list_ascii_of_string d), E. now apply trim_clean.
Qed.

Lemma rowOf_ends (m : MoodEntry) : exists mid, chars (rowOf m) = mid ++ [quote].
Proof.
  unfold rowOf. rewrite rowText_chars.
  exists (chars (date m) ++ comma :: chars (emoji m) ++ comma :: quote
                 :: chars (note m)).
  rewrite <- !app_assoc. simpl. f_equal. f_equal. rewrite <- app_assoc.
  reflexivity.
Qed.

Lemma rowOf_noLF (m : MoodEntry) : plainEntry m -> ~ In LF (chars (rowOf m)).
Proof.
  intros (Hc & _ & _ & _ & _ & _ & HeL & _ & HnL).
  destruct (calendar_chars (date m) Hc) as (_ & _ & _ & HdL).
  unfold rowOf. rewrite rowText_chars.
  rewrite in_app_iff. simpl. rewrite in_app_iff. simpl. rewrite in_app_iff.
  simpl. intros [H|[H|[H|[H|[H|[H|[H|[]]]]]]]]; try discriminate; tauto.
Qed.

Lemma join_ends (rows : list string) :
  rows <> [] -> Forall (fun r => exists mid, chars r = mid ++ [quote]) rows ->
  exists mid, chars (join (String LF EmptyString) rows) = mid ++ [quote].
Proof.
  induction rows as [|r rows IH]; intros Hne Hall; [contradiction|].
  inversion Hall as [|? ? [mid Hr] Hall']; subst.
  destruct rows as [|r' rows].
  - now exists mid.
  - destruct IH as [mid' Hmid]; [discriminate|assumption|].
    rewrite join_cons, chars_app. cbn [append list_ascii_of_string].
    rewrite Hmid. exists (chars r ++ LF :: mid').
    rewrite <- app_assoc. reflexivity.
Qed.

Lemma exportToCSV_text (st : Store) :
  st <> [] -> Forall plainEntry st ->
  exportToCSV st
  = join (String LF EmptyString) ("Date,Emoji,Note" :: map rowOf st).
Proof.
  intros Hne Hall. unfold exportToCSV, getAllMoods.
  destruct st as [|m st]; [contradiction|]. f_equal. f_equal.
  apply map_ext_in. intros x Hx. apply csvRow_text.
  rewrite Forall_forall in Hall. now apply (Hall x Hx).
Qed.

Lemma exportToCSV_trim (st : Store) :
  st <> [] -> Forall plainEntry st -> trim (exportToCSV st) = exportToCSV st.
Proof.
  intros Hne Hall. rewrite exportToCSV_text by assumption.
  destruct (join_ends (map rowOf st)) as [mid Hmid].
  - destruct st; [contradiction|discriminate].
  - rewrite Forall_forall. intros r Hr. apply in_map_iff in Hr as (m & <- & _).
    apply rowOf_ends.
  - rewrite <- (string_of_list_ascii_of_string (join _ _)).
    destruct (map rowOf st) as [|r rows] eqn:E.
    { destruct st; [contradiction|discriminate]. }
    change (join (String LF EmptyString) ("Date,Emoji,Note" :: r :: rows))
      with ("Date,Emoji,Note" ++ String LF (join (String LF EmptyString) (r :: rows)))%string.
    rewrite chars_app. cbn [list_ascii_of_string]. rewrite Hmid.
    cbn [app].
    replace ("a"%char :: "t"%char :: "e"%char :: ","%char :: "E"%char
             :: "m"%char :: "o"%char :: "j"%char :: "i"%char :: ","%char
             :: "N"%char :: "o"%char :: "t"%char :: "e"%char :: LF
             :: mid ++ [quote])
      with (("a"%char :: "t"%char :: "e"%char :: ","%char :: "E"%char
             :: "m"%char :: "o"%char :: "j"%char :: "i"%char :: ","%char
             :: "N"%char :: "o"%char :: "t"%char :: "e"%char :: LF
             :: mid) ++ [quote]) by reflexivity.
    apply trim_clean; split; reflexivity.
Qed.

Lemma exportToCSV_lines (st : Store) :
  st <> [] -> Forall plainEntry st ->
  split LF (trim (exportToCSV st)) = "Date,Emoji,Note" :: map rowOf st.
Proof.
  intros Hne Hall. rewrite exportToCSV_trim by assumption.
  rewrite exportToCSV_text by assumption.
  apply split_join; [discriminate|]. constructor.
  - simpl. intros H.
    repeat (destruct H as [H|H]; [discriminate|]). exact H.
  - rewrite Forall_forall. intros r Hr. apply in_map_iff in Hr as (m & <- & Hm).
    apply rowOf_noLF. rewrite Forall_forall in Hall. now apply Hall.
Qed.

Lemma parseCSVLine_plain (m : MoodEntry) :
  plainEntry m ->
  parseCSVLine (trim (rowOf m)) = [date m; emoji m; note m].
Proof.
  intros (Hc & _ & He & Hn & Hec & Heq & _ & Hnq & _).
  destruct (calendar_chars (date m) Hc) as (_ & Hdc & Hdq & _).
  unfold rowOf. rewrite rowText_trim by assumption.
  rewrite parseCSVLine_row by assumption.
  now rewrite (calendar_trim _ Hc), He, Hn.
Qed.

Lemma acceptedRow_plain (m : MoodEntry) :
  plainEntry m -> acceptedRow 0 1 (rowOf m) = true.
Proof.
  intros Hm. unfold acceptedRow. rewrite (parseCSVLine_plain m Hm).
  destruct Hm as (Hc & Hne & _).
  change (at_index [date m; emoji m; note m] 0) with (Some (date m)).
  change (at_index [date m; emoji m; note m] 1) with (Some (emoji m)).
  cbn [truthy orEmpty].
  unfold rowOf. rewrite rowText_trim by assumption.
  assert (E1 : String.eqb (rowText (date m) (emoji m) (note m)) EmptyString = false).
  { apply String.eqb_neq. intros H.
    apply (f_equal list_ascii_of_string) in H. rewrite rowText_chars in H.
    destruct (chars (date m)); discriminate. }
  assert (E2 : String.eqb (date m) EmptyString = false).
  { apply String.eqb_neq.
    destruct (calendar_chars (date m) Hc) as [(a & mid & z & E & _) _].
    now apply (chars_nonempty _ _ _ E). }
  assert (E3 : String.eqb (emoji m) EmptyString = false)
    by now apply String.eqb_neq.
  rewrite E1, E2, E3. cbn [negb andb].
  unfold isValidDate. now rewrite (onCalendar_parse m Hc).
Qed.

Lemma saveRow_plain (now : Z) (st : Store) (m : MoodEntry) :
  plainEntry m ->
  saveRow now 0 1 2 st (rowOf m)
  = fst (saveMood now (date m) (emoji m) (note m) None st).
Proof.
  intros Hm. unfold saveRow. rewrite (parseCSVLine_plain m Hm).
  destruct Hm as (_ & _ & _ & _ & _ & _ & _ & Hnq & _).
  change (at_index [date m; emoji m; note m] 0) with (Some (date m)).
  change (at_index [date m; emoji m; note m] 1) with (Some (emoji m)).
  change (at_index [date m; emoji m; note m] 2) with (Some (note m)).
  cbn [orEmpty]. change (0 <=? 2) with true. cbv iota.
  now rewrite stripQuotes_plain.
Qed.

Lemma saveAll_cons (now : Z) (x : MoodEntry) (l : list MoodEntry) (st : Store) :
  saveAll now (x :: l) st
  = saveAll now l (fst (saveMood now (date x) (emoji x) (note x) None st)).
Proof. reflexivity. Qed.

Lemma saveRow_fold (now : Z) (l : list MoodEntry) :
  Forall plainEntry l ->
  forall st, fold_left (saveRow now 0 1 2) (map rowOf l) st = saveAll now l st.
Proof.
  unfold saveAll. induction 1 as [|m l Hm _ IH]; intros st; [reflexivity|].
  cbn [map fold_left]. rewrite saveRow_plain by assumption. apply IH.
Qed.

Lemma saveAll_unique (now : Z) (l : list MoodEntry) :
  forall st, uniqueDates st -> uniqueDates (saveAll now l st).
Proof.
  unfold saveAll. induction l as [|m l IH]; intros st Hu; [exact Hu|].
  cbn [fold_left]. apply IH. now apply saveMood_unique.
Qed.

Lemma saveAll_other (now : Z) (l : list MoodEntry) (d : string) :
  ~ In d (map date l) ->
  forall st, uniqueDates st -> getMood (saveAll now l st) d = getMood st d.
Proof.
  unfold saveAll. induction l as [|m l IH]; intros Hd st Hu; [reflexivity|].
  cbn [fold_left]. rewrite IH.
  - apply saveMood_getMood_other; [assumption|].
    intros ->. apply Hd. now left.
  - intros H. apply Hd. now right.
  - now apply saveMood_unique.
Qed.

Lemma saveAll_getMood (now : Z) (l : list MoodEntry) :
  NoDup (map date l) ->
  forall st m, uniqueDates st -> In m l ->
    exists m', getMood (saveAll now l st) (date m) = Some m'
               /\ date m' = date m /\ emoji m' = emoji m
               /\ note m' = trim (note m).
Proof.
  induction l as [|x l IH]; intros Hnd st m Hu Hin; [contradiction|].
  inversion Hnd as [|? ? Hnot Hnd']; subst.
  assert (Hu' : uniqueDates (fst (saveMood now (date x) (emoji x) (note x) None st)))
    by now apply saveMood_unique.
  destruct Hin as [->|Hin].
  - exists (snd (saveMood now (date m) (emoji m) (note m) None st)).
    split; [|now rewrite saveMood_entry].
    rewrite saveAll_cons.
    rewrite (saveAll_other now l (date m) Hnot) by assumption.
    now apply saveMood_getMood.
  - rewrite saveAll_cons. now apply IH.
Qed.

(** X22.  The part of the round trip that holds: exporting a store of
    plain entries, one per date, and importing the text into the empty
    store imports as many rows as the store has entries and saves every
    entry again, with its date, emoji and note. *)
Lemma csv_roundtrip_plain (now : Z) (st : Store) :
  st <> [] -> uniqueDates st -> Forall plainEntry st ->
  fst (importFromCSV now (exportToCSV st) []) = Return (Z.of_nat (List.length st))
  /\ forall m, In m st ->
       exists m',
         getMood (snd (importFromCSV now (exportToCSV st) [])) (date m) = Some m'
         /\ date m' = date m /\ emoji m' = emoji m /\ note m' = note m.
Proof.
  intros Hne Hu Hall.
  pose proof (importFromCSV_rows now (exportToCSV st) []) as H.
  cbv zeta in H. rewrite (exportToCSV_lines st Hne Hall) in H.
  cbn [hd tl] in H.
  change (toLowerCase "Date,Emoji,Note") with "date,emoji,note" in H.
  change (map trim (split comma "date,emoji,note"))
    with ["date"; "emoji"; "note"] in H.
  change (indexOf ["date"; "emoji"; "note"] "date") with 0 in H.
  change (indexOf ["date"; "emoji"; "note"] "emoji") with 1 in H.
  change (indexOf ["date"; "emoji"; "note"] "note") with 2 in H.
  rewrite (filter_all (acceptedRow 0 1) (map rowOf st)) in H.
  - rewrite H; [| |reflexivity|reflexivity].
    + cbn [fst snd]. rewrite length_map. split; [reflexivity|].
      rewrite saveRow_fold by assumption.
      intros m Hm.
      destruct (saveAll_getMood now st Hu [] m (NoDup_nil _) Hm)
        as (m' & Hg & Hd & He & Hn).
      exists m'. repeat split; auto. rewrite Hn.
      rewrite Forall_forall in Hall. now apply (Hall m Hm).
    + cbn [List.length]. rewrite length_map.
      destruct st; [contradiction|]. cbn [List.length]. lia.
  - rewrite Forall_forall. intros r Hr. apply in_map_iff in Hr as (m & <- & Hm).
    apply acceptedRow_plain. rewrite Forall_forall in Hall. now apply Hall.
Qed.


(** ** Dates as text and back *)

Lemma doe_split (doe : Z) :
  0 <= doe < 146097 ->
  let yoe := (doe - doe / 1460 + doe / 36524 - doe / 146096) / 365 in
  let doy := doe - (365 * yoe + yoe / 4 - yoe / 100) in
  0 <= yoe < 400 /\ 0 <= doy <= 365 /\
  (doy = 365 -> (yoe mod 4 = 3 /\ yoe mod 100 <> 99) \/ yoe = 399).
Proof.
  intros H. cbv zeta. Z.div_mod_to_equations; lia.
Qed.

Lemma daysInMonth_leap (era yoe : Z) :
  0 <= yoe < 400 ->
  daysInMonth (yoe + era * 400 + 1) 2
  = if ((yoe mod 4 =? 3) && negb (yoe mod 100 =? 99)) || (yoe =? 399)
    then 29 else 28.
Proof.
  intros H. unfold daysInMonth. cbn [Z.eqb Pos.eqb].
  destruct (isLeap (yoe + era * 400 + 1)) eqn:L.
  - apply isLeap_spec in L.
    destruct (((yoe mod 4 =? 3) && negb (yoe mod 100 =? 99)) || (yoe =? 399)) eqn:E;
      [reflexivity|].
    exfalso. apply orb_false_elim in E as [E1 E2].
    apply Z.eqb_neq in E2.
    apply andb_false_elim in E1 as [E1|E1].
    + apply Z.eqb_neq in E1. Z.div_mod_to_equations; lia.
    + apply negb_false_iff, Z.eqb_eq in E1. Z.div_mod_to_equations; lia.
  - destruct (((yoe mod 4 =? 3) && negb (yoe mod 100 =? 99)) || (yoe =? 399)) eqn:E;
      [|reflexivity].
    exfalso. assert (isLeap (yoe + era * 400 + 1) = true); [|congruence].
    apply isLeap_spec.
    apply orb_true_elim in E as [E|E].
    + apply andb_prop in E as [E1 E2]. apply Z.eqb_eq in E1.
      apply negb_true_iff, Z.eqb_neq in E2. left. Z.div_mod_to_equations; lia.
    + apply Z.eqb_eq in E. right. Z.div_mod_to_equations; lia.
Qed.

(** Every day number is the day of a date of the calendar, the one
    [civilFromDays] gives. *)
Lemma civilFromDays_valid (z : Z) :
  exists y m d,
    civilFromDays z = (y, m, d) /\ 1 <= m <= 12 /\ 1 <= d <= daysInMonth y m
    /\ daysFromCivil y m d = z.
Proof.
  set (era := (z + 719468) / 146097).
  set (doe := z + 719468 - era * 146097).
  assert (Hdoe : 0 <= doe < 146097)
    by (unfold doe, era; Z.div_mod_to_equations; lia).
  pose proof (doe_split doe Hdoe) as H. cbv zeta in H.
  set (yoe := (doe - doe / 1460 + doe / 36524 - doe / 146096) / 365) in *.
  set (doy := doe - (365 * yoe + yoe / 4 - yoe / 100)) in *.
  destruct H as (Hy & Hd & Hl).
  assert (Ez : z = era * 146097 + (yoe * 365 + yoe / 4 - yoe / 100 + doy) - 719468)
    by (unfold doy, doe; lia).
  pose proof (civilFromDays_era era yoe doy Hy Hd Hl) as Hc. rewrite <- Ez in Hc.
  cbv zeta in Hc.
  set (mp := (5 * doy + 2) / 153) in *.
  assert (Hmp : mp = 0 \/ mp = 1 \/ mp = 2 \/ mp = 3 \/ mp = 4 \/ mp = 5 \/ mp = 6
                \/ mp = 7 \/ mp = 8 \/ mp = 9 \/ mp = 10 \/ mp = 11)
    by (unfold mp; Z.div_mod_to_equations; lia).
  assert (Hmp' : (5 * doy + 2) / 153 = mp) by reflexivity.
  clearbody mp yoe doy. clear Hdoe doe.
  pose proof (daysInMonth_leap era yoe Hy) as Hfeb.
  do 3 eexists. split; [exact Hc|].
  repeat match type of Hmp with _ \/ _ => destruct Hmp as [Hmp|Hmp] end;
    subst mp;
    match goal with
    | |- context [Z.ltb ?a ?b] => calc (Z.ltb a b)
    end; cbv iota;
    match goal with
    | |- context [(153 * ?a + 2) / 5] => calc ((153 * a + 2) / 5)
    end;
    repeat match goal with
    | |- context [Z.leb (Zpos ?a + Zpos ?b) ?c] => calc (Z.leb (Zpos a + Zpos b) c)
    | |- context [Z.leb (Zpos ?a - Zpos ?b) ?c] => calc (Z.leb (Zpos a - Zpos b) c)
    | |- context [Z.leb (0 + Zpos ?b) ?c] => calc (Z.leb (0 + Zpos b) c)
    end; cbv iota.
  all: repeat match goal with
       | |- context [Zpos ?a + Zpos ?b] => calc (Zpos a + Zpos b)
       | |- context [Zpos ?a - Zpos ?b] => calc (Zpos a - Zpos b)
       | |- context [0 + Zpos ?b] => calc (0 + Zpos b)
       end.
  all: split; [lia|].
  all: try rewrite Hfeb.
  all: split.
  all: try (unfold daysInMonth; settle;
            repeat match goal with
              | |- context [Z.eqb (Zpos ?a) (Zpos ?b)] => calc (Z.eqb (Zpos a) (Zpos b))
              end; cbv iota; cbn [orb]; cbv iota;
            Z.div_mod_to_equations; lia).
  12: { destruct ((yoe mod 4 =? 3) && negb (yoe mod 100 =? 99) || (yoe =? 399)) eqn:E.
    - Z.div_mod_to_equations; lia.
    - apply orb_false_elim in E as [E1 E2]. apply Z.eqb_neq in E2.
      assert (doy <> 365); [|Z.div_mod_to_equations; lia].
      intros D. apply Hl in D as [[D1 D2]|D]; [|lia].
      apply andb_false_elim in E1 as [E1|E1].
      + apply Z.eqb_neq in E1. lia.
      + apply negb_false_iff, Z.eqb_eq in E1. lia. }
  all: (etransitivity; [|symmetry; exact Ez]); clearbody era;
       unfold daysFromCivil; settle;
       repeat match goal with
         | |- context [Z.ltb (Zpos ?a) (Zpos ?b)] => calc (Z.ltb (Zpos a) (Zpos b))
         | |- context [Z.leb (Zpos ?a) (Zpos ?b)] => calc (Z.leb (Zpos a) (Zpos b))
         end; cbv iota; cbv zeta; Z.div_mod_to_equations; lia.
Qed.

Lemma digit_digitChar (v : Z) : 0 <= v <= 9 -> digit (digitChar v) = Some v.
Proof.
  intros H.
  assert (C : v = 0 \/ v = 1 \/ v = 2 \/ v = 3 \/ v = 4 \/ v = 5 \/ v = 6
              \/ v = 7 \/ v = 8 \/ v = 9) by lia.
  repeat destruct C as [C|C]; subst v; reflexivity.
Qed.

Lemma digitChar_plain (v : Z) (c : ascii) :
  0 <= v <= 9 -> code c < 48 \/ 57 < code c -> digitChar v <> c.
Proof.
  intros H Hc E. subst c.
  assert (C : v = 0 \/ v = 1 \/ v = 2 \/ v = 3 \/ v = 4 \/ v = 5 \/ v = 6
              \/ v = 7 \/ v = 8 \/ v = 9) by lia.
  repeat destruct C as [C|C]; subst v; vm_compute in Hc;
    destruct Hc as [Hc|Hc]; discriminate.
Qed.

Lemma numeralOf_unfold (fuel : nat) (n : Z) :
  numeralOf (S fuel) n
  = if n <? 10 then String (digitChar n) EmptyString
    else (numeralOf fuel (n / 10)
          ++ String (digitChar (n mod 10)) EmptyString)%string.
Proof. reflexivity. Qed.

Lemma string_app_nil (s : string) : (s ++ EmptyString)%string = s.
Proof. induction s as [|c s IH]; simpl; [reflexivity|now rewrite IH]. Qed.

Lemma string_app_assoc (a b c : string) :
  ((a ++ b) ++ c)%string = (a ++ b ++ c)%string.
Proof. induction a as [|x a IH]; simpl; [reflexivity|now rewrite IH]. Qed.

Lemma log2_tenth (n : Z) : 10 <= n -> Z.log2 (n / 10) < Z.log2 n.
Proof.
  intros H.
  assert (H2 : Z.log2 (n / 10) <= Z.log2 (n / 2)).
  { apply Z.log2_le_mono. Z.div_mod_to_equations; lia. }
  assert (H3 : Z.log2 (n / 2) = Z.log2 n - 1).
  { rewrite <- Z.div2_div, Z.div2_spec, Z.log2_shiftr by lia.
    rewrite Z.max_r; [reflexivity|].
    assert (1 <= Z.log2 n) by (apply (Z.log2_le_mono 2 n); lia). lia. }
  lia.
Qed.

(** The fuel suffices: more of it changes nothing. *)
Lemma numeralOf_fuel (fuel : nat) :
  forall n, 0 <= n -> Z.log2 n < Z.of_nat fuel ->
  numeralOf (S fuel) n = numeralOf fuel n.
Proof.
  induction fuel as [|f IH]; intros n Hn Hl.
  - pose proof (Z.log2_nonneg n). lia.
  - change (numeralOf (S (S f)) n)
      with (if n <? 10 then String (digitChar n) EmptyString
            else (numeralOf (S f) (n / 10)
                  ++ String (digitChar (n mod 10)) EmptyString)%string).
    change (numeralOf (S f) n)
      with (if n <? 10 then String (digitChar n) EmptyString
            else (numeralOf f (n / 10)
                  ++ String (digitChar (n mod 10)) EmptyString)%string).
    destruct (n <? 10) eqn:E; [reflexivity|]. apply Z.ltb_ge in E.
    rewrite IH; [reflexivity|Z.div_mod_to_equations; lia|].
    pose proof (log2_tenth n E). lia.
Qed.

Lemma numeral_numeralOf (fuel : nat) :
  forall n, 0 <= n -> Z.log2 n < Z.of_nat fuel ->
  forall acc rest,
  exists k, 0 < k
    /\ numeral acc (numeralOf fuel n ++ rest) = numeral (acc * 10 ^ k + n) rest.
Proof.
  induction fuel as [|f IH]; intros n Hn Hl acc rest.
  - pose proof (Z.log2_nonneg n). lia.
  - change (numeralOf (S f) n)
      with (if n <? 10 then String (digitChar n) EmptyString
            else (numeralOf f (n / 10)
                  ++ String (digitChar (n mod 10)) EmptyString)%string).
    destruct (n <? 10) eqn:E.
    + apply Z.ltb_lt in E. exists 1. split; [lia|].
      cbn [append numeral]. rewrite digit_digitChar by lia.
      f_equal. lia.
    + apply Z.ltb_ge in E.
      destruct (IH (n / 10)) with (acc := acc)
        (rest := String (digitChar (n mod 10)) rest) as (k & Hk & Ek).
      * Z.div_mod_to_equations; lia.
      * pose proof (log2_tenth n E). lia.
      * exists (k + 1). split; [lia|].
        rewrite string_app_assoc. cbn [append]. rewrite Ek.
        cbn [numeral]. rewrite digit_digitChar by (Z.div_mod_to_equations; lia).
        f_equal. rewrite Z.pow_add_r by lia. Z.div_mod_to_equations; lia.
Qed.

(** The numeral [String(n)] writes for [n >= 0] reads back as [n]. *)
Lemma numeral_Number_toString (n : Z) :
  0 <= n -> numeral 0 (Number_toString n) = Some n.
Proof.
  intros H. unfold Number_toString.
  replace (n <? 0) with false by (symmetry; apply Z.ltb_ge; lia).
  destruct (numeral_numeralOf (S (Z.to_nat (Z.log2 n))) n H) with
    (acc := 0) (rest := EmptyString) as (k & _ & E).
  - pose proof (Z.log2_nonneg n). lia.
  - rewrite string_app_nil in E. rewrite E. reflexivity.
Qed.

Lemma log2_fuel (n b : Z) :
  0 < b -> 2 ^ b <= n -> exists f, Z.to_nat (Z.log2 n) = (Z.to_nat b + f)%nat.
Proof.
  intros Hb Hn.
  assert (b <= Z.log2 n).
  { apply Z.log2_le_pow2; lia. }
  exists (Z.to_nat (Z.log2 n - b)). lia.
Qed.

(** A number below 10000 as a numeral of four digits. *)
Lemma pad4_digits (n : Z) :
  0 <= n <= 9999 ->
  pad 4 n
  = String (digitChar (n / 1000)) (String (digitChar (n / 100 mod 10))
      (String (digitChar (n / 10 mod 10)) (String (digitChar (n mod 10))
         EmptyString))).
Proof.
  intros H. unfold pad, Number_toString.
  replace (n <? 0) with false by (symmetry; apply Z.ltb_ge; lia).
  destruct (Z_lt_ge_dec n 10) as [L1|L1].
  { rewrite numeralOf_unfold.
    replace (n <? 10) with true by (symmetry; apply Z.ltb_lt; lia).
    replace (n / 1000) with 0 by (Z.div_mod_to_equations; lia).
    replace (n / 100 mod 10) with 0 by (Z.div_mod_to_equations; lia).
    replace (n / 10 mod 10) with 0 by (Z.div_mod_to_equations; lia).
    replace (n mod 10) with n by (Z.div_mod_to_equations; lia).
    reflexivity. }
  destruct (Z_lt_ge_dec n 100) as [L2|L2].
  { destruct (log2_fuel n 3) as [f Hf]; [lia|cbn; lia|]. rewrite Hf.
    calc (Z.to_nat 3). cbn [Nat.add].
    rewrite !numeralOf_unfold.
    replace (n <? 10) with false by (symmetry; apply Z.ltb_ge; lia).
    replace (n / 10 <? 10) with true
      by (symmetry; apply Z.ltb_lt; Z.div_mod_to_equations; lia).
    replace (n / 1000) with 0 by (Z.div_mod_to_equations; lia).
    replace (n / 100 mod 10) with 0 by (Z.div_mod_to_equations; lia).
    replace (n / 10 mod 10) with (n / 10) by (Z.div_mod_to_equations; lia).
    reflexivity. }
  destruct (Z_lt_ge_dec n 1000) as [L3|L3].
  { destruct (log2_fuel n 6) as [f Hf]; [lia|cbn; lia|]. rewrite Hf.
    calc (Z.to_nat 6). cbn [Nat.add].
    rewrite !numeralOf_unfold.
    replace (n <? 10) with false by (symmetry; apply Z.ltb_ge; lia).
    replace (n / 10 <? 10) with false
      by (symmetry; apply Z.ltb_ge; Z.div_mod_to_equations; lia).
    replace (n / 10 / 10 <? 10) with true
      by (symmetry; apply Z.ltb_lt; Z.div_mod_to_equations; lia).
    replace (n / 1000) with 0 by (Z.div_mod_to_equations; lia).
    replace (n / 100 mod 10) with (n / 10 / 10) by (Z.div_mod_to_equations; lia).
    replace (n / 10 mod 10) with ((n / 10) mod 10) by reflexivity.
    reflexivity. }
  destruct (log2_fuel n 9) as [f Hf]; [lia|cbn; lia|]. rewrite Hf.
  calc (Z.to_nat 9). cbn [Nat.add].
  rewrite !numeralOf_unfold.
  replace (n <? 10) with false by (symmetry; apply Z.ltb_ge; lia).
  replace (n / 10 <? 10) with false
    by (symmetry; apply Z.ltb_ge; Z.div_mod_to_equations; lia).
  replace (n / 10 / 10 <? 10) with false
    by (symmetry; apply Z.ltb_ge; Z.div_mod_to_equations; lia).
  replace (n / 10 / 10 / 10 <? 10) with true
    by (symmetry; apply Z.ltb_lt; Z.div_mod_to_equations; lia).
  replace (n / 1000) with (n / 10 / 10 / 10) by (Z.div_mod_to_equations; lia).
  replace (n / 100 mod 10) with (n / 10 / 10 mod 10)
    by (Z.div_mod_to_equations; lia).
  reflexivity.
Qed.

Lemma Number_toString_four (n : Z) :
  1000 <= n <= 9999 -> Number_toString n = pad 4 n.
Proof.
  intros H. rewrite pad4_digits by lia. unfold Number_toString.
  replace (n <? 0) with false by (symmetry; apply Z.ltb_ge; lia).
  destruct (log2_fuel n 9) as [f Hf]; [lia|cbn; lia|]. rewrite Hf.
  calc (Z.to_nat 9). cbn [Nat.add].
  rewrite !numeralOf_unfold.
  replace (n <? 10) with false by (symmetry; apply Z.ltb_ge; lia).
  replace (n / 10 <? 10) with false
    by (symmetry; apply Z.ltb_ge; Z.div_mod_to_equations; lia).
  replace (n / 10 / 10 <? 10) with false
    by (symmetry; apply Z.ltb_ge; Z.div_mod_to_equations; lia).
  replace (n / 10 / 10 / 10 <? 10) with true
    by (symmetry; apply Z.ltb_lt; Z.div_mod_to_equations; lia).
  replace (n / 1000) with (n / 10 / 10 / 10) by (Z.div_mod_to_equations; lia).
  replace (n / 100 mod 10) with (n / 10 / 10 mod 10)
    by (Z.div_mod_to_equations; lia).
  reflexivity.
Qed.

(** A number below 100 as a numeral of two digits. *)
Lemma pad2_digits (n : Z) :
  0 <= n <= 99 ->
  pad 2 n = String (digitChar (n / 10)) (String (digitChar (n mod 10)) EmptyString).
Proof.
  intros H. unfold pad, Number_toString.
  replace (n <? 0) with false by (symmetry; apply Z.ltb_ge; lia).
  destruct (Z_lt_ge_dec n 10) as [L1|L1].
  { rewrite numeralOf_unfold.
    replace (n <? 10) with true by (symmetry; apply Z.ltb_lt; lia).
    replace (n / 10) with 0 by (Z.div_mod_to_equations; lia).
    replace (n mod 10) with n by (Z.div_mod_to_equations; lia).
    reflexivity. }
  destruct (log2_fuel n 3) as [f Hf]; [lia|cbn; lia|]. rewrite Hf.
  calc (Z.to_nat 3). cbn [Nat.add].
  rewrite !numeralOf_unfold.
  replace (n <? 10) with false by (symmetry; apply Z.ltb_ge; lia).
  replace (n / 10 <? 10) with true
    by (symmetry; apply Z.ltb_lt; Z.div_mod_to_equations; lia).
  reflexivity.
Qed.

Lemma dateText_chars (y m d : Z) :
  0 <= y <= 9999 -> 0 <= m <= 99 -> 0 <= d <= 99 ->
  list_ascii_of_string (dateText y m d)
  = [digitChar (y / 1000); digitChar (y / 100 mod 10);
     digitChar (y / 10 mod 10); digitChar (y mod 10); "-"%char;
     digitChar (m / 10); digitChar (m mod 10); "-"%char;
     digitChar (d / 10); digitChar (d mod 10)].
Proof.
  intros Hy Hm Hd. unfold dateText.
  rewrite pad4_digits, !pad2_digits by lia. reflexivity.
Qed.

(** The date text of a date of the calendar reads back as that date. *)
Lemma isoDate_dateText (y m d : Z) :
  0 <= y <= 9999 -> 1 <= m <= 12 -> 1 <= d <= daysInMonth y m ->
  isoDate (dateText y m d) = Some (y, m, d).
Proof.
  intros Hy Hm Hd.
  assert (Hd' : d <= 31).
  { unfold daysInMonth in Hd.
    destruct (m =? 2); [destruct (isLeap y)|destruct ((m =? 4) || (m =? 6) || (m =? 9) || (m =? 11))]; lia. }
  unfold isoDate. rewrite dateText_chars by lia.
  cbn [Ascii.eqb Bool.eqb andb].
  rewrite !digit_digitChar by (Z.div_mod_to_equations; lia).
  replace (1000 * (y / 1000) + 100 * (y / 100 mod 10) + 10 * (y / 10 mod 10)
           + y mod 10) with y by (Z.div_mod_to_equations; lia).
  replace (10 * (m / 10) + m mod 10) with m by (Z.div_mod_to_equations; lia).
  replace (10 * (d / 10) + d mod 10) with d by (Z.div_mod_to_equations; lia).
  replace (1 <=? m) with true by (symmetry; apply Z.leb_le; lia).
  replace (m <=? 12) with true by (symmetry; apply Z.leb_le; lia).
  replace (1 <=? d) with true by (symmetry; apply Z.leb_le; lia).
  replace (d <=? daysInMonth y m) with true by (symmetry; apply Z.leb_le; lia).
  reflexivity.
Qed.

Lemma calendarDay_dateText (y m d : Z) :
  0 <= y <= 9999 -> 1 <= m <= 12 -> 1 <= d <= daysInMonth y m ->
  calendarDay (dateText y m d) = Some (daysFromCivil y m d).
Proof.
  intros Hy Hm Hd. unfold calendarDay. now rewrite isoDate_dateText.
Qed.

(** Later dates have larger day numbers, year by year. *)
Lemma daysFromCivil_year (y m d y' m' d' : Z) :
  1 <= m <= 12 -> 1 <= d <= 31 -> 1 <= m' <= 12 -> 1 <= d' <= 31 ->
  y < y' -> daysFromCivil y m d < daysFromCivil y' m' d'.
Proof.
  intros Hm Hd Hm' Hd' Hy. unfold daysFromCivil.
  destruct (m <=? 2) eqn:A; destruct (2 <? m) eqn:B;
    destruct (m' <=? 2) eqn:A'; destruct (2 <? m') eqn:B';
    try (apply Z.leb_le in A); try (apply Z.leb_gt in A);
    try (apply Z.ltb_lt in B); try (apply Z.ltb_ge in B);
    try (apply Z.leb_le in A'); try (apply Z.leb_gt in A');
    try (apply Z.ltb_lt in B'); try (apply Z.ltb_ge in B');
    try lia; cbv zeta; Z.div_mod_to_equations; lia.
Qed.

Lemma daysInMonth_range (y m : Z) : 28 <= daysInMonth y m <= 31.
Proof.
  unfold daysInMonth.
  destruct (m =? 2); [destruct (isLeap y)|destruct ((m =? 4) || (m =? 6) || (m =? 9) || (m =? 11))]; lia.
Qed.

(** The date of a day of the years 0 to 9999, and its text. *)
Lemma civilFromDays_fourDigit (k : Z) :
  fourDigitYear k ->
  exists y m d,
    civilFromDays k = (y, m, d) /\ 0 <= y <= 9999 /\ 1 <= m <= 12
    /\ 1 <= d <= daysInMonth y m /\ daysFromCivil y m d = k.
Proof.
  intros [Hlo Hhi].
  destruct (civilFromDays_valid k) as (y & m & d & Hc & Hm & Hd & Hk).
  exists y, m, d. pose proof (daysInMonth_range y m) as Hr.
  repeat split; try assumption; try lia.
  - destruct (Z_lt_ge_dec y 0) as [L|L]; [|lia].
    pose proof (daysFromCivil_year y m d 0 1 1) as M. lia.
  - destruct (Z_lt_ge_dec 9999 y) as [L|L]; [|lia].
    pose proof (daysFromCivil_year 9999 12 31 y m d) as M. lia.
Qed.

Lemma split_first (sep : ascii) (x rest : string) :
  ~ In sep (list_ascii_of_string x) ->
  split sep (x ++ String sep rest)%string = x :: split sep rest.
Proof.
  induction x as [|c x IH]; intros H; simpl.
  - now rewrite Ascii.eqb_refl.
  - simpl in H. destruct (Ascii.eqb c sep) eqn:E.
    + apply Ascii.eqb_eq in E. tauto.
    + rewrite IH by tauto. reflexivity.
Qed.

Lemma dateText_plain (y m d : Z) (c : ascii) :
  0 <= y <= 9999 -> 0 <= m <= 99 -> 0 <= d <= 99 ->
  code c < 45 \/ 57 < code c ->
  ~ In c (list_ascii_of_string (dateText y m d)).
Proof.
  intros Hy Hm Hd Hc. rewrite dateText_chars by lia. simpl.
  assert (Hh : "-"%char <> c).
  { intros <-. vm_compute in Hc. destruct Hc as [Hc|Hc]; discriminate. }
  assert (Hg : forall v, 0 <= v <= 9 -> digitChar v <> c).
  { intros v Hv. apply digitChar_plain; [assumption|lia]. }
  intros H.
  repeat destruct H as [H|H]; try contradiction;
    revert H; apply Hg; Z.div_mod_to_equations; lia.
Qed.

(** In the years 0 to 9999 the date the program derives from an instant is
    the text of the UTC day of the instant. *)
Lemma isoDateOf_text (t : Z) :
  fourDigitYear (Day t) ->
  exists y m d,
    civilFromDays (Day t) = (y, m, d) /\ 0 <= y <= 9999 /\ 1 <= m <= 12
    /\ 1 <= d <= daysInMonth y m /\ daysFromCivil y m d = Day t
    /\ isoDateOf t = dateText y m d.
Proof.
  intros H.
  destruct (civilFromDays_fourDigit _ H) as (y & m & d & Hc & Hy & Hm & Hd & Hk).
  exists y, m, d. repeat split; try assumption; try lia.
  pose proof (daysInMonth_range y m) as Hr.
  unfold isoDateOf, toISOString. rewrite Hc. unfold yearText.
  replace (0 <=? y) with true by (symmetry; apply Z.leb_le; lia).
  replace (y <=? 9999) with true by (symmetry; apply Z.leb_le; lia).
  cbn [andb].
  cbn [append].
  match goal with
  | |- hd _ (split _ (_ ++ String _ (_ ++ String _ (_ ++ String ?c ?rest)))%string) = _ =>
      replace (pad 4 y ++ String "-" (pad 2 m ++ String "-" (pad 2 d ++ String c rest)))%string
        with (dateText y m d ++ String c rest)%string
        by (unfold dateText; rewrite pad4_digits, !pad2_digits by lia; reflexivity)
  end.
  rewrite split_first; [reflexivity|].
  apply dateText_plain; try lia. right. vm_compute. reflexivity.
Qed.

Lemma isoDateOf_calendarDay (t : Z) :
  fourDigitYear (Day t) -> calendarDay (isoDateOf t) = Some (Day t).
Proof.
  intros H.
  destruct (isoDateOf_text t H) as (y & m & d & _ & Hy & Hm & Hd & Hk & E).
  rewrite E, calendarDay_dateText by assumption. now rewrite Hk.
Qed.

(** X1.  The date the program derives from an instant, by
    [toISOString().split('T')[0]], reads back as a date: in the years 0 to
    9999 [Date.parse] takes it to UTC midnight of the UTC day of the
    instant, [isValidDate] accepts it, and two instants give the same text
    exactly when they lie in the same UTC day. *)
Theorem isoDateOf_round_trip (t : Z) :
  fourDigitYear (Day t) ->
  Date_parse (isoDateOf t) = Some (msPerDay * Day t)
  /\ isValidDate (isoDateOf t) = true
  /\ forall t', fourDigitYear (Day t') ->
                (isoDateOf t = isoDateOf t' <-> Day t = Day t').
Proof.
  intros H. pose proof (isoDateOf_calendarDay t H) as Hc.
  pose proof (calendarDay_parse _ _ Hc) as Hp.
  split; [exact Hp|]. split.
  - unfold isValidDate. now rewrite Hp.
  - intros t' H'. pose proof (isoDateOf_calendarDay t' H') as Hc'. split.
    + intros E. rewrite E in Hc. congruence.
    + intros E. rewrite <- E in Hc'. exact (calendarDay_inj _ _ _ Hc Hc').
Qed.

(** ** The calendar and the local date of an entry *)

Lemma Day_times (k : Z) : Day (k * msPerDay) = k.
Proof. unfold Day. apply Z.div_mul. unfold msPerDay. lia. Qed.

(** The local day of UTC midnight of day [k]: the same day at and east of
    UTC, the day before west of it. *)
Lemma Day_zone (k : Z) :
  - msPerDay <= LocalTZA < msPerDay ->
  Day (msPerDay * k + LocalTZA) = k - (if LocalTZA <? 0 then 1 else 0).
Proof.
  intros H. unfold Day. symmetry.
  destruct (LocalTZA <? 0) eqn:E.
  - apply Z.ltb_lt in E.
    apply (Z.div_unique _ _ (k - 1) (LocalTZA + msPerDay));
      unfold msPerDay in *; lia.
  - apply Z.ltb_ge in E.
    apply (Z.div_unique _ _ (k - 0) LocalTZA); unfold msPerDay in *; lia.
Qed.

Lemma daysFromCivil_day (y m d e : Z) :
  daysFromCivil y m d + e = daysFromCivil y m (d + e).
Proof. unfold daysFromCivil. cbv zeta. lia. Qed.

(** The day before the first of the next month is the last day of the
    month. *)
Lemma daysFromCivil_next_month (y m : Z) :
  1 <= m <= 12 ->
  daysFromCivil (y + m / 12) (m mod 12 + 1) 0
  = daysFromCivil y m (daysInMonth y m).
Proof.
  intros Hm. pose proof (isLeap_spec y) as HL.
  apply twelve_months in Hm.
  repeat destruct Hm as [Hm|Hm]; subst m;
    match goal with
    | |- context [Zpos ?a / Zpos ?b] => calc (Zpos a / Zpos b)
    end;
    match goal with
    | |- context [Zpos ?a mod Zpos ?b + 1] => calc (Zpos a mod Zpos b + 1)
    end;
    unfold daysInMonth;
    repeat match goal with
      | |- context [Z.eqb (Zpos ?a) (Zpos ?b)] => calc (Z.eqb (Zpos a) (Zpos b))
      end; cbv iota; cbn [orb]; cbv iota;
    try destruct (isLeap y);
    unfold daysFromCivil; settle; cbv zeta;
    try (assert (L : (y mod 4 = 0 /\ y mod 100 <> 0) \/ y mod 400 = 0)
           by (now apply HL));
    try (assert (L : ~ ((y mod 4 = 0 /\ y mod 100 <> 0) \/ y mod 400 = 0))
           by (intros L; apply HL in L; discriminate));
    clear HL; Z.div_mod_to_equations; lia.
Qed.

Lemma daysFromCivil_bound (y m d : Z) :
  1 <= m <= 12 -> 0 <= d <= 31 -> - 200001 <= y <= 200001 ->
  - 75000000 <= daysFromCivil y m d <= 75000000.
Proof.
  intros Hm Hd Hy. unfold daysFromCivil.
  destruct (m <=? 2) eqn:A; destruct (2 <? m) eqn:B;
    try (apply Z.leb_le in A); try (apply Z.leb_gt in A);
    try (apply Z.ltb_lt in B); try (apply Z.ltb_ge in B);
    try lia; cbv zeta; Z.div_mod_to_equations; lia.
Qed.

(** [new Date(year, month + 1, 0)] is local midnight of the last day of
    the month. *)
Lemma Date_local_last (year month : Z) :
  - 200000 <= year <= 200000 -> 0 <= month <= 11 ->
  - msPerDay <= LocalTZA <= msPerDay ->
  let yr := if (0 <=? year) && (year <=? 99) then 1900 + year else year in
  Date_local year (month + 1) 0
  = Some (daysFromCivil yr (month + 1) (daysInMonth yr (month + 1)) * msPerDay
          - LocalTZA).
Proof.
  intros Hy Hm Hz yr. unfold Date_local. fold yr.
  assert (Hyr : - 200000 <= yr <= 200000).
  { unfold yr. destruct ((0 <=? year) && (year <=? 99)) eqn:E; [|lia].
    apply andb_prop in E as [E1 E2]. apply Z.leb_le in E1, E2. lia. }
  assert (Hm' : 1 <= (month + 1) mod 12 + 1 <= 12)
    by (Z.div_mod_to_equations; lia).
  rewrite <- daysFromCivil_MakeDay by assumption.
  assert (Hb : - 75000000
               <= daysFromCivil (yr + (month + 1) / 12) ((month + 1) mod 12 + 1) 0
               <= 75000000).
  { apply daysFromCivil_bound; try lia. Z.div_mod_to_equations; lia. }
  rewrite daysFromCivil_next_month in * by lia.
  unfold TimeClip.
  match goal with
  | |- (if ?c then _ else _) = _ =>
      replace c with true; [reflexivity|]
  end.
  symmetry. apply Z.leb_le. unfold msPerDay in *. lia.
Qed.

Lemma getDaysInMonth_days (year month : Z) :
  - 200000 <= year <= 200000 -> 0 <= month <= 11 ->
  - msPerDay <= LocalTZA <= msPerDay ->
  getDaysInMonth year month
  = Some (daysInMonth (if (0 <=? year) && (year <=? 99) then 1900 + year
                       else year) (month + 1)).
Proof.
  intros Hy Hm Hz.
  unfold getDaysInMonth. rewrite Date_local_last by assumption.
  cbv zeta. unfold getDate. cbn [option_map]. f_equal.
  match goal with
  | |- context [Day ?t] =>
      match t with
      | ?k * msPerDay - LocalTZA + LocalTZA =>
          replace t with (k * msPerDay) by lia
      end
  end.
  rewrite Day_times, civilFromDays_inverse; [reflexivity|lia|].
  match goal with
  | |- 1 <= daysInMonth ?y ?m <= _ => pose proof (daysInMonth_range y m); lia
  end.
Qed.

(** X2.  [getDaysInMonth(year, month)] of calendar.js is the number of days
    of the month in the Gregorian calendar, whatever the offset of the
    zone, of a day at most: 31, 30, or for February 29 in a leap year and
    28 otherwise.  A year from 0 to 99 counts as 1900 to 1999, as the
    [Date] constructor reads it. *)
Theorem getDaysInMonth_spec (year month : Z) :
  - 200000 <= year <= 200000 -> 0 <= month <= 11 ->
  - msPerDay <= LocalTZA <= msPerDay ->
  let y := if (0 <=? year) && (year <=? 99) then 1900 + year else year in
  getDaysInMonth year month = Some (daysInMonth y (month + 1))
  /\ (month = 1 ->
      getDaysInMonth year month
      = Some (if (y mod 4 =? 0) && negb (y mod 100 =? 0) || (y mod 400 =? 0)
              then 29 else 28))
  /\ (month = 3 \/ month = 5 \/ month = 8 \/ month = 10 ->
      getDaysInMonth year month = Some 30)
  /\ (month = 0 \/ month = 2 \/ month = 4 \/ month = 6 \/ month = 7
      \/ month = 9 \/ month = 11 ->
      getDaysInMonth year month = Some 31).
Proof.
  intros Hy Hm Hz y. rewrite getDaysInMonth_days by assumption. fold y.
  split; [reflexivity|]. split; [|split].
  - intros ->. reflexivity.
  - intros H. repeat destruct H as [H|H]; subst month; reflexivity.
  - intros H. repeat destruct H as [H|H]; subst month; reflexivity.
Qed.

Lemma formatDate_text (year month day : Z) :
  1000 <= year <= 9999 -> formatDate year month day = dateText year (month + 1) day.
Proof.
  intros H. unfold formatDate, dateText. now rewrite Number_toString_four.
Qed.

(** X3.  The date [formatDate(year, month, day)] of calendar.js writes on a
    day cell is, for a year of four digits and a day of the month, the
    calendar date of that day: [Date.parse] reads it as UTC midnight of the
    day, [isValidDate] accepts it, and different days of a month get
    different texts. *)
Theorem formatDate_parse (year month day : Z) :
  1000 <= year <= 9999 -> 0 <= month <= 11 ->
  1 <= day <= daysInMonth year (month + 1) ->
  isoDate (formatDate year month day) = Some (year, month + 1, day)
  /\ Date_parse (formatDate year month day)
     = Some (msPerDay * daysFromCivil year (month + 1) day)
  /\ isValidDate (formatDate year month day) = true
  /\ forall day', 1 <= day' <= daysInMonth year (month + 1) ->
                  formatDate year month day' = formatDate year month day ->
                  day' = day.
Proof.
  intros Hy Hm Hd.
  assert (E : forall x, 1 <= x <= daysInMonth year (month + 1) ->
                        isoDate (formatDate year month x) = Some (year, month + 1, x)).
  { intros x Hx. rewrite formatDate_text by assumption.
    apply isoDate_dateText; lia. }
  assert (P : Date_parse (formatDate year month day)
              = Some (msPerDay * daysFromCivil year (month + 1) day)).
  { unfold Date_parse. now rewrite E. }
  split; [now apply E|]. split; [exact P|]. split.
  - unfold isValidDate. now rewrite P.
  - intros day' Hd' Eq. pose proof (E day' Hd') as E'. rewrite Eq, E in E'; [|assumption].
    congruence.
Qed.

(** The local year and month of an entry dated [y]-[mo]-[d]. *)
Lemma local_month (s : string) (y mo d year month : Z) :
  - msPerDay <= LocalTZA < msPerDay ->
  isoDate s = Some (y, mo, d) ->
  isNumber (getFullYear (Date_parse s)) year
  && isNumber (getMonth (Date_parse s)) month
  = let c := civilFromDays (daysFromCivil y mo d
                            - (if LocalTZA <? 0 then 1 else 0)) in
    (fst (fst c) =? year) && (snd (fst c) - 1 =? month).
Proof.
  intros Hz Hs. unfold Date_parse. rewrite Hs.
  unfold getFullYear, getMonth. cbn [option_map isNumber].
  now rewrite Day_zone.
Qed.

Lemma local_month_same (s : string) (y mo d year month : Z) :
  - msPerDay <= LocalTZA < msPerDay ->
  isoDate s = Some (y, mo, d) ->
  0 <= LocalTZA \/ 2 <= d ->
  isNumber (getFullYear (Date_parse s)) year
  && isNumber (getMonth (Date_parse s)) month
  = (y =? year) && (mo - 1 =? month).
Proof.
  intros Hz Hs Hd. rewrite (local_month s y mo d) by assumption. cbv zeta.
  destruct (isoDate_chars _ _ _ _ Hs)
    as (a & b & c & e & f & g & h & i & _ & _ & _ & _ & _ & _ & Hm & Hdd).
  destruct (LocalTZA <? 0) eqn:E.
  - apply Z.ltb_lt in E. destruct Hd as [Hd|Hd]; [lia|].
    replace (daysFromCivil y mo d - 1) with (daysFromCivil y mo d + -1) by lia.
    rewrite daysFromCivil_day, civilFromDays_inverse by lia. reflexivity.
  - rewrite Z.sub_0_r, civilFromDays_inverse by lia. reflexivity.
Qed.

Lemma local_month_first (s : string) (y mo year month : Z) :
  - msPerDay <= LocalTZA < 0 ->
  isoDate s = Some (y, mo, 1) ->
  isNumber (getFullYear (Date_parse s)) year
  && isNumber (getMonth (Date_parse s)) month
  = if mo =? 1 then (y - 1 =? year) && (11 =? month)
    else (y =? year) && (mo - 2 =? month).
Proof.
  intros Hz Hs. rewrite (local_month s y mo 1) by (try assumption; lia).
  cbv zeta.
  destruct (isoDate_chars _ _ _ _ Hs)
    as (a & b & c & e & f & g & h & i & _ & _ & _ & _ & _ & _ & Hm & Hdd).
  replace (LocalTZA <? 0) with true by (symmetry; apply Z.ltb_lt; lia).
  replace (daysFromCivil y mo 1 - 1) with (daysFromCivil y mo 1 + -1) by lia.
  rewrite daysFromCivil_day. cbn [Z.add Z.pos_sub Pos.pred_double].
  destruct (mo =? 1) eqn:E.
  - apply Z.eqb_eq in E. subst mo.
    pose proof (daysFromCivil_next_month (y - 1) 12) as N.
    change (12 / 12) with 1 in N. change (12 mod 12 + 1) with 1 in N.
    replace (y - 1 + 1) with y in N by lia. rewrite N by lia.
    pose proof (daysInMonth_range (y - 1) 12).
    rewrite civilFromDays_inverse by lia. reflexivity.
  - apply Z.eqb_neq in E.
    pose proof (daysFromCivil_next_month y (mo - 1)) as N.
    replace ((mo - 1) / 12) with 0 in N by (Z.div_mod_to_equations; lia).
    replace ((mo - 1) mod 12 + 1) with mo in N by (Z.div_mod_to_equations; lia).
    rewrite Z.add_0_r in N. rewrite N by lia.
    pose proof (daysInMonth_range y (mo - 1)).
    rewrite civilFromDays_inverse by lia. cbn [fst snd].
    replace (mo - 1 - 1) with (mo - 2) by lia. reflexivity.
Qed.

(** X4.  Which month [getMoodsForMonth] files an entry under.  The date
    [y]-[mo]-[d] of an entry is parsed as UTC midnight and its year and
    month are then read in local time.  At and east of UTC the entry is
    listed under the month its date names.  West of UTC this holds from
    the second day of a month on; the entry of the first day of a month is
    listed under the month before, December of the year before for the
    first of January. *)
Theorem getMoodsForMonth_by_date (st : Store) (year month : Z) (m : MoodEntry)
    (y mo d : Z) :
  - msPerDay <= LocalTZA < msPerDay ->
  isoDate (date m) = Some (y, mo, d) ->
  (In m (getMoodsForMonth st year month) <->
   In m st /\
   if (LocalTZA <? 0) && (d =? 1)
   then (if mo =? 1 then y - 1 = year /\ month = 11
         else y = year /\ month = mo - 2)
   else y = year /\ month = mo - 1).
Proof.
  intros Hz Hs. unfold getMoodsForMonth, getAllMoods. rewrite filter_In.
  destruct (isoDate_chars _ _ _ _ Hs)
    as (a & b & c & e & f & g & h & i & _ & _ & _ & _ & _ & _ & Hm & Hdd).
  destruct ((LocalTZA <? 0) && (d =? 1)) eqn:E.
  - apply andb_prop in E as [E1 E2]. apply Z.ltb_lt in E1. apply Z.eqb_eq in E2.
    subst d. rewrite (local_month_first _ y mo) by (try assumption; lia).
    destruct (mo =? 1); rewrite andb_true_iff, !Z.eqb_eq; intuition lia.
  - assert (Hside : 0 <= LocalTZA \/ 2 <= d).
    { apply andb_false_elim in E as [E|E];
        [apply Z.ltb_ge in E; left; lia|apply Z.eqb_neq in E; right; lia]. }
    rewrite (local_month_same _ y mo d) by assumption.
    rewrite andb_true_iff, !Z.eqb_eq. intuition lia.
Qed.

Lemma find_rev_unique (st : Store) (d : string) :
  uniqueDates st ->
  find (fun m => String.eqb (date m) d) (rev st) = getMood st d.
Proof.
  intros U. unfold getMood, getAllMoods.
  destruct (find (fun m => String.eqb (date m) d) st) as [e|] eqn:F.
  - apply find_some in F as [Hin Hd]. apply String.eqb_eq in Hd.
    destruct (find (fun m => String.eqb (date m) d) (rev st)) as [e'|] eqn:F'.
    + apply find_some in F' as [Hin' Hd']. apply String.eqb_eq in Hd'.
      apply in_rev in Hin'.
      pose proof (getMood_unique st e U Hin) as G.
      pose proof (getMood_unique st e' U Hin') as G'.
      rewrite Hd in G. rewrite Hd' in G'. congruence.
    + apply in_rev in Hin. pose proof (find_none _ _ F' e Hin) as N.
      cbv beta in N. rewrite Hd, String.eqb_refl in N. discriminate.
  - destruct (find (fun m => String.eqb (date m) d) (rev st)) as [e'|] eqn:F';
      [|reflexivity].
    apply find_some in F' as [Hin' Hd']. apply in_rev in Hin'.
    now rewrite (find_none _ _ F e' Hin') in Hd'.
Qed.

(** The map of a month's entries, looked up by date. *)
Lemma Map_get_filter (p : MoodEntry -> bool) (st : Store) (d : string) :
  uniqueDates st ->
  Map_get (filter p st) d
  = match getMood st d with
    | Some e => if p e then Some e else None
    | None => None
    end.
Proof.
  intros U. unfold Map_get.
  assert (U' : uniqueDates (filter p st)).
  { unfold uniqueDates in *. induction st as [|x st IH]; simpl; [constructor|].
    inversion U as [|? ? Hn Hu]; subst.
    destruct (p x); [|now apply IH]. simpl. constructor; [|now apply IH].
    intros H. apply Hn. apply in_map_iff in H as (z & Hz & Hin).
    apply filter_In in Hin as [Hin _]. apply in_map_iff. now exists z. }
  rewrite (find_rev_unique _ d U').
  destruct (getMood st d) as [e|] eqn:G.
  - apply getMood_Some in G as [Hin Hd].
    destruct (p e) eqn:P.
    + subst d. apply getMood_unique; [assumption|]. apply filter_In. now split.
    + apply getMood_absent. intros z Hz Ed. apply filter_In in Hz as [Hz Pz].
      pose proof (getMood_unique st z U Hz) as G1.
      pose proof (getMood_unique st e U Hin) as G2.
      rewrite Ed, <- Hd, G2 in G1. congruence.
  - apply getMood_absent. intros z Hz Ed. apply filter_In in Hz as [Hz _].
    unfold getMood, getAllMoods in G.
    pose proof (find_none _ _ G z Hz) as N. cbv beta in N.
    rewrite Ed, String.eqb_refl in N. discriminate.
Qed.

(** X5.  What a day cell of the calendar shows.  In a store with one entry
    per date, at and east of UTC the cell of a day shows the entry
    [getMood] finds for the date of the cell.  West of UTC this holds from
    the second day of the month on, and the cell of the first day stays
    empty whatever the store holds: [getMoodsForMonth] has filed the entry
    of that day under the month before. *)
Theorem dayCell_shows (st : Store) (year month day : Z) :
  - msPerDay <= LocalTZA < msPerDay ->
  1000 <= year <= 9999 -> 0 <= month <= 11 ->
  1 <= day <= daysInMonth year (month + 1) ->
  uniqueDates st ->
  dayCell st year month day
  = (formatDate year month day,
     if (LocalTZA <? 0) && (day =? 1) then None
     else getMood st (formatDate year month day)).
Proof.
  intros Hz Hy Hm Hd U. unfold dayCell. f_equal.
  unfold getMoodsForMonth, getAllMoods. rewrite Map_get_filter by assumption.
  destruct (getMood st (formatDate year month day)) as [e|] eqn:G;
    [|now destruct ((LocalTZA <? 0) && (day =? 1))].
  apply getMood_Some in G as [Hin Ed].
  assert (Hs : isoDate (date e) = Some (year, month + 1, day)).
  { rewrite Ed, formatDate_text by assumption. apply isoDate_dateText; lia. }
  destruct ((LocalTZA <? 0) && (day =? 1)) eqn:E.
  - apply andb_prop in E as [E1 E2]. apply Z.ltb_lt in E1. apply Z.eqb_eq in E2.
    subst day.
    rewrite (local_month_first _ year (month + 1)) by (try assumption; lia).
    destruct (month + 1 =? 1).
    + replace (year - 1 =? year) with false by (symmetry; apply Z.eqb_neq; lia).
      reflexivity.
    + replace (month + 1 - 2 =? month) with false
        by (symmetry; apply Z.eqb_neq; lia).
      now rewrite andb_false_r.
  - assert (Hside : 0 <= LocalTZA \/ 2 <= day).
    { apply andb_false_elim in E as [E|E];
        [apply Z.ltb_ge in E; left; lia|apply Z.eqb_neq in E; right; lia]. }
    rewrite (local_month_same _ year (month + 1) day) by assumption.
    rewrite Z.eqb_refl.
    replace (month + 1 - 1 =? month) with true by (symmetry; apply Z.eqb_eq; lia).
    reflexivity.
Qed.

Lemma getFirstDayOfMonth_day (year month : Z) :
  100 <= year <= 200000 -> 0 <= month <= 11 ->
  - msPerDay <= LocalTZA <= msPerDay ->
  getFirstDayOfMonth year month
  = Some ((daysFromCivil year (month + 1) 1 + 4) mod 7).
Proof.
  intros Hy Hm Hz. unfold getFirstDayOfMonth, Date_local.
  replace ((0 <=? year) && (year <=? 99)) with false
    by (symmetry; apply andb_false_iff; right; apply Z.leb_gt; lia).
  replace (month / 12) with 0 by (Z.div_mod_to_equations; lia).
  replace (month mod 12 + 1) with (month + 1) by (Z.div_mod_to_equations; lia).
  rewrite Z.add_0_r, <- daysFromCivil_MakeDay by lia.
  pose proof (daysFromCivil_bound year (month + 1) 1) as Hb.
  unfold TimeClip.
  match goal with
  | |- getDay (if ?c then _ else _) = _ => replace c with true
  end.
  - unfold getDay. cbn [option_map]. do 3 f_equal.
    match goal with
    | |- Day ?t = _ =>
        replace t with (daysFromCivil year (month + 1) 1 * msPerDay) by lia
    end.
    apply Day_times.
  - symmetry. apply Z.leb_le. unfold msPerDay in *. lia.
Qed.

(** X21.  The months of the calendar line up.  Going to the next month
    with [navigateMonth(1)] keeps the month between 0 and 11, carrying
    into the year after December, and [navigateMonth(-1)] leads back.
    The weekday the next month starts on, as [getFirstDayOfMonth] gives
    it, is the weekday this month starts on moved on by the
    [getDaysInMonth] days of this month. *)
Theorem calendar_months_line_up (year month : Z) :
  100 <= year <= 199999 -> 0 <= month <= 11 ->
  - msPerDay <= LocalTZA <= msPerDay ->
  exists first days,
    getFirstDayOfMonth year month = Some first
    /\ getDaysInMonth year month = Some days
    /\ 0 <= first <= 6
    /\ let next := navigateMonth 1 (year, month) in
       0 <= snd next <= 11
       /\ navigateMonth (-1) next = (year, month)
       /\ getFirstDayOfMonth (fst next) (snd next)
          = Some ((first + days) mod 7).
Proof.
  intros Hy Hm Hz.
  rewrite getDaysInMonth_days by lia.
  replace ((0 <=? year) && (year <=? 99)) with false
    by (symmetry; apply andb_false_iff; right; apply Z.leb_gt; lia).
  do 2 eexists. split; [now apply getFirstDayOfMonth_day; lia|].
  split; [reflexivity|]. split.
  { pose proof (Z.mod_pos_bound (daysFromCivil year (month + 1) 1 + 4) 7). lia. }
  pose proof (daysFromCivil_next_month year (month + 1)) as N.
  pose proof (daysFromCivil_day year (month + 1) 1 (daysInMonth year (month + 1) - 1)) as D1.
  replace (1 + (daysInMonth year (month + 1) - 1))
    with (daysInMonth year (month + 1)) in D1 by lia.
  unfold navigateMonth.
  destruct (month + 1 <? 0) eqn:E0; [apply Z.ltb_lt in E0; lia|].
  destruct (11 <? month + 1) eqn:E1; cbv zeta; cbn [fst snd].
  - apply Z.ltb_lt in E1. assert (month = 11) by lia. subst month.
    split; [lia|]. split.
    { cbn. f_equal. lia. }
    rewrite getFirstDayOfMonth_day by lia. f_equal.
    change ((11 + 1) / 12) with 1 in N. change ((11 + 1) mod 12 + 1) with 1 in N.
    change (0 + 1) with 1.
    pose proof (daysFromCivil_day (year + 1) 1 0 1) as D2. cbn [Z.add] in D2.
    rewrite <- D2, N by lia. rewrite <- D1.
    rewrite Zplus_mod_idemp_l. f_equal. lia.
  - apply Z.ltb_ge in E1. split; [lia|]. split.
    { replace (month + 1 + -1 <? 0) with false by (symmetry; apply Z.ltb_ge; lia).
      replace (11 <? month + 1 + -1) with false by (symmetry; apply Z.ltb_ge; lia).
      f_equal. lia. }
    rewrite getFirstDayOfMonth_day by lia. f_equal.
    replace ((month + 1) / 12) with 0 in N by (Z.div_mod_to_equations; lia).
    replace ((month + 1) mod 12 + 1) with (month + 1 + 1) in N
      by (Z.div_mod_to_equations; lia).
    rewrite Z.add_0_r in N.
    pose proof (daysFromCivil_day year (month + 1 + 1) 0 1) as D2.
    cbn [Z.add] in D2.
    rewrite <- D2, N by lia. rewrite <- D1.
    rewrite Zplus_mod_idemp_l. f_equal. lia.
Qed.

(** ** Months and weekdays by the date of an entry *)

(** At and east of UTC the entries [getMoodsForMonth] lists for a month
    are the entries dated in it. *)
Lemma getMoodsForMonth_entries (st : Store) (year month : Z) :
  0 <= LocalTZA < msPerDay ->
  Forall onCalendar st ->
  getMoodsForMonth st year month = entriesOfMonth st year month.
Proof.
  intros Hz Hc. unfold getMoodsForMonth, entriesOfMonth, getAllMoods.
  apply filter_ext_in. intros m Hm.
  rewrite Forall_forall in Hc. specialize (Hc m Hm).
  unfold onCalendar, calendarDay in Hc. cbv zeta.
  destruct (isoDate (date m)) as [[[y mo] d]|] eqn:E; [|contradiction].
  apply (local_month_same _ y mo d); [unfold msPerDay in *; lia|exact E|left; lia].
Qed.

(** C5, as amended.  At and east of UTC, in a journal whose dates are
    calendar dates, take the entries dated in a month, and let their emojis
    name no member that the tally inherits from [Object.prototype].  When
    there is no such entry [getMostCommonMood] is [null].  Otherwise it is
    an emoji of these entries with the highest number of occurrences among
    them; among emojis that share that number it is the first in the
    property order of the tally: an emoji that is an array-index numeral
    comes before every emoji that is not, the smaller numeral first, and
    among the remaining emojis the one met first in the sequence of these
    entries.  In a month where no emoji is such a numeral the choice is
    the emoji met first. *)
Theorem getMostCommonMood_spec (st : Store) (year month : Z) :
  0 <= LocalTZA < msPerDay ->
  Forall onCalendar st ->
  let moods := entriesOfMonth st year month in
  Forall (fun m => ownKey (emoji m)) moods ->
  (moods = [] -> getMostCommonMood st year month = None)
  /\ (moods <> [] ->
      exists e,
        getMostCommonMood st year month = Some e
        /\ In e (map emoji moods)
        /\ (forall e', occurrences e' moods <= occurrences e moods)
        /\ (forall e', e' <> e -> occurrences e' moods = occurrences e moods ->
              match arrayIndex e, arrayIndex e' with
              | Some i, Some i' => i <= i'
              | Some _, None => True
              | None, Some _ => False
              | None, None => seenBefore e e' (map emoji moods)
              end)
        /\ (Forall (fun m => isArrayIndex (emoji m) = false) moods ->
            forall e', e' <> e -> occurrences e' moods = occurrences e moods ->
                       seenBefore e e' (map emoji moods))).
Proof.
  intros Hz Hc moods _. unfold getMostCommonMood.
  rewrite (getMoodsForMonth_entries st year month Hz Hc). fold moods. split.
  - now intros ->.
  - intros Hne. destruct (mostCommon_choice moods Hne) as (e & Hr & Hin & Hmax & Htie).
    exists e. split; [|split; [|split; [|split]]]; auto.
    + destruct moods; [contradiction|exact Hr].
    + intros Hplain e' Hdiff Hsame. specialize (Htie e' Hdiff Hsame).
      rewrite Forall_forall in Hplain.
      assert (Hplain' : forall x, In x (map emoji moods) -> arrayIndex x = None).
      { intros x Hx. apply in_map_iff in Hx as (m & <- & Hm).
        specialize (Hplain m Hm). unfold isArrayIndex in Hplain.
        now destruct (arrayIndex (emoji m)). }
      rewrite (Hplain' e Hin) in Htie.
      rewrite (Hplain' e') in Htie; [assumption|].
      apply occurrences_pos. rewrite Hsame. now apply occurrences_pos.
Qed.

(** The weekday an entry dated day [k] is filed under: the weekday of its
    date at and east of UTC, the weekday before it west of UTC. *)
Lemma weekdayOf_by_date (m : MoodEntry) (k : Z) :
  - msPerDay <= LocalTZA < msPerDay ->
  calendarDay (date m) = Some k ->
  weekdayOf m
  = at_index WEEKDAYS ((k - (if LocalTZA <? 0 then 1 else 0) + 4) mod 7).
Proof.
  intros Hz Hk. unfold weekdayOf. rewrite (calendarDay_parse _ _ Hk).
  unfold getDay. cbn [option_map]. now rewrite Day_zone.
Qed.

Lemma weekdayOf_east_of_UTC (m : MoodEntry) :
  0 <= LocalTZA < msPerDay ->
  onCalendar m ->
  weekdayOf m = weekdayOfDate m.
Proof.
  intros Hz Hc. pose proof (onCalendar_day m Hc) as Hk.
  rewrite (weekdayOf_by_date m (dayOf m)); [|unfold msPerDay in *; lia|exact Hk].
  unfold weekdayOfDate. rewrite Hk.
  replace (LocalTZA <? 0) with false by (symmetry; apply Z.ltb_ge; lia).
  now rewrite Z.sub_0_r.
Qed.

Lemma onCalendar_dated (m : MoodEntry) : onCalendar m -> dated m.
Proof.
  intros H. unfold dated, isValidDate. now rewrite (onCalendar_parse m H).
Qed.

Section WeekdaysByDate.

Variable st : Store.
Hypothesis east : 0 <= LocalTZA < msPerDay.
Hypothesis calendar : Forall onCalendar st.

Lemma entries_of_day (day : string) :
  filter (fallsOn day) st = filter (datedOn day) st.
Proof.
  apply filter_ext_in. intros m Hm.
  pose proof (proj1 (Forall_forall _ _) calendar m Hm) as Hc.
  unfold fallsOn, datedOn. now rewrite weekdayOf_east_of_UTC.
Qed.

Lemma countOn_by_date (day : string) : countOn day st = countOfDay day st.
Proof. unfold countOn, countOfDay. now rewrite entries_of_day. Qed.

Lemma averageOn_by_date (day : string) : averageOn day st = averageOfDay day st.
Proof.
  unfold averageOn, averageOfDay, totalOn, totalOfDay.
  now rewrite countOn_by_date, entries_of_day.
Qed.

Lemma eligible_by_date (day : string) : eligible day st <-> candidate day st.
Proof. unfold eligible, candidate. now rewrite countOn_by_date. Qed.

(** At and east of UTC, on calendar dates and emojis that name no
    inherited member of the value table, the insights are about the
    weekdays of the dates.  [generateWeeklyInsights] returns a list, empty
    when there are fewer than seven entries.  The weekday of its best-day
    insight is one on which at least two entries are dated, with the
    highest average mood value among such weekdays; the weekday of its
    worst-day insight is one of them with the lowest average and is not
    the weekday of the best-day insight; and with seven entries or more a
    best-day insight is present as soon as two entries are dated on the
    same weekday. *)
Lemma generateWeeklyInsights_east_of_UTC (now : Z) :
  Forall (fun m => ownKey (emoji m)) st ->
  exists ins,
    generateWeeklyInsights now st = Return ins
    /\ (Z.of_nat (List.length st) < 7 -> ins = [])
    /\ (forall d, In (Happiest d) ins ->
                  candidate d st
                  /\ forall d', candidate d' st ->
                                (averageOfDay d' st <= averageOfDay d st)%Q)
    /\ (forall d, In (Tougher d) ins ->
                  candidate d st
                  /\ (forall d', candidate d' st ->
                                 (averageOfDay d st <= averageOfDay d' st)%Q)
                  /\ ~ In (Happiest d) ins)
    /\ (7 <= Z.of_nat (List.length st) -> (exists d, candidate d st) ->
        exists d, In (Happiest d) ins).
Proof.
  intros Hown.
  destruct generateWeeklyInsights_local as (Hfew & Hret & Hins).
  assert (Hd : Forall dated st).
  { eapply Forall_impl; [|exact calendar]. exact onCalendar_dated. }
  destruct (Hret now st Hd) as [ins E]. exists ins. split; [exact E|].
  destruct (Hins now st ins Hown E) as (Hb & Hw & Hsome).
  split; [|split; [|split]].
  - intros Hlen. pose proof (Hfew now st Hlen) as E'. congruence.
  - intros d Hin. destruct (Hb d Hin) as [He Hmax].
    split; [now apply eligible_by_date|].
    intros d' Hd'. rewrite <- !averageOn_by_date.
    now apply Hmax, eligible_by_date.
  - intros d Hin. destruct (Hw d Hin) as (He & Hmin & Hnot).
    split; [now apply eligible_by_date|]. split; [|exact Hnot].
    intros d' Hd'. rewrite <- !averageOn_by_date.
    now apply Hmin, eligible_by_date.
  - intros Hlen [d Hc]. apply Hsome; [exact Hlen|].
    exists d. now apply eligible_by_date.
Qed.

End WeekdaysByDate.

(** ** The trend chart *)






(** ** Tallies in general, and the tags *)

(** An entry that carries the key [k] as its emoji: a tally of keys is the
    tally of such entries. *)
Lemma bump_tally (keys : list string) :
  fold_left bump keys []
  = tally (map (fun k => mkMood EmptyString k EmptyString [] 0) keys).
Proof.
  unfold tally. generalize (@nil (string * Z)).
  induction keys as [|k keys IH]; intros acc; simpl; [reflexivity|apply IH].
Qed.

Lemma uses_occurrences (k : string) (keys : list string) :
  occurrences k (map (fun k => mkMood EmptyString k EmptyString [] 0) keys)
  = uses k keys.
Proof.
  unfold occurrences, uses. f_equal.
  induction keys as [|x keys IH]; simpl; [reflexivity|].
  destruct (String.eqb x k); simpl; now rewrite IH.
Qed.

Lemma bump_In (keys : list string) (k : string) (c : Z) :
  In (k, c) (fold_left bump keys []) <-> c = uses k keys /\ 0 < c.
Proof. now rewrite bump_tally, tally_In, uses_occurrences. Qed.

Lemma bump_NoDup (keys : list string) : NoDup (map fst (fold_left bump keys [])).
Proof. rewrite bump_tally. apply tally_keys_NoDup. Qed.

Lemma tally_bump (moods : list MoodEntry) :
  tally moods = fold_left bump (map emoji moods) [].
Proof.
  unfold tally. generalize (@nil (string * Z)).
  induction moods as [|m moods IH]; intros acc; simpl; [reflexivity|apply IH].
Qed.

Lemma tagCounts_bump (moods : list MoodEntry) :
  tagCounts moods = fold_left bump (flat_map tags moods) [].
Proof.
  unfold tagCounts. generalize (@nil (string * Z)).
  induction moods as [|m moods IH]; intros acc; simpl; [reflexivity|].
  now rewrite fold_left_app, IH.
Qed.

Lemma sort_byCountDesc_sorted (l : list (string * Z)) :
  StronglySorted (fun a b => snd b <= snd a) (sort byCountDesc l).
Proof.
  apply (sort_sorted byCountDesc (fun _ => True)); unfold byCountDesc.
  - intros x y _ _ H. cbn [positive] in H. apply Z.ltb_ge in H. lia.
  - intros x y _ _ H. cbn [positive] in H. apply Z.ltb_lt in H. lia.
  - intros x y z _ _ _. lia.
  - now apply Forall_forall.
Qed.

Lemma StronglySorted_map {A B : Type} (R : B -> B -> Prop) (f : A -> B)
    (l : list A) :
  StronglySorted (fun a b => R (f a) (f b)) l -> StronglySorted R (map f l).
Proof.
  induction 1 as [|x l Hs IH Hall]; simpl; constructor; [assumption|].
  apply Forall_map. exact Hall.
Qed.


(** The tags and their counts, before the rows are built. *)
Lemma getAllTags_rows (st : Store) :
  getAllTags st
  = map (fun kv => mkTagCount (fst kv) (snd kv))
        (sort byCountDesc
              (Object_entries (fold_left bump (flat_map tags st) []))).
Proof. unfold getAllTags, getAllMoods. now rewrite tagCounts_bump. Qed.

(** X7.  [getAllTags] lists every tag some entry carries, once, with the
    number of times the entries carry it, and lists nothing else; the list
    runs from the most used tag to the least used.  The tags are taken to
    name no member every object inherits, which a tally would read in
    place of a count. *)
Theorem getAllTags_spec (st : Store) :
  Forall (fun m => Forall ownKey (tags m)) st ->
  (forall t c, In (mkTagCount t c) (getAllTags st)
               <-> c = tagUses t st /\ 0 < c)
  /\ (forall t, In t (map tagName (getAllTags st))
                <-> exists m, In m st /\ In t (tags m))
  /\ NoDup (map tagName (getAllTags st))
  /\ StronglySorted (fun a b => tagCount b <= tagCount a) (getAllTags st).
Proof.
  intros _. rewrite getAllTags_rows.
  set (counts := fold_left bump (flat_map tags st) []).
  assert (Hin : forall t c,
             In (mkTagCount t c)
                (map (fun kv => mkTagCount (fst kv) (snd kv))
                     (sort byCountDesc (Object_entries counts)))
             <-> c = tagUses t st /\ 0 < c).
  { intros t c. rewrite in_map_iff. unfold tagUses.
    rewrite <- (bump_In (flat_map tags st) t c). fold counts. split.
    - intros ([k v] & E & H). cbn [fst snd] in E. injection E as -> ->.
      apply (Permutation_in _ (Permutation_sym (sort_perm byCountDesc _))) in H.
      exact (proj1 (Object_entries_In _ _) H).
    - intros H. exists (t, c). split; [reflexivity|].
      apply (Permutation_in _ (sort_perm byCountDesc _)).
      exact (proj2 (Object_entries_In _ _) H). }
  split; [exact Hin|]. split; [|split].
  - intros t. split.
    + intros H. apply in_map_iff in H as ([t' c] & E & H). cbn in E. subst t'.
      apply Hin in H as [-> H]. unfold tagUses, uses in H.
      destruct (filter (fun y => String.eqb y t) (flat_map tags st)) as [|x l] eqn:F;
        [simpl in H; lia|].
      assert (Hx : In x (filter (fun y => String.eqb y t) (flat_map tags st)))
        by (rewrite F; now left).
      apply filter_In in Hx as [Hx Ex]. apply String.eqb_eq in Ex. subst x.
      apply in_flat_map in Hx. exact Hx.
    + intros (m & Hm & Ht).
      assert (Hp : 0 < tagUses t st).
      { unfold tagUses, uses.
        assert (Hx : In t (filter (fun y => String.eqb y t) (flat_map tags st))).
        { apply filter_In. split; [|apply String.eqb_refl].
          apply in_flat_map. now exists m. }
        destruct (filter (fun y => String.eqb y t) (flat_map tags st));
          [contradiction|simpl; lia]. }
      apply in_map_iff. exists (mkTagCount t (tagUses t st)). split; [reflexivity|].
      apply Hin. now split.
  - rewrite map_map. cbn [tagName].
    apply (Permutation_NoDup (l := map fst counts)); [|apply bump_NoDup].
    apply Permutation_map.
    eapply perm_trans; [|apply sort_perm].
    unfold Object_entries.
    eapply perm_trans;
      [|apply Permutation_app_tail; apply sort_perm].
    clear. induction counts as [|kv l IH]; simpl; [constructor|].
    destruct (isArrayIndex (fst kv)); simpl.
    + now apply perm_skip.
    + now apply Permutation_cons_app.
  - apply StronglySorted_map. cbn [tagCount]. apply sort_byCountDesc_sorted.
Qed.


(** ** Custom emojis *)

Lemma DEFAULT_EMOJIS_NoDup : NoDup DEFAULT_EMOJIS.
Proof.
  unfold DEFAULT_EMOJIS.
  repeat (constructor; [simpl; intuition discriminate|]). constructor.
Qed.

(** What the stored array of custom emojis keeps: no emoji twice, and none
    of the default ones. *)
Lemma emojiStep_keeps (custom : list string) (op : EmojiOp) :
  NoDup custom /\ (forall x, In x custom -> ~ In x DEFAULT_EMOJIS) ->
  NoDup (emojiStep custom op)
  /\ (forall x, In x (emojiStep custom op) -> ~ In x DEFAULT_EMOJIS).
Proof.
  intros [Hn Hd]. destruct op as [e|e]; cbn [emojiStep].
  - unfold addCustomEmoji, getCustomEmojis. cbn [fst].
    destruct (existsb (String.eqb e) custom) eqn:E1; cbn [negb andb];
      [now split|].
    destruct (existsb (String.eqb e) DEFAULT_EMOJIS) eqn:E2; cbn [negb];
      [now split|].
    apply existsb_eqb_false in E1, E2. split.
    + now apply NoDup_snoc.
    + intros x Hx. apply in_app_or in Hx as [Hx|[<-|[]]]; auto.
  - unfold removeCustomEmoji, getCustomEmojis. cbn [fst]. split.
    + now apply NoDup_filter.
    + intros x Hx. apply filter_In in Hx as [Hx _]. now apply Hd.
Qed.

Lemma getAllEmojis_NoDup (custom : list string) :
  NoDup custom -> (forall x, In x custom -> ~ In x DEFAULT_EMOJIS) ->
  NoDup (getAllEmojis custom).
Proof.
  intros Hn Hd. unfold getAllEmojis, getCustomEmojis.
  induction DEFAULT_EMOJIS_NoDup as [|x l Hx Hl IH]; simpl.
  - assumption.
  - constructor.
    + intros H. apply in_app_or in H as [H|H]; [contradiction|].
      apply (Hd x H). now left.
    + apply IH. intros y Hy Hy'. apply (Hd y Hy). now right.
Qed.

(** X9.  Whatever emojis are added and removed, starting from none, the
    list [getAllEmojis] returns shows no emoji twice, and it opens with the
    seven default emojis in their order. *)
Theorem getAllEmojis_distinct (ops : list EmojiOp) :
  let custom := fold_left emojiStep ops [] in
  NoDup (getAllEmojis custom)
  /\ firstn 7 (getAllEmojis custom) = DEFAULT_EMOJIS
  /\ skipn 7 (getAllEmojis custom) = getCustomEmojis custom.
Proof.
  cbv zeta. split; [|split; reflexivity].
  assert (H : NoDup (fold_left emojiStep ops [])
              /\ forall x, In x (fold_left emojiStep ops []) -> ~ In x DEFAULT_EMOJIS).
  { assert (H0 : NoDup (@nil string)
                 /\ forall x, In x (@nil string) -> ~ In x DEFAULT_EMOJIS)
      by (split; [constructor|intros x []]).
    revert H0. generalize (@nil string).
    induction ops as [|op ops IH]; intros custom H0; simpl; [exact H0|].
    apply IH. now apply emojiStep_keeps. }
  destruct H as [Hn Hd]. now apply getAllEmojis_NoDup.
Qed.

(** X10.  Adding and removing a custom emoji.  After [addCustomEmoji(e)]
    the list holds [e] and what it held before, and an emoji already
    listed changes nothing.  After [removeCustomEmoji(e)] the list holds
    the default emojis and the custom ones other than [e], so that a
    default emoji cannot be removed.  Removing an emoji that was added as a
    new one restores the stored array. *)
Theorem custom_emoji_add_remove (e : string) (custom : list string) :
  (forall x, In x (snd (addCustomEmoji e custom))
             <-> x = e \/ In x (getAllEmojis custom))
  /\ (In e (getAllEmojis custom) ->
      addCustomEmoji e custom = (custom, getAllEmojis custom))
  /\ (forall x, In x (snd (removeCustomEmoji e custom))
                <-> In x DEFAULT_EMOJIS \/ (In x custom /\ x <> e))
  /\ (~ In e (getAllEmojis custom) ->
      fst (removeCustomEmoji e (fst (addCustomEmoji e custom))) = custom).
Proof.
  unfold addCustomEmoji, removeCustomEmoji, getAllEmojis, getCustomEmojis.
  cbn [fst snd].
  assert (Hex : forall l, existsb (String.eqb e) l = true <-> In e l).
  { intros l. rewrite existsb_exists. split.
    - intros (x & Hx & E). apply String.eqb_eq in E. now subst.
    - intros H. exists e. split; [assumption|apply String.eqb_refl]. }
  split; [|split; [|split]].
  - intros x.
    destruct (existsb (String.eqb e) custom) eqn:E1; cbn [negb andb].
    + apply Hex in E1. rewrite in_app_iff. split; [tauto|].
      intros [->|H]; [now right|assumption].
    + destruct (existsb (String.eqb e) DEFAULT_EMOJIS) eqn:E2; cbn [negb].
      * apply Hex in E2. rewrite in_app_iff. split; [tauto|].
        intros [->|H]; [now left|assumption].
      * rewrite !in_app_iff. simpl. split.
        -- intros [H|[H|[<-|[]]]]; tauto.
        -- intros [->|[H|H]]; tauto.
  - intros H. apply in_app_or in H as [H|H].
    + apply Hex in H. rewrite H. cbn [negb andb]. now rewrite andb_false_r.
    + apply Hex in H. now rewrite H.
  - intros x. rewrite in_app_iff, filter_In, negb_true_iff, String.eqb_neq.
    tauto.
  - intros H.
    assert (H1 : existsb (String.eqb e) custom = false).
    { destruct (existsb (String.eqb e) custom) eqn:E; [|reflexivity].
      apply Hex in E. exfalso. apply H. apply in_or_app. now right. }
    assert (H2 : existsb (String.eqb e) DEFAULT_EMOJIS = false).
    { destruct (existsb (String.eqb e) DEFAULT_EMOJIS) eqn:E; [|reflexivity].
      apply Hex in E. exfalso. apply H. apply in_or_app. now left. }
    rewrite H1, H2. cbn [negb andb].
    rewrite filter_app. simpl. rewrite String.eqb_refl. cbn [negb].
    rewrite app_nil_r. apply filter_all. apply Forall_forall. intros x Hx.
    apply negb_true_iff, String.eqb_neq. intros ->. apply H.
    apply in_or_app. now right.
Qed.

(** ** The most frequent key of a tally, and the year in review *)




Lemma filter_filter {A : Type} (p q : A -> bool) (l : list A) :
  filter q (filter p l) = filter (fun x => p x && q x) l.
Proof.
  induction l as [|x l IH]; simpl; [reflexivity|].
  destruct (p x); simpl; [|exact IH]. destruct (q x); now rewrite IH.
Qed.





(** ** Mood patterns by weekday *)












(** ** Deleting, counting and undoing *)

Lemma find_filter_other {A : Type} (p q : A -> bool) (l : list A) :
  (forall x, p x = true -> q x = true) ->
  find p (filter q l) = find p l.
Proof.
  intros H. induction l as [|x l IH]; simpl; [reflexivity|].
  destruct (q x) eqn:Q; simpl.
  - destruct (p x); [reflexivity|exact IH].
  - destruct (p x) eqn:P; [|exact IH]. apply H in P. congruence.
Qed.

(** X13.  [deleteMood(d)] removes the date [d] and nothing else: afterwards
    [getMood(d)] is [null] and every other date answers as before, and a
    store kept most recent first stays so.  Deleting a date that has no
    entry leaves the store as it is, and so does deleting a second time.
    In a store with one entry per date the number of entries drops by one
    exactly when the date had an entry. *)
Theorem deleteMood_spec (d : string) (st : Store) :
  getMood (deleteMood d st) d = None
  /\ (forall d', d' <> d -> getMood (deleteMood d st) d' = getMood st d')
  /\ (getMood st d = None -> deleteMood d st = st)
  /\ deleteMood d (deleteMood d st) = deleteMood d st
  /\ (sortedByDateDesc st -> sortedByDateDesc (deleteMood d st))
  /\ (uniqueDates st ->
      getTotalEntries (deleteMood d st)
      = getTotalEntries st - match getMood st d with Some _ => 1 | None => 0 end).
Proof.
  unfold deleteMood, getMood, getTotalEntries, getAllMoods.
  split; [|split; [|split; [|split; [|split]]]].
  - destruct (find _ (filter _ st)) as [x|] eqn:F; [|reflexivity].
    apply find_some in F as [Hin Hd]. apply filter_In in Hin as [_ Hn].
    rewrite Hd in Hn. discriminate.
  - intros d' Hd'. apply find_filter_other. intros x Hx.
    apply String.eqb_eq in Hx. apply negb_true_iff, String.eqb_neq. congruence.
  - intros H. apply filter_all. apply Forall_forall. intros x Hx.
    apply negb_true_iff. exact (find_none _ _ H x Hx).
  - rewrite filter_filter. apply filter_ext. intros x.
    now destruct (negb (String.eqb (date x) d)).
  - apply filter_StronglySorted.
  - intros U. induction st as [|x st IH]; [reflexivity|].
    unfold uniqueDates in U. simpl in U. inversion U as [|? ? Hn U']; subst.
    specialize (IH U'). cbn [filter find].
    destruct (String.eqb (date x) d) eqn:E; cbn [negb List.length].
    + apply String.eqb_eq in E. subst d.
      rewrite filter_all; [rewrite Nat2Z.inj_succ; lia|].
      apply Forall_forall. intros z Hz. apply negb_true_iff, String.eqb_neq.
      intros Ez. apply Hn. rewrite <- Ez. now apply in_map.
    + rewrite !Nat2Z.inj_succ, IH. lia.
Qed.

Lemma sort_length {A : Type} (cmp : A -> A -> option Z) (l : list A) :
  List.length (sort cmp l) = List.length l.
Proof. symmetry. apply Permutation_length, sort_perm. Qed.

Lemma assign_length {A : Type} (l : list A) (i : nat) (x : A) :
  List.length (assign l i x) = List.length l.
Proof.
  revert i. induction l as [|y l IH]; intros i; simpl; [reflexivity|].
  destruct i; simpl; [reflexivity|now rewrite IH].
Qed.

Lemma findIndex_getMood (st : Store) (d : string) :
  findIndex (fun m => String.eqb (date m) d) st = None <-> getMood st d = None.
Proof.
  pose proof (findIndex_find (fun m => String.eqb (date m) d) st) as H.
  unfold getMood, getAllMoods. split; intros E.
  - now rewrite E in H.
  - rewrite E in H. destruct (findIndex _ st) as [i|] eqn:F; [|reflexivity].
    apply (findIndex_split _ _ _ (mkMood d d d [] 0)) in F
      as (l1 & x & l2 & -> & Hx & _).
    exfalso. pose proof (find_none _ _ E x (in_elt x l1 l2)) as N.
    cbv beta in N. congruence.
Qed.

Lemma saveMood_length (now : Z) (d e n : string)
    (tagsArg : option (list string)) (st : Store) :
  getTotalEntries (fst (saveMood now d e n tagsArg st))
  = getTotalEntries st + match getMood st d with Some _ => 0 | None => 1 end.
Proof.
  unfold getTotalEntries, saveMood, getAllMoods. cbn [fst].
  rewrite sort_length.
  destruct (findIndex (fun m => String.eqb (date m) d) st) as [i|] eqn:F.
  - rewrite assign_length.
    destruct (getMood st d) eqn:G; [lia|].
    apply findIndex_getMood in G. congruence.
  - apply findIndex_getMood in F. rewrite F, length_app. simpl. lia.
Qed.

(** X14.  [saveMood] and the number of entries: saving on a date that has
    no entry adds one entry to [getTotalEntries], saving on a date that
    has one leaves the number as it is; the number never drops, and after
    a save it is at least one. *)
Theorem saveMood_getTotalEntries (now : Z) (d e n : string)
    (tagsArg : option (list string)) (st : Store) :
  getTotalEntries (fst (saveMood now d e n tagsArg st))
  = getTotalEntries st + match getMood st d with Some _ => 0 | None => 1 end
  /\ getTotalEntries st <= getTotalEntries (fst (saveMood now d e n tagsArg st))
  /\ 1 <= getTotalEntries (fst (saveMood now d e n tagsArg st)).
Proof.
  pose proof (saveMood_length now d e n tagsArg st) as H.
  split; [exact H|].
  assert (H0 : 0 <= getTotalEntries st) by (unfold getTotalEntries; lia).
  destruct (getMood st d) as [m|] eqn:G; [|lia].
  apply getMood_Some in G as [Hin _].
  assert (H1 : 1 <= getTotalEntries st).
  { unfold getTotalEntries, getAllMoods.
    destruct st; [contradiction|]. cbn [List.length]. lia. }
  lia.
Qed.

(** A store in the order [saveMood] keeps: no entry is to be moved behind
    a later one. *)
Lemma sortedByDateDesc_stable (st : Store) :
  sortedByDateDesc st ->
  StronglySorted (fun a b => positive (byDateDesc a b) = false) st.
Proof.
  unfold sortedByDateDesc. induction 1 as [|x l Hs IH Hall]; constructor.
  - exact IH.
  - revert Hall. apply Forall_impl. intros y (ta & tb & Ha & Hb & Hle).
    unfold byDateDesc. rewrite Ha, Hb. cbn [elapsed positive].
    apply Z.ltb_ge. lia.
Qed.

(** Sorting a store in order with one more entry at its end only puts the
    entry in its place. *)
Lemma sort_snoc (st : Store) (x : MoodEntry) :
  StronglySorted (fun a b => positive (byDateDesc a b) = false) st ->
  exists l1 l2, st = l1 ++ l2 /\ sort byDateDesc (st ++ [x]) = l1 ++ x :: l2.
Proof.
  induction 1 as [|a l Hs IH Hall].
  - exists [], []. now split.
  - destruct IH as (l1 & l2 & El & Es). cbn [app sort fold_right].
    change (fold_right (insert byDateDesc) [] (l ++ [x]))
      with (sort byDateDesc (l ++ [x])).
    rewrite Es. destruct l1 as [|b l1].
    + cbn [app insert]. destruct (positive (byDateDesc a x)).
      * exists [], (a :: l). split; [reflexivity|]. cbn [app]. f_equal.
        simpl in El. subst l2.
        destruct l as [|c l]; [reflexivity|]. cbn [insert].
        inversion Hall as [|? ? Hc _]; subst. now rewrite Hc.
      * exists [a], l2. split; [now rewrite El|reflexivity].
    + cbn [app insert]. assert (Hb : positive (byDateDesc a b) = false).
      { rewrite El in Hall. now inversion Hall. }
      rewrite Hb. exists (a :: b :: l1), l2. split; [now rewrite El|reflexivity].
Qed.

(** X15.  Saving can be undone.  In a store kept most recent first, saving
    an entry on a date that has none and deleting that date again gives
    back the store as it was, entry for entry; the save itself only puts
    the new entry in its place among the others. *)
Theorem saveMood_deleteMood (now : Z) (d e n : string)
    (tagsArg : option (list string)) (st : Store) :
  sortedByDateDesc st -> getMood st d = None ->
  deleteMood d (fst (saveMood now d e n tagsArg st)) = st
  /\ exists l1 l2,
       st = l1 ++ l2
       /\ fst (saveMood now d e n tagsArg st)
          = l1 ++ snd (saveMood now d e n tagsArg st) :: l2.
Proof.
  intros Hs G.
  assert (F : findIndex (fun m => String.eqb (date m) d) st = None)
    by now apply findIndex_getMood.
  unfold saveMood, getAllMoods. rewrite F. cbn [fst snd].
  set (x := mkMood d e (trim n) _ now).
  destruct (sort_snoc st x (sortedByDateDesc_stable st Hs)) as (l1 & l2 & El & Es).
  rewrite Es. split; [|now exists l1, l2].
  unfold deleteMood, getAllMoods. rewrite filter_app. cbn [filter date x].
  rewrite String.eqb_refl. cbn [negb]. rewrite <- filter_app, <- El.
  apply filter_all. apply Forall_forall. intros z Hz.
  apply negb_true_iff. exact (find_none _ _ G z Hz).
Qed.

(** ** More on the CSV codec *)

Lemma csvRow_ends (m : MoodEntry) : exists mid, chars (csvRow m) = mid ++ [quote].
Proof.
  unfold csvRow. cbn [join]. rewrite !chars_app. cbn [list_ascii_of_string app].
  rewrite chars_app. cbn [list_ascii_of_string].
  exists (chars (date m) ++ ","%char :: chars (emoji m)
          ++ ","%char :: quote :: chars (doubleQuotes (note m))).
  rewrite <- app_assoc. cbn [app]. do 2 f_equal.
  rewrite <- app_assoc. reflexivity.
Qed.

Lemma split_nonempty (sep : ascii) (s : string) : split sep s <> [].
Proof.
  destruct s as [|c s]; simpl; [discriminate|].
  destruct (Ascii.eqb c sep); [discriminate|].
  destruct (split sep s); discriminate.
Qed.

(** The text of a store that is not empty: the header line and the rows,
    with no white space to trim around them. *)
Lemma exportToCSV_rows (st : Store) :
  st <> [] ->
  exists rest,
    exportToCSV st = ("Date,Emoji,Note" ++ String LF rest)%string
    /\ trim (exportToCSV st) = exportToCSV st.
Proof.
  intros Hne. unfold exportToCSV, getAllMoods.
  destruct st as [|m st]; [contradiction|].
  set (rows := map csvRow (m :: st)).
  assert (Er : exists r rows', rows = r :: rows') by (now eexists; eexists).
  destruct Er as (r & rows' & Er). rewrite Er.
  exists (join (String LF EmptyString) (r :: rows')).
  split; [reflexivity|].
  destruct (join_ends (r :: rows')) as [mid Hmid]; [discriminate| |].
  - rewrite <- Er. unfold rows. rewrite Forall_forall. intros x Hx.
    apply in_map_iff in Hx as (y & <- & _). apply csvRow_ends.
  - rewrite <- (string_of_list_ascii_of_string (join _ ("Date,Emoji,Note" :: _))).
    change (join (String LF EmptyString) ("Date,Emoji,Note" :: r :: rows'))
      with ("Date,Emoji,Note" ++ String LF (join (String LF EmptyString) (r :: rows')))%string.
    rewrite chars_app. cbn [list_ascii_of_string]. rewrite Hmid.
    cbn [app].
    replace ("a"%char :: "t"%char :: "e"%char :: ","%char :: "E"%char
             :: "m"%char :: "o"%char :: "j"%char :: "i"%char :: ","%char
             :: "N"%char :: "o"%char :: "t"%char :: "e"%char :: LF
             :: mid ++ [quote])
      with (("a"%char :: "t"%char :: "e"%char :: ","%char :: "E"%char
             :: "m"%char :: "o"%char :: "j"%char :: "i"%char :: ","%char
             :: "N"%char :: "o"%char :: "t"%char :: "e"%char :: LF
             :: mid) ++ [quote]) by reflexivity.
    apply trim_clean; split; reflexivity.
Qed.

(** X16.  What [exportToCSV] writes, [importFromCSV] accepts, but for the
    empty journal: the export of an empty store is the empty text, which
    the import rejects as a file without data rows; the export of any
    other store, whatever its dates, emojis and notes hold, is imported
    without an error, the number of rows imported being returned. *)
Theorem exportToCSV_accepted (now : Z) (st st0 : Store) :
  (st = [] ->
   exportToCSV st = EmptyString
   /\ importFromCSV now (exportToCSV st) st0
      = (Throw "CSV file is empty or has no data rows", st0))
  /\ (st <> [] ->
      exists n, fst (importFromCSV now (exportToCSV st) st0) = Return n
                /\ 0 <= n).
Proof.
  split.
  - intros ->. split; reflexivity.
  - intros Hne. destruct (exportToCSV_rows st Hne) as (rest & E & T).
    pose proof (importFromCSV_rows now (exportToCSV st) st0) as H.
    cbv zeta in H. rewrite T, E in H.
    rewrite split_first in H.
    2:{ simpl. intros C.
        repeat (destruct C as [C|C]; [discriminate|]). exact C. }
    cbn [hd tl] in H. rewrite E. rewrite H.
    + eexists. split; [reflexivity|]. lia.
    + cbn [List.length]. pose proof (split_nonempty LF rest).
      destruct (split LF rest); [contradiction|]. cbn [List.length]. lia.
    + reflexivity.
    + reflexivity.
Qed.

Lemma saveRow_total (now dateIndex emojiIndex noteIndex : Z) (rows : list string) :
  forall st,
    getTotalEntries st
    <= getTotalEntries (fold_left (saveRow now dateIndex emojiIndex noteIndex) rows st)
    <= getTotalEntries st + Z.of_nat (List.length rows).
Proof.
  induction rows as [|r rows IH]; intros st; cbn [fold_left List.length].
  - lia.
  - specialize (IH (saveRow now dateIndex emojiIndex noteIndex st r)).
    assert (Hs : getTotalEntries st
                 <= getTotalEntries (saveRow now dateIndex emojiIndex noteIndex st r)
                 <= getTotalEntries st + 1).
    { unfold saveRow. rewrite saveMood_length. destruct (getMood st _); lia. }
    rewrite Nat2Z.inj_succ. lia.
Qed.

(** X17.  An import only adds and overwrites.  Every date that had an
    entry before [importFromCSV] still has one afterwards, with the tags
    it had; the number of entries does not drop and grows by at most the
    number the call returns, and a call that ends in an error leaves the
    store as it was. *)
Theorem importFromCSV_keeps (now : Z) (csvContent : string) (st : Store) :
  uniqueDates st ->
  (forall d m, getMood st d = Some m ->
               exists m', getMood (snd (importFromCSV now csvContent st)) d = Some m'
                          /\ tags m' = tags m)
  /\ getTotalEntries st <= getTotalEntries (snd (importFromCSV now csvContent st))
  /\ (forall message, fst (importFromCSV now csvContent st) = Throw message ->
                      snd (importFromCSV now csvContent st) = st)
  /\ (forall n, fst (importFromCSV now csvContent st) = Return n ->
                0 <= n
                /\ getTotalEntries (snd (importFromCSV now csvContent st))
                   <= getTotalEntries st + n).
Proof.
  intros U. split; [|split; [|split]].
  - intros d m Hd.
    apply (importFromCSV_preserves
             (fun s => uniqueDates s
                       /\ exists m', getMood s d = Some m' /\ tags m' = tags m)).
    + intros now' d' e' n' s _ [Us (m' & Hs & Ht)]. split.
      * now apply saveMood_unique.
      * destruct (String.eqb d d') eqn:E.
        -- apply String.eqb_eq in E. subst d'.
           rewrite saveMood_getMood by assumption. eexists. split; [reflexivity|].
           rewrite saveMood_entry. cbn [tags]. now rewrite Hs.
        -- apply String.eqb_neq in E.
           rewrite saveMood_getMood_other by assumption. now exists m'.
    + split; [assumption|]. now exists m.
  - apply (importFromCSV_preserves
             (fun s => getTotalEntries st <= getTotalEntries s)); [|lia].
    intros now' d' e' n' s _ Hs. rewrite saveMood_length.
    destruct (getMood s d'); lia.
  - intros message. unfold importFromCSV.
    destruct (Z.of_nat (List.length _) <? 2); [reflexivity|].
    destruct (negb _ || negb _); [reflexivity|].
    destruct (fold_left _ _ (0, st)) as [imported st']. discriminate.
  - intros n. unfold importFromCSV.
    destruct (Z.of_nat (List.length _) <? 2); [discriminate|].
    destruct (negb _ || negb _); [discriminate|].
    rewrite importLine_fold. cbn [fst snd]. intros [= <-].
    match goal with
    | |- context [fold_left (saveRow ?a ?b ?c ?d) ?rows st] =>
        pose proof (saveRow_total a b c d rows st)
    end. lia.
Qed.

(** ** The fields of a CSV line *)

Lemma trimStartBytes_incl (n : nat) :
  forall l, (List.length l <= n)%nat -> incl (trimStartBytes l) l.
Proof.
  induction n as [|n IH]; intros l Hl.
  - destruct l; [apply incl_refl|simpl in Hl; lia].
  - destruct l as [|a l1]; [apply incl_refl|]. cbn [trimStartBytes].
    simpl in Hl.
    destruct (ws1 a); [apply incl_tl, IH; lia|].
    destruct l1 as [|b l2]; [apply incl_refl|]. simpl in Hl.
    destruct (ws2 a b); [do 2 apply incl_tl; apply IH; lia|].
    destruct l2 as [|c l3]; [apply incl_refl|]. simpl in Hl.
    destruct (ws3 a b c); [do 3 apply incl_tl; apply IH; lia|apply incl_refl].
Qed.

Lemma trimEndBytes_incl (n : nat) :
  forall l, (List.length l <= n)%nat -> incl (trimEndBytes l) l.
Proof.
  induction n as [|n IH]; intros l Hl.
  - destruct l; [apply incl_refl|simpl in Hl; lia].
  - destruct l as [|a l1]; [apply incl_refl|]. cbn [trimEndBytes].
    simpl in Hl.
    destruct (ws1 a); [apply incl_tl, IH; lia|].
    destruct l1 as [|b l2]; [apply incl_refl|]. simpl in Hl.
    destruct (ws2 b a); [do 2 apply incl_tl; apply IH; lia|].
    destruct l2 as [|c l3]; [apply incl_refl|]. simpl in Hl.
    destruct (ws3 c b a); [do 3 apply incl_tl; apply IH; lia|apply incl_refl].
Qed.

(** Trimming only takes characters away. *)
Lemma trim_incl (s : string) (c : ascii) :
  In c (chars (trim s)) -> In c (chars s).
Proof.
  unfold trim. rewrite list_ascii_of_string_of_list_ascii. intros H.
  apply in_rev in H. apply (trimEndBytes_incl _ _ (Nat.le_refl _)) in H.
  apply in_rev in H. now apply (trimStartBytes_incl _ _ (Nat.le_refl _)) in H.
Qed.

(** The scan never takes a double quote into a field. *)
Lemma csvStep_noquote (l : list ascii) :
  forall values current inQuotes,
    Forall (fun v => ~ In quote (chars v)) values ->
    ~ In quote (chars current) ->
    let '(values', current', _) :=
      fold_left csvStep l (values, current, inQuotes) in
    Forall (fun v => ~ In quote (chars v)) values'
    /\ ~ In quote (chars current').
Proof.
  induction l as [|c l IH]; intros values current inQuotes Hv Hc.
  - now split.
  - cbn [fold_left]. unfold csvStep at 2.
    destruct (Ascii.eqb c quote) eqn:Q; [now apply IH|].
    destruct (Ascii.eqb c comma && negb inQuotes).
    + apply IH; [|intros []]. constructor; [|assumption].
      intros H. apply Hc. now apply trim_incl.
    + apply IH; [assumption|]. rewrite chars_app. intros H.
      apply in_app_or in H as [H|[H|[]]]; [contradiction|].
      subst c. now rewrite Ascii.eqb_refl in Q.
Qed.

(** Without double quotes the scan cuts at every comma. *)
Lemma csvStep_unquoted (s : string) :
  forall values current,
    ~ In quote (chars s) ->
    let '(values', current', _) :=
      fold_left csvStep (chars s) (values, current, false) in
    rev (trim current' :: values')
    = rev values
      ++ match split comma s with
         | h :: t => trim (current ++ h) :: map trim t
         | [] => []
         end.
Proof.
  induction s as [|c s IH]; intros values current Hq.
  - cbn. now rewrite string_app_nil.
  - cbn [list_ascii_of_string fold_left]. simpl in Hq.
    assert (Q : Ascii.eqb c quote = false).
    { apply Ascii.eqb_neq. intros ->. tauto. }
    unfold csvStep at 2. rewrite Q. cbn [negb]. rewrite andb_true_r.
    cbn [split]. destruct (Ascii.eqb c comma) eqn:C.
    + specialize (IH (trim current :: values) EmptyString).
      destruct (fold_left csvStep (chars s) (trim current :: values, EmptyString, false))
        as [[values' current'] q].
      rewrite IH by tauto. pose proof (split_nonempty comma s) as N.
      destruct (split comma s) as [|h t]; [contradiction|].
      cbn [rev append map]. rewrite <- app_assoc, string_app_nil. reflexivity.
    + specialize (IH values (current ++ String c EmptyString)%string).
      destruct (fold_left csvStep (chars s)
                  (values, (current ++ String c EmptyString)%string, false))
        as [[values' current'] q].
      rewrite IH by tauto. pose proof (split_nonempty comma s) as N.
      destruct (split comma s) as [|h t]; [contradiction|].
      now rewrite string_app_assoc.
Qed.

(** X18.  The fields [parseCSVLine] returns: there is always at least one,
    and none of them holds a double quote, so that a quote doubled inside
    a quoted field is lost with the others.  On a line without double
    quotes the fields are what cutting the line at its commas gives, each
    one trimmed. *)
Theorem parseCSVLine_fields (line : string) :
  parseCSVLine line <> []
  /\ Forall (fun v => ~ In quote (chars v)) (parseCSVLine line)
  /\ (~ In quote (chars line) ->
      parseCSVLine line = map trim (split comma line)).
Proof.
  unfold parseCSVLine.
  pose proof (csvStep_noquote (chars line) [] EmptyString false) as N.
  pose proof (csvStep_unquoted line [] EmptyString) as U.
  destruct (fold_left csvStep (chars line) ([], EmptyString, false))
    as [[values current] q].
  split; [|split].
  - cbn [rev]. intros H. apply app_eq_nil in H as [_ H]. discriminate.
  - destruct N as [Hv Hc]; [constructor|intros []|].
    apply Forall_rev. constructor; [|assumption].
    intros H. apply Hc. now apply trim_incl.
  - intros Hq. rewrite (U Hq). cbn [rev app append].
    destruct (split comma line); reflexivity.
Qed.

(** ** The streaks together, and the reminder *)

Lemma getLongestStreak_runs (st : Store) :
  st <> [] -> Forall onCalendar st ->
  1 <= getLongestStreak st
  /\ (exists k, daysInARow st k (getLongestStreak st))
  /\ (forall k n, daysInARow st k n -> n <= getLongestStreak st).
Proof.
  intros Hne Hcal. unfold getLongestStreak, getAllMoods.
  pose proof (sort_perm byDateAsc st) as Hp.
  pose proof (sort_byDateAsc_sorted st Hcal) as Hasc.
  assert (Hcal' : Forall onCalendar (sort byDateAsc st))
    by (apply (Permutation_Forall Hp); assumption).
  assert (Hdays : forall k, hasEntryOn st k
                            <-> In k (map dayOf (sort byDateAsc st))).
  { intros k. rewrite hasEntryOn_days by assumption. split; intros H.
    - eapply Permutation_in; [apply Permutation_map, Hp|assumption].
    - eapply Permutation_in;
        [apply Permutation_map, Permutation_sym, Hp|assumption]. }
  destruct (sort byDateAsc st) as [|first rest] eqn:E.
  { destruct st as [|x st]; [contradiction|].
    apply Permutation_length in Hp. discriminate. }
  split; [apply longestLoop_ge|]. split.
  - destruct (longestLoop_sound (fun k => hasEntryOn st k) rest first 1 1)
      as [k Hk]; auto.
    + intros m Hm. apply Hdays. simpl. right. now apply in_map.
    + intros j Hj. replace j with 0 by lia. rewrite Z.sub_0_r.
      apply Hdays. now left.
    + exists (dayOf first). intros j Hj. replace j with 0 by lia.
      rewrite Z.add_0_r. apply Hdays. now left.
    + now exists k.
  - intros k n Hrun. apply longestLoop_complete with (k := k); auto; [lia|].
    intros j Hj. specialize (Hrun j Hj). apply Hdays in Hrun.
    destruct Hrun as [<-|H]; [left; lia|now right].
Qed.

(** Days in a row are days of different entries. *)
Lemma daysInARow_length (st : Store) (k n : Z) :
  Forall onCalendar st -> daysInARow st k n -> n <= Z.of_nat (List.length st).
Proof.
  intros Hcal Hrun. destruct (Z_le_gt_dec n 0) as [L|L]; [lia|].
  set (L0 := map (fun j => k + Z.of_nat j) (seq 0 (Z.to_nat n))).
  assert (Hn : NoDup L0).
  { unfold L0. apply NoDup_map_NoDup_ForallPairs; [|apply seq_NoDup].
    intros a b _ _ E. lia. }
  assert (Hi : incl L0 (map dayOf st)).
  { intros x Hx. unfold L0 in Hx. apply in_map_iff in Hx as (j & <- & Hj).
    apply in_seq in Hj. apply hasEntryOn_days; [assumption|].
    apply Hrun. lia. }
  pose proof (NoDup_incl_length Hn Hi) as Hlen.
  unfold L0 in Hlen. rewrite !length_map, length_seq in Hlen. lia.
Qed.

(** X19.  The streaks at and east of UTC, for a store of calendar dates
    with one entry per date that is not empty.  [getCurrentStreak] is [0]
    when the latest entry is older than yesterday; otherwise it is the
    length of the run of days in a row that ends with the latest entry:
    every day of the run has an entry and the day before the run has none.
    The current streak is never longer than [getLongestStreak], which is
    never more than [getTotalEntries]. *)
Theorem streaks_east_of_UTC (now : Z) (st : Store) :
  0 <= LocalTZA < msPerDay ->
  Forall onCalendar st -> uniqueDates st -> st <> [] ->
  (exists latest,
     hasEntryOn st latest
     /\ (forall k, hasEntryOn st k -> k <= latest)
     /\ (latest < Day (now + LocalTZA) - 1 -> getCurrentStreak now st = 0)
     /\ (Day (now + LocalTZA) - 1 <= latest ->
         1 <= getCurrentStreak now st
         /\ daysInARow st (latest - getCurrentStreak now st + 1)
                       (getCurrentStreak now st)
         /\ ~ hasEntryOn st (latest - getCurrentStreak now st)))
  /\ 0 <= getCurrentStreak now st <= getLongestStreak st
  /\ getLongestStreak st <= getTotalEntries st.
Proof.
  intros Hz Hcal U Hne.
  destruct (getLongestStreak_runs st Hne Hcal) as (H1 & [k Hk] & Hmax).
  pose proof (getCurrentStreak_east_of_UTC Hz now st Hcal U Hne) as Hcur.
  split; [exact Hcur|]. split.
  - destruct Hcur as (latest & _ & _ & Hold & Hnew).
    destruct (Z_lt_ge_dec latest (Day (now + LocalTZA) - 1)) as [L|L].
    + rewrite (Hold L). lia.
    + destruct Hnew as (Hpos & Hrun & _); [lia|].
      split; [lia|]. exact (Hmax _ _ Hrun).
  - unfold getTotalEntries, getAllMoods. exact (daysInARow_length st k _ Hcal Hk).
Qed.

Lemma getHours_range (t : Z) :
  exists h, getHours (Some t) = Some h /\ 0 <= h <= 23
            /\ (t + LocalTZA) mod msPerDay = 3600000 * h + (t + LocalTZA) mod 3600000.
Proof.
  unfold getHours. cbn [option_map]. eexists. split; [reflexivity|].
  unfold msPerDay. Z.div_mod_to_equations. lia.
Qed.

(** X20.  The daily reminder.  [shouldSendReminder] answers [true] only in
    the hour from 20:00, local time, and only when [getMood] finds no
    entry for the date of the clock read in UTC.  So an entry saved under
    that date, the one the page opens on, silences it.  In a zone at
    least four hours west of UTC the date looked up in that hour is the
    day after the local day. *)
Theorem shouldSendReminder_spec (now : Z) (st : Store) :
  (shouldSendReminder now st = true ->
   getHours (Some now) = Some 20 /\ getMood st (isoDateOf now) = None)
  /\ (forall t e n tagsArg,
        uniqueDates st ->
        shouldSendReminder now (fst (saveMood t (isoDateOf now) e n tagsArg st))
        = false)
  /\ (- msPerDay <= LocalTZA <= - 14400000 -> fourDigitYear (Day now) ->
      getHours (Some now) = Some 20 ->
      calendarDay (isoDateOf now) = Some (Day (now + LocalTZA) + 1)).
Proof.
  split; [|split].
  - unfold shouldSendReminder.
    destruct (getHours_range now) as (h & Hh & Hr & _). rewrite Hh.
    destruct ((20 <=? h) && (h <? 21)) eqn:E; [|discriminate].
    apply andb_prop in E as [E1 E2]. apply Z.leb_le in E1. apply Z.ltb_lt in E2.
    destruct (getMood st (isoDateOf now)); [discriminate|].
    intros _. split; [f_equal; lia|reflexivity].
  - intros t e n tagsArg U. unfold shouldSendReminder.
    rewrite saveMood_getMood by assumption.
    destruct (getHours (Some now)) as [h|]; [|reflexivity].
    now destruct ((20 <=? h) && (h <? 21)).
  - intros Hz Hy Hh. rewrite isoDateOf_calendarDay by assumption. f_equal.
    destruct (getHours_range now) as (h & Hh' & _ & Hm).
    rewrite Hh in Hh'. injection Hh' as <-.
    unfold Day in *. unfold msPerDay in *. Z.div_mod_to_equations. lia.
Qed.

(** ** Tag counts under tag changes *)

Lemma uses_app (t : string) (l1 l2 : list string) :
  uses t (l1 ++ l2) = uses t l1 + uses t l2.
Proof. unfold uses. rewrite filter_app, length_app. lia. Qed.

Lemma tagUses_perm (t : string) (l l' : list MoodEntry) :
  Permutation l l' -> tagUses t l = tagUses t l'.
Proof.
  intros H. unfold tagUses, uses. f_equal. apply Permutation_length.
  apply filter_perm. now apply Permutation_flat_map.
Qed.

Lemma tagUses_cons (t : string) (m : MoodEntry) (l : list MoodEntry) :
  tagUses t (m :: l) = uses t (tags m) + tagUses t l.
Proof. unfold tagUses. cbn [flat_map]. apply uses_app. Qed.

(** The store is the entry of a date and the rest. *)
Lemma getMood_split (st : Store) (d : string) (m : MoodEntry) :
  uniqueDates st -> getMood st d = Some m ->
  Permutation st (m :: deleteMood d st).
Proof.
  unfold uniqueDates, getMood, deleteMood, getAllMoods.
  induction st as [|x st IH]; intros U G; [discriminate|].
  simpl in U. inversion U as [|? ? Hn U']; subst. cbn [find filter] in *.
  destruct (String.eqb (date x) d) eqn:E; cbn [negb].
  - injection G as <-. apply perm_skip. apply String.eqb_eq in E. subst d.
    rewrite filter_all; [apply Permutation_refl|].
    apply Forall_forall. intros z Hz. apply negb_true_iff, String.eqb_neq.
    intros Ez. apply Hn. rewrite <- Ez. now apply in_map.
  - eapply perm_trans; [apply perm_skip, IH; assumption|]. apply perm_swap.
Qed.

(** How a save changes the count of a tag: by what the saved entry carries
    in place of what the entry of the date carried. *)
Lemma saveMood_tagUses (now : Z) (d e n : string) (tagsArg : option (list string))
    (st : Store) (m : MoodEntry) (t : string) :
  uniqueDates st -> getMood st d = Some m ->
  tagUses t (fst (saveMood now d e n tagsArg st))
  = tagUses t st - uses t (tags m)
    + uses t (tags (snd (saveMood now d e n tagsArg st))).
Proof.
  intros U G.
  destruct (saveMood_unique now d e n tagsArg st U) as [P _].
  rewrite <- (tagUses_perm t _ _ P), tagUses_cons.
  rewrite (tagUses_perm t _ _ (getMood_split st d m U G)), tagUses_cons. lia.
Qed.

Lemma uses_filter_other (t tag : string) (l : list string) :
  uses t (filter (fun x => negb (String.eqb x tag)) l)
  = if String.eqb t tag then 0 else uses t l.
Proof.
  unfold uses. rewrite filter_filter.
  destruct (String.eqb t tag) eqn:E.
  - apply String.eqb_eq in E. subst t. rewrite filter_none; [reflexivity|].
    apply Forall_forall. intros x _. now destruct (String.eqb x tag).
  - apply String.eqb_neq in E. f_equal. f_equal. apply filter_ext. intros x.
    destruct (String.eqb x t) eqn:Ex; [|now rewrite andb_false_r].
    apply String.eqb_eq in Ex. subst x.
    apply String.eqb_neq in E. now rewrite E.
Qed.

(** X25.  Tag changes and the tag statistics, in a store with one entry per
    date and for a date that has an entry.  [addTagToMood] raises by one
    the number of times the entries carry the tag, unless the entry
    already carries it, and then changes nothing; afterwards [getAllTags]
    lists the tag with that number.  [removeTagFromMood] takes away what
    the entry carried of the tag.  Either leaves the numbers of the other
    tags as they are.  The tags are taken to name no member every object
    inherits. *)
Theorem tag_changes_counts (now : Z) (d tag : string) (st : Store) (m : MoodEntry) :
  uniqueDates st -> getMood st d = Some m ->
  Forall (fun m0 => Forall ownKey (tags m0)) st -> ownKey tag ->
  (forall t,
     tagUses t (fst (addTagToMood now d tag st))
     = tagUses t st
       + if String.eqb t tag && negb (existsb (String.eqb tag) (tags m))
         then 1 else 0)
  /\ (existsb (String.eqb tag) (tags m) = true ->
      fst (addTagToMood now d tag st) = st)
  /\ (forall t,
        tagUses t (fst (removeTagFromMood now d tag st))
        = if String.eqb t tag then tagUses t st - uses t (tags m)
          else tagUses t st)
  /\ forall c, In (mkTagCount tag c) (getAllTags (fst (addTagToMood now d tag st)))
               <-> c = tagUses tag st
                       + (if existsb (String.eqb tag) (tags m) then 0 else 1).
Proof.
  intros U G _ _.
  assert (Hadd : forall t,
             tagUses t (fst (addTagToMood now d tag st))
             = tagUses t st
               + if String.eqb t tag && negb (existsb (String.eqb tag) (tags m))
                 then 1 else 0).
  { intros t. unfold addTagToMood. rewrite G.
    destruct (existsb (String.eqb tag) (tags m)) eqn:E; cbn [fst negb].
    - rewrite andb_false_r. lia.
    - rewrite (saveMood_tagUses _ _ _ _ _ _ m t U G), saveMood_entry.
      cbn [tags]. rewrite uses_app, andb_true_r.
      assert (E1 : uses t [tag] = if String.eqb t tag then 1 else 0).
      { unfold uses. cbn [filter]. rewrite (String.eqb_sym tag t).
        now destruct (String.eqb t tag). }
      rewrite E1. lia. }
  split; [exact Hadd|]. split; [|split].
  - intros E. unfold addTagToMood. now rewrite G, E.
  - intros t. unfold removeTagFromMood. rewrite G. cbn [fst].
    rewrite (saveMood_tagUses _ _ _ _ _ _ m t U G), saveMood_entry.
    cbn [tags]. rewrite uses_filter_other.
    destruct (String.eqb t tag); lia.
  - intros c.
    rewrite getAllTags_rows, in_map_iff.
    assert (Hpos : 0 < tagUses tag (fst (addTagToMood now d tag st))).
    { rewrite Hadd, String.eqb_refl. cbn [andb].
      assert (0 <= tagUses tag st) by (unfold tagUses, uses; lia).
      destruct (existsb (String.eqb tag) (tags m)) eqn:E; cbn [negb]; [|lia].
      apply existsb_exists in E as (x & Hx & Ex). apply String.eqb_eq in Ex.
      subst x. rewrite (tagUses_perm tag _ _ (getMood_split st d m U G)), tagUses_cons.
      assert (0 < uses tag (tags m)).
      { unfold uses.
        assert (Hin : In tag (filter (fun y => String.eqb y tag) (tags m)))
          by (apply filter_In; split; [assumption|apply String.eqb_refl]).
        destruct (filter _ (tags m)); [contradiction|simpl; lia]. }
      assert (0 <= tagUses tag (deleteMood d st)) by (unfold tagUses, uses; lia).
      lia. }
    specialize (Hadd tag). rewrite String.eqb_refl in Hadd. cbn [andb] in Hadd.
    replace (if existsb (String.eqb tag) (tags m) then 0 else 1)
      with (if negb (existsb (String.eqb tag) (tags m)) then 1 else 0)
      by (now destruct (existsb (String.eqb tag) (tags m))).
    rewrite <- Hadd. split.
    + intros ([k v] & Ek & Hin). cbn [fst snd] in Ek. injection Ek as -> ->.
      apply (Permutation_in _ (Permutation_sym (sort_perm byCountDesc _))) in Hin.
      apply Object_entries_In, bump_In in Hin. unfold tagUses. tauto.
    + intros ->. exists (tag, tagUses tag (fst (addTagToMood now d tag st))).
      split; [reflexivity|].
      apply (Permutation_in _ (sort_perm byCountDesc _)).
      apply Object_entries_In, bump_In. split; [reflexivity|exact Hpos].
Qed.
End MoodPad.

(** ** Instances *)

(** An engine that reads calendar dates and nothing else. *)
Definition calendarOnly : string -> option Z := fun _ => None.

(** Local time zones: UTC, and five hours west of it. *)
Definition UTC : Z := 0.
Definition UTCminus5 : Z := -18000000.

(** The instant at which it is noon, local time, on a date. *)
Definition localNoon (tz y m d : Z) : Z :=
  msPerDay * daysFromCivil y m d + 43200000 - tz.

(** Three days in a row, logged one after the other. *)
Definition threeDays : Store :=
  run calendarOnly
      [Save 0 "2024-12-06" "😊" EmptyString None;
       Save 0 "2024-12-07" "😐" EmptyString None;
       Save 0 "2024-12-08" "😊" EmptyString None] [].

(** Eight days in a row. *)
Definition eightDays : Store :=
  map entryOn ["2024-12-08"; "2024-12-07"; "2024-12-06"; "2024-12-05";
               "2024-12-04"; "2024-12-03"; "2024-12-02"; "2024-12-01"].

(** A journal imported from a sheet that codes moods as numbers: 3 on the
    first of March, 5 on the second. *)
Definition numeralMonth : Store :=
  run calendarOnly
      [Import 0 (join (String LF EmptyString)
                      ["Date,Emoji,Note"; "2024-03-01,3,"; "2024-03-02,5,"])] [].

(** A week with two Sundays, the first and the eighth of December 2024,
    and no Saturday. *)
Definition twoSundays : Store :=
  map entryOn ["2024-12-08"; "2024-12-06"; "2024-12-05"; "2024-12-04";
               "2024-12-03"; "2024-12-02"; "2024-12-01"].

(** A journal with the first of January 2025 alone. *)
Definition newYear : Store := [entryOn "2025-01-01"].

(** A note that quotes a word. *)
Definition quotedNote : string :=
  ("say " ++ String quote ("hi" ++ String quote EmptyString))%string.

Definition quotedStore : Store :=
  run calendarOnly [Save 0 "2024-12-08" "😊" quotedNote None] [].

(** A file whose header has an [Update] column and no [Date] column. *)
Definition updateFile : string :=
  join (String LF EmptyString) ["Update,Emoji"; "2024-12-08,😊"].

Lemma saveMood_contract_witness :
  uniqueDates [mkMood "2024-12-07" "😊" EmptyString ["work"] 0]
  /\ tags (snd (saveMood calendarOnly 5 "2024-12-07" "😢" " rough day " None
                         [mkMood "2024-12-07" "😊" EmptyString ["work"] 0]))
     = ["work"].
Proof.
  assert (H : uniqueDates [mkMood "2024-12-07" "😊" EmptyString ["work"] 0]).
  { unfold uniqueDates. simpl. constructor; [simpl; tauto|constructor]. }
  split; [exact H|].
  exact (proj1 (proj2 (proj2 (proj2 (proj2
           (saveMood_contract calendarOnly 5 "2024-12-07" "😢" " rough day "
                              None _ H)))))).
Defined.

Lemma getAllMoods_sorted_witness :
  sortedByDateDesc calendarOnly
    (getAllMoods
       (run calendarOnly
            [Save 0 "2024-12-06" "😊" EmptyString None;
             Save 1 "2024-12-08" "😢" EmptyString None;
             Save 2 "2024-12-07" "😐" EmptyString None;
             Delete "2024-12-06";
             Import 3 (exportToCSV threeDays)] [])).
Proof.
  apply getAllMoods_sorted. repeat constructor.
Defined.

Lemma tags_stay_distinct_witness :
  distinctTags
    (run calendarOnly
         [Save 0 "2024-12-08" "😊" EmptyString (Some ["work"; "health"]);
          AddTag 1 "2024-12-08" "work";
          AddTag 2 "2024-12-08" "social";
          RemoveTag 3 "2024-12-08" "health"] []).
Proof.
  apply (proj1 (tags_stay_distinct calendarOnly)).
  repeat constructor; simpl; intuition discriminate.
Defined.

(** C9 as stated fails: a save that passes the same tag twice stores it
    twice. *)
Lemma saveMood_keeps_repeated_tags :
  ~ distinctTags
      (run calendarOnly
           [Save 0 "2024-12-08" "😊" EmptyString (Some ["work"; "work"])] []).
Proof.
  intros H. vm_compute in H.
  inversion H as [|m l Hnd _]. inversion Hnd as [|t l' Hnot _].
  apply Hnot. now left.
Qed.

Lemma getLongestStreak_spec_witness :
  (exists k, daysInARow eightDays k (getLongestStreak calendarOnly eightDays))
  /\ forall k n, daysInARow eightDays k n ->
                 n <= getLongestStreak calendarOnly eightDays.
Proof.
  apply (proj1 (proj2 (proj2 (getLongestStreak_spec calendarOnly)))).
  - discriminate.
  - repeat constructor; unfold onCalendar; vm_compute; discriminate.
Defined.

Lemma getMostCommonMood_spec_witness :
  entriesOfMonth threeDays 2024 11 <> []
  /\ exists e,
       getMostCommonMood calendarOnly UTC threeDays 2024 11 = Some e
       /\ In e (map emoji (entriesOfMonth threeDays 2024 11))
       /\ forall e', occurrences e' (entriesOfMonth threeDays 2024 11)
                     <= occurrences e (entriesOfMonth threeDays 2024 11).
Proof.
  assert (Hz : 0 <= UTC < msPerDay) by (vm_compute; split; [discriminate|reflexivity]).
  assert (Hc : Forall onCalendar threeDays)
    by (repeat constructor; unfold onCalendar; vm_compute; discriminate).
  assert (Hown : Forall (fun m => ownKey (emoji m)) (entriesOfMonth threeDays 2024 11))
    by (vm_compute; repeat constructor;
        let C := fresh in intros C; simpl in C; intuition discriminate).
  assert (H : entriesOfMonth threeDays 2024 11 <> [])
    by (vm_compute; discriminate).
  split; [exact H|].
  destruct (proj2 (getMostCommonMood_spec calendarOnly UTC threeDays 2024 11
                                          Hz Hc Hown) H)
    as (e & He & Hin & Hmax & _).
  exists e. split; [exact He|]. split; [exact Hin|exact Hmax].
Defined.

(** C5 as stated fails: in [numeralMonth] the entries of March 2024 are,
    in their sequence, the entry of the second, mood 5, and the entry of
    the first, mood 3; both moods occur once, and the answer is 3, the
    mood met last. *)
Lemma getMostCommonMood_numeral_first :
  ~ (forall e e',
       getMostCommonMood calendarOnly UTC numeralMonth 2024 2 = Some e ->
       e' <> e ->
       occurrences e' (entriesOfMonth numeralMonth 2024 2)
       = occurrences e (entriesOfMonth numeralMonth 2024 2) ->
       seenBefore e e' (map emoji (entriesOfMonth numeralMonth 2024 2))).
Proof.
  intros H.
  assert (Em : map emoji (entriesOfMonth numeralMonth 2024 2) = ["5"; "3"])
    by (vm_compute; reflexivity).
  specialize (H "3" "5").
  rewrite Em in H.
  destruct H as (l1 & l2 & E & Hnot).
  - vm_compute. reflexivity.
  - discriminate.
  - vm_compute. reflexivity.
  - destruct l1 as [|a l1]; [discriminate|].
    injection E as <- E. apply Hnot. now left.
Qed.

(** West of UTC the entry of the first day of a month is counted with the
    month before: five hours west of UTC a journal with the first of
    January 2025 alone has no most common mood in January 2025 and has one
    in December 2024. *)
Lemma getMostCommonMood_west_of_UTC :
  entriesOfMonth newYear 2025 0 = newYear
  /\ entriesOfMonth newYear 2024 11 = []
  /\ getMostCommonMood calendarOnly UTCminus5 newYear 2025 0 = None
  /\ getMostCommonMood calendarOnly UTCminus5 newYear 2024 11 = Some "😊"
  /\ getMostCommonMood calendarOnly UTC newYear 2025 0 = Some "😊"
  /\ getMostCommonMood calendarOnly UTC newYear 2024 11 = None.
Proof. repeat split; vm_compute; reflexivity. Qed.

Lemma generateWeeklyInsights_east_of_UTC_witness :
  exists ins,
    generateWeeklyInsights calendarOnly UTC 0 eightDays = Return ins
    /\ exists d, In (Happiest d) ins /\ candidate d eightDays.
Proof.
  assert (Hz : 0 <= UTC < msPerDay) by (vm_compute; split; [discriminate|reflexivity]).
  assert (Hc : Forall onCalendar eightDays)
    by (repeat constructor; unfold onCalendar; vm_compute; discriminate).
  assert (Hown : Forall (fun m => ownKey (emoji m)) eightDays)
    by (vm_compute; repeat constructor;
        let C := fresh in intros C; simpl in C; intuition discriminate).
  destruct (generateWeeklyInsights_east_of_UTC calendarOnly UTC eightDays Hz Hc 0 Hown)
    as (ins & E & _ & Hb & _ & Hsome).
  exists ins. split; [exact E|].
  destruct Hsome as [d Hd].
  - vm_compute. discriminate.
  - exists "Sunday". split; [simpl; tauto|]. vm_compute. discriminate.
  - exists d. split; [exact Hd|]. exact (proj1 (Hb d Hd)).
Defined.

(** C8.  In a zone west of UTC the weekday insights are about the wrong
    weekday.  [twoSundays] has seven entries, two of them dated on a
    Sunday, one on each day from Monday to Friday and none on a Saturday.
    Five hours west of UTC [generateWeeklyInsights] names Saturday the
    best day; in UTC, on the same journal, it names Sunday. *)
Theorem generateWeeklyInsights_west_of_UTC :
  map date twoSundays
  = ["2024-12-08"; "2024-12-06"; "2024-12-05"; "2024-12-04"; "2024-12-03";
     "2024-12-02"; "2024-12-01"]
  /\ map weekdayOfDate twoSundays
     = [Some "Sunday"; Some "Friday"; Some "Thursday"; Some "Wednesday";
        Some "Tuesday"; Some "Monday"; Some "Sunday"]
  /\ countOfDay "Saturday" twoSundays = 0
  /\ countOfDay "Sunday" twoSundays = 2
  /\ generateWeeklyInsights calendarOnly UTCminus5
       (localNoon UTCminus5 2024 12 9) twoSundays
     = Return [Happiest "Saturday"; MostFrequent "😊" 7 7]
  /\ generateWeeklyInsights calendarOnly UTC (localNoon UTC 2024 12 9) twoSundays
     = Return [Happiest "Sunday"; MostFrequent "😊" 7 7].
Proof. repeat split; vm_compute; reflexivity. Qed.

(** C3.  In a zone west of UTC the streak is lost a day early: with entries
    on 2024-12-06, 12-07 and 12-08 and the clock at noon of 12-09, five
    hours west of UTC, the latest entry is dated yesterday and
    [getCurrentStreak] is [0]; in UTC, at noon of the same date, it is [3].
    The two cases of the specification hold in both zones. *)
Theorem getCurrentStreak_west_of_UTC :
  map date threeDays = ["2024-12-08"; "2024-12-07"; "2024-12-06"]
  /\ civilFromDays (Day (localNoon UTCminus5 2024 12 9 + UTCminus5)) = (2024, 12, 9)
  /\ getCurrentStreak calendarOnly UTCminus5 (localNoon UTCminus5 2024 12 9) threeDays = 0
  /\ getCurrentStreak calendarOnly UTC (localNoon UTC 2024 12 9) threeDays = 3
  /\ getCurrentStreak calendarOnly UTC (localNoon UTC 2024 12 8) threeDays = 3
  /\ getCurrentStreak calendarOnly UTC (localNoon UTC 2024 12 10) threeDays = 0
  /\ getCurrentStreak calendarOnly UTCminus5 (localNoon UTCminus5 2024 12 8) threeDays = 3
  /\ getCurrentStreak calendarOnly UTCminus5 (localNoon UTCminus5 2024 12 10) threeDays = 0.
Proof. vm_compute. repeat split. Qed.

(** C6.  A note that holds double quotes does not survive the round trip:
    [exportToCSV] doubles them and [parseCSVLine] drops every one. *)
Theorem csv_roundtrip_drops_quotes :
  map note quotedStore = [quotedNote]
  /\ fst (importFromCSV calendarOnly 0 (exportToCSV quotedStore) []) = Return 1
  /\ map (fun m => (date m, emoji m, note m))
         (snd (importFromCSV calendarOnly 0 (exportToCSV quotedStore) []))
     = [("2024-12-08", "😊", "say hi")]
  /\ quotedNote <> "say hi".
Proof. vm_compute. repeat split. discriminate. Qed.

(** C7.  A header without a [Date] column passes the check when another
    column's name contains the text: nothing is thrown, no column is found,
    every row is skipped. *)
Theorem importFromCSV_header_without_date_column :
  map trim (split comma (toLowerCase "Update,Emoji")) = ["update"; "emoji"]
  /\ indexOf ["update"; "emoji"] "date" = -1
  /\ importFromCSV calendarOnly 0 updateFile [] = (Return 0, []).
Proof. vm_compute. repeat split. Qed.

(** The picker's emojis are not keys of the table of the insights. *)
Lemma moodValue_of_picker_emojis :
  map moodValue ["😊"; "😢"; "😠"; "😴"; "😍"; "😰"; "😐"] = [3; 3; 3; 3; 3; 3; 3].
Proof. vm_compute. reflexivity. Qed.

(** ** Instances of the further properties *)

(** Two hours east of UTC. *)
Definition UTCplus2 : Z := 7200000.

(** Half past twelve, UTC, on the eighth of December 2024. *)
Definition halfPastNoon : Z := msPerDay * daysFromCivil 2024 12 8 + 45000000.

(** Three days with tags. *)
Definition taggedDays : Store :=
  [mkMood "2024-12-08" "😊" EmptyString ["work"; "rest"] 0;
   mkMood "2024-12-07" "😐" EmptyString ["work"] 0;
   mkMood "2024-12-06" "😊" EmptyString ["work"; "gym"] 0].

(** Two days with a day between them. *)
Definition twoDays : Store := [entryOn "2024-12-08"; entryOn "2024-12-06"].

Ltac own_keys :=
  repeat (constructor;
          try (let C := fresh in intros C; simpl in C; intuition discriminate)).

Lemma isoDateOf_round_trip_witness :
  fourDigitYear (Day halfPastNoon)
  /\ isoDateOf halfPastNoon = "2024-12-08"
  /\ Date_parse calendarOnly (isoDateOf halfPastNoon)
     = Some (msPerDay * Day halfPastNoon).
Proof.
  assert (H : fourDigitYear (Day halfPastNoon))
    by (unfold fourDigitYear; vm_compute; split; discriminate).
  split; [exact H|]. split; [vm_compute; reflexivity|].
  exact (proj1 (isoDateOf_round_trip calendarOnly halfPastNoon H)).
Defined.

Lemma getDaysInMonth_spec_witness :
  getDaysInMonth UTCminus5 2024 1 = Some 29
  /\ getDaysInMonth UTCplus2 2023 1 = Some 28.
Proof.
  split.
  - refine (proj1 (proj2 (getDaysInMonth_spec UTCminus5 2024 1 _ _ _)) eq_refl);
      vm_compute; split; discriminate.
  - refine (proj1 (proj2 (getDaysInMonth_spec UTCplus2 2023 1 _ _ _)) eq_refl);
      vm_compute; split; discriminate.
Defined.

Lemma formatDate_parse_witness :
  isoDate (formatDate 2024 1 29) = Some (2024, 2, 29).
Proof.
  refine (proj1 (formatDate_parse calendarOnly 2024 1 29 _ _ _));
    vm_compute; split; discriminate.
Defined.

Lemma getMoodsForMonth_by_date_witness :
  In (entryOn "2025-01-01")
     (getMoodsForMonth calendarOnly UTCminus5 [entryOn "2025-01-01"] 2024 11)
  /\ In (entryOn "2025-01-01")
        (getMoodsForMonth calendarOnly UTC [entryOn "2025-01-01"] 2025 0).
Proof.
  split.
  - refine (proj2 (getMoodsForMonth_by_date calendarOnly UTCminus5
                     [entryOn "2025-01-01"] 2024 11 (entryOn "2025-01-01")
                     2025 1 1 _ _) _).
    + vm_compute; split; [discriminate|reflexivity].
    + reflexivity.
    + split; [now left|]. vm_compute. split; reflexivity.
  - refine (proj2 (getMoodsForMonth_by_date calendarOnly UTC
                     [entryOn "2025-01-01"] 2025 0 (entryOn "2025-01-01")
                     2025 1 1 _ _) _).
    + vm_compute; split; [discriminate|reflexivity].
    + reflexivity.
    + split; [now left|]. vm_compute. split; reflexivity.
Defined.

Lemma dayCell_shows_witness :
  dayCell calendarOnly UTCminus5 [entryOn "2024-12-01"] 2024 11 1
  = ("2024-12-01", None)
  /\ dayCell calendarOnly UTC [entryOn "2024-12-01"] 2024 11 1
     = ("2024-12-01", Some (entryOn "2024-12-01")).
Proof.
  assert (U : uniqueDates [entryOn "2024-12-01"]).
  { unfold uniqueDates. simpl. constructor; [simpl; tauto|constructor]. }
  split.
  - refine (dayCell_shows calendarOnly UTCminus5 _ 2024 11 1 _ _ _ _ U);
      vm_compute; split; first [discriminate|reflexivity].
  - refine (dayCell_shows calendarOnly UTC _ 2024 11 1 _ _ _ _ U);
      vm_compute; split; first [discriminate|reflexivity].
Defined.


Lemma getAllTags_spec_witness :
  In (mkTagCount "work" 3) (getAllTags taggedDays)
  /\ map tagName (getAllTags taggedDays) = ["work"; "rest"; "gym"].
Proof.
  assert (H : Forall (fun m => Forall ownKey (tags m)) taggedDays)
    by (unfold taggedDays, ownKey; own_keys).
  split; [|vm_compute; reflexivity].
  apply (proj1 (getAllTags_spec calendarOnly taggedDays H)).
  split; [vm_compute; reflexivity|lia].
Defined.


Lemma custom_emoji_add_remove_witness :
  fst (removeCustomEmoji "🤔" (fst (addCustomEmoji "🤔" ["🥳"]))) = ["🥳"].
Proof.
  apply (proj2 (proj2 (proj2 (custom_emoji_add_remove calendarOnly "🤔" ["🥳"])))).
  unfold getAllEmojis, getCustomEmojis, DEFAULT_EMOJIS. simpl.
  intuition discriminate.
Defined.



Lemma deleteMood_spec_witness :
  getMood (deleteMood "2024-12-07" threeDays) "2024-12-07" = None
  /\ getTotalEntries (deleteMood "2024-12-07" threeDays) = 2.
Proof.
  assert (U : uniqueDates threeDays).
  { unfold uniqueDates. vm_compute. repeat constructor; simpl; intuition discriminate. }
  pose proof (deleteMood_spec calendarOnly "2024-12-07" threeDays)
    as (H1 & _ & _ & _ & _ & H6).
  split; [exact H1|]. rewrite (H6 U). vm_compute. reflexivity.
Defined.

Lemma saveMood_deleteMood_witness :
  sortedByDateDesc calendarOnly twoDays
  /\ map date (fst (saveMood calendarOnly 0 "2024-12-07" "😐" EmptyString None twoDays))
     = ["2024-12-08"; "2024-12-07"; "2024-12-06"]
  /\ deleteMood "2024-12-07"
       (fst (saveMood calendarOnly 0 "2024-12-07" "😐" EmptyString None twoDays))
     = twoDays.
Proof.
  assert (S : sortedByDateDesc calendarOnly twoDays).
  { unfold sortedByDateDesc, twoDays. constructor.
    - constructor; [constructor|constructor].
    - constructor; [|constructor].
      eexists. eexists. split; [reflexivity|]. split; [reflexivity|].
      vm_compute. discriminate. }
  split; [exact S|]. split; [vm_compute; reflexivity|].
  exact (proj1 (saveMood_deleteMood calendarOnly 0 "2024-12-07" "😐" EmptyString
                                    None twoDays S eq_refl)).
Defined.

Lemma exportToCSV_accepted_witness :
  exists n, fst (importFromCSV calendarOnly 0 (exportToCSV quotedStore) []) = Return n
            /\ 0 <= n.
Proof.
  apply (proj2 (exportToCSV_accepted calendarOnly 0 quotedStore [])).
  vm_compute. discriminate.
Defined.

Lemma importFromCSV_keeps_witness :
  exists m',
    getMood (snd (importFromCSV calendarOnly 0
                    (join (String LF EmptyString)
                          ["Date,Emoji"; "2024-12-07,😢"])
                    taggedDays)) "2024-12-07" = Some m'
    /\ tags m' = ["work"].
Proof.
  assert (U : uniqueDates taggedDays).
  { unfold uniqueDates. vm_compute. repeat constructor; simpl; intuition discriminate. }
  exact (proj1 (importFromCSV_keeps calendarOnly 0 _ taggedDays U)
               "2024-12-07" _ eq_refl).
Defined.

Lemma parseCSVLine_fields_witness :
  parseCSVLine " 2024-12-08 , ok,  a note " = ["2024-12-08"; "ok"; "a note"].
Proof.
  rewrite (proj2 (proj2 (parseCSVLine_fields calendarOnly
                           " 2024-12-08 , ok,  a note "))).
  - vm_compute. reflexivity.
  - vm_compute. intuition discriminate.
Defined.

Lemma streaks_east_of_UTC_witness :
  0 <= getCurrentStreak calendarOnly UTCplus2 (localNoon UTCplus2 2024 12 9) eightDays
    <= getLongestStreak calendarOnly eightDays
  /\ getLongestStreak calendarOnly eightDays <= getTotalEntries eightDays.
Proof.
  assert (Hz : 0 <= UTCplus2 < msPerDay)
    by (vm_compute; split; [discriminate|reflexivity]).
  assert (Hc : Forall onCalendar eightDays)
    by (repeat constructor; unfold onCalendar; vm_compute; discriminate).
  assert (U : uniqueDates eightDays).
  { unfold uniqueDates. vm_compute. repeat constructor; simpl; intuition discriminate. }
  assert (Hne : eightDays <> []) by discriminate.
  exact (proj2 (streaks_east_of_UTC calendarOnly UTCplus2
                  (localNoon UTCplus2 2024 12 9) eightDays Hz Hc U Hne)).
Defined.

Lemma shouldSendReminder_spec_witness :
  getHours UTCminus5 (Some (localNoon UTCminus5 2024 12 8 + 30600000)) = Some 20
  /\ calendarDay (isoDateOf (localNoon UTCminus5 2024 12 8 + 30600000))
     = Some (daysFromCivil 2024 12 9).
Proof.
  assert (Hh : getHours UTCminus5 (Some (localNoon UTCminus5 2024 12 8 + 30600000))
               = Some 20) by (vm_compute; reflexivity).
  split; [exact Hh|].
  refine (proj2 (proj2 (shouldSendReminder_spec calendarOnly UTCminus5
                          (localNoon UTCminus5 2024 12 8 + 30600000) [])) _ _ Hh).
  - vm_compute. split; discriminate.
  - unfold fourDigitYear. vm_compute. split; discriminate.
Defined.

Lemma calendar_months_line_up_witness :
  exists first days,
    getFirstDayOfMonth UTC 2024 11 = Some first
    /\ getDaysInMonth UTC 2024 11 = Some days
    /\ getFirstDayOfMonth UTC 2025 0 = Some ((first + days) mod 7).
Proof.
  destruct (calendar_months_line_up UTC 2024 11) as (first & days & H1 & H2 & _ & H3).
  - lia.
  - lia.
  - vm_compute. split; discriminate.
  - exists first, days. split; [exact H1|]. split; [exact H2|].
    exact (proj2 (proj2 H3)).
Defined.

Lemma csv_roundtrip_plain_witness :
  fst (importFromCSV calendarOnly 0 (exportToCSV twoDays) []) = Return 2.
Proof.
  assert (U : uniqueDates twoDays).
  { unfold uniqueDates. vm_compute. repeat constructor; simpl; intuition discriminate. }
  assert (P : Forall plainEntry twoDays).
  { repeat constructor; try (vm_compute; discriminate);
      try (vm_compute; reflexivity); vm_compute; intuition discriminate. }
  exact (proj1 (csv_roundtrip_plain calendarOnly 0 twoDays ltac:(discriminate) U P)).
Defined.

Lemma streak_broken_west_of_UTC_witness :
  getCurrentStreak calendarOnly UTCminus5 (localNoon UTCminus5 2024 12 9) threeDays
  = 0.
Proof.
  eapply (streak_broken_west_of_UTC calendarOnly UTCminus5 _ threeDays).
  2:{ vm_compute. reflexivity. }
  - vm_compute. split; [discriminate|reflexivity].
  - unfold onCalendar. vm_compute. discriminate.
  - vm_compute. reflexivity.
Defined.

Lemma tag_changes_counts_witness :
  In (mkTagCount "gym" 2)
     (getAllTags (fst (addTagToMood calendarOnly 1 "2024-12-07" "gym" taggedDays)))
  /\ tagUses "work" (fst (removeTagFromMood calendarOnly 1 "2024-12-07" "work"
                                            taggedDays)) = 2.
Proof.
  assert (U : uniqueDates taggedDays).
  { unfold uniqueDates. vm_compute. repeat constructor; simpl; intuition discriminate. }
  assert (K : Forall (fun m => Forall ownKey (tags m)) taggedDays)
    by (unfold taggedDays, ownKey; own_keys).
  split.
  - assert (K1 : ownKey "gym") by (unfold ownKey; simpl; intuition discriminate).
    apply (proj2 (proj2 (proj2 (tag_changes_counts calendarOnly 1 "2024-12-07" "gym"
                                  taggedDays _ U eq_refl K K1)))).
    vm_compute. reflexivity.
  - assert (K1 : ownKey "work") by (unfold ownKey; simpl; intuition discriminate).
    rewrite (proj1 (proj2 (proj2 (tag_changes_counts calendarOnly 1 "2024-12-07"
                                    "work" taggedDays _ U eq_refl K K1)))).
    vm_compute. reflexivity.
Defined.
